(** * The DXF viewer of the MDF cutting console: extractor and projector

    A shallow embedding of [web-ui/src/services/dxfViewerService.js]
    ([parseDxfContent], [convertDxfToSvg], the file name of
    [downloadDxfFile]) and of [web-ui/src/components/DxfViewer.jsx]: the
    zoom handlers ([handleZoomIn], [handleZoomOut], [handleWheel]), the
    loading of a drawing ([loadDxfFile]), the drag handlers
    ([handleMouseDown], [handleMouseMove], [handleMouseUp]) and the file
    name of [handleDownload].

    Conventions of the embedding.
    - A JavaScript Number is an IEEE 754 binary64 value: Rocq's primitive
      [float], with the same rounding for [+ - * /].
    - A JavaScript string is a [string]; the development covers ASCII text,
      where [TextDecoder.decode] is the identity, so [parseDxfContent] starts
      from the decoded text.
    - [console.log] calls have no effect on the results and are left out.
    - The bodies of both service functions sit in a [try]/[catch]; on a list
      of well-formed entities (resp. on a text) no operation of the body can
      raise, so the functions are total and the [catch] branch is never
      taken.
    - The state of the component is a record of its [useState] variables; a
      handler is a function on this record, and the request of
      [loadDxfFile] is given by its outcome, the content received or the
      message of the error thrown. *)

From Stdlib Require Import List String Ascii ZArith Bool Floats Lia.
From Stdlib Require Import DecimalString.
Import ListNotations.
Open Scope string_scope.

(** ** JavaScript built-ins on strings *)

Module JS.

(** [WhiteSpace] and [LineTerminator] code points of the ASCII range: TAB, LF,
    VT, FF, CR and SPACE. *)
Definition isWhiteSpace (c : ascii) : bool :=
  match nat_of_ascii c with
  | 9 | 10 | 11 | 12 | 13 | 32 => true
  | _ => false
  end.

(** [String.prototype.trimStart]. *)
Fixpoint trimStart (s : string) : string :=
  match s with
  | EmptyString => EmptyString
  | String c s' => if isWhiteSpace c then trimStart s' else s
  end.

(** [String.prototype.trimEnd]. *)
Fixpoint trimEnd (s : string) : string :=
  match s with
  | EmptyString => EmptyString
  | String c s' =>
      let t := trimEnd s' in
      if isWhiteSpace c && (t =? "") then EmptyString else String c t
  end.

(** [String.prototype.trim]. *)
Definition trim (s : string) : string := trimEnd (trimStart s).

(** [text.split('\n')]: the pieces between line feeds; the empty text gives
    one empty piece. *)
Fixpoint split_lf (s : string) : list string :=
  match s with
  | EmptyString => [EmptyString]
  | String c s' =>
      if (c =? "010")%char then EmptyString :: split_lf s'
      else match split_lf s' with
           | l :: ls => String c l :: ls
           | [] => [String c EmptyString]
           end
  end.

(** [lines.join('\n')], used to write inputs the way a file holds them. *)
Fixpoint join_lf (ls : list string) : string :=
  match ls with
  | [] => EmptyString
  | [l] => l
  | l :: ls' => l ++ String "010" (join_lf ls')
  end.

(** ** JavaScript built-ins on numbers *)

(** The value of a decimal digit, and of a digit in radix 16. *)
Definition digitValue (c : ascii) : option Z :=
  let n := nat_of_ascii c in
  if (48 <=? n)%nat && (n <=? 57)%nat then Some (Z.of_nat (n - 48)) else None.

Definition hexDigitValue (c : ascii) : option Z :=
  let n := nat_of_ascii c in
  if (48 <=? n)%nat && (n <=? 57)%nat then Some (Z.of_nat (n - 48))
  else if (97 <=? n)%nat && (n <=? 102)%nat then Some (Z.of_nat (n - 87))
  else if (65 <=? n)%nat && (n <=? 70)%nat then Some (Z.of_nat (n - 55))
  else None.

(** The longest prefix of digits of [s], read in radix [radix] on top of the
    value [acc]: the value, the number of digits read and the rest. *)
Fixpoint readDigits (digit : ascii -> option Z) (radix acc cnt : Z) (s : string)
  : Z * Z * string :=
  match s with
  | String c s' =>
      match digit c with
      | Some d => readDigits digit radix (radix * acc + d)%Z (cnt + 1)%Z s'
      | None => (acc, cnt, s)
      end
  | EmptyString => (acc, cnt, s)
  end.

(** An optional sign: whether it is a minus, and the rest. *)
Definition readSign (s : string) : bool * string :=
  match s with
  | String "-" r => (true, r)
  | String "+" r => (false, r)
  | _ => (false, s)
  end.

(** The binary64 value nearest to [(-1)^neg * m * 10^e] (ties to even), for
    [0 <= m]: the Number value of a decimal literal. The rounding is the
    library's ([binary_round], and the quotient with its location as [SFdiv]
    computes it). *)
Definition SF_of_decimal (neg : bool) (m e : Z) : spec_float :=
  match m with
  | Zpos p =>
      match e with
      | Zneg _ =>
          let '(q, e', l) :=
            SFdiv_core_binary prec emax (Zpos p) 0 (10 ^ (- e))%Z 0 in
          binary_round_aux prec emax neg q e' l
      | _ => binary_round prec emax neg (Z.to_pos (Zpos p * 10 ^ e)) 0
      end
  | _ => S754_zero neg
  end.

(** The exponent part of a [StrDecimalLiteral], when [s] starts with a
    complete one; 0 otherwise. *)
Definition readExponent (s : string) : Z :=
  match s with
  | String c r =>
      if (c =? "e")%char || (c =? "E")%char then
        let '(eneg, r') := readSign r in
        let '(ev, ne, _) := readDigits digitValue 10 0 0 r' in
        if (ne =? 0)%Z then 0%Z else if eneg then (- ev)%Z else ev
      else 0%Z
  | EmptyString => 0%Z
  end.

(** [parseFloat]: leading white space is skipped, the longest prefix that is
    a [StrDecimalLiteral] is read, and its value is rounded; NaN when there is
    no such prefix. *)
Definition parseFloat (input : string) : float :=
  let '(neg, s) := readSign (trimStart input) in
  if prefix "Infinity" s then (if neg then neg_infinity else infinity)
  else
    let '(ip, ni, s1) := readDigits digitValue 10 0 0 s in
    let '(m, nf, s2) :=
      match s1 with
      | String "." r => readDigits digitValue 10 ip 0 r
      | _ => (ip, 0%Z, s1)
      end in
    if (ni + nf =? 0)%Z then nan
    else SF2Prim (SF_of_decimal neg m (readExponent s2 - nf)).

(** [parseInt] with no radix argument: radix 16 after a [0x] or [0X] prefix,
    10 otherwise; NaN when no digit follows. *)
Definition parseInt (input : string) : float :=
  let '(neg, s) := readSign (trimStart input) in
  let '(v, n, _) :=
    match s with
    | String "0" (String c r) =>
        if (c =? "x")%char || (c =? "X")%char
        then readDigits hexDigitValue 16 0 0 r
        else readDigits digitValue 10 0 0 s
    | _ => readDigits digitValue 10 0 0 s
    end in
  if (n =? 0)%Z then nan else SF2Prim (SF_of_decimal neg v 0).

(** [Math.min] and [Math.max] of two Numbers: NaN when an argument is NaN, and
    [-0] is below [+0]. *)
Definition Math_min (a b : float) : float :=
  if is_nan a || is_nan b then nan
  else if (a <? b)%float then a
  else if (b <? a)%float then b
  else if get_sign a then a else b.

Definition Math_max (a b : float) : float :=
  if is_nan a || is_nan b then nan
  else if (a <? b)%float then b
  else if (b <? a)%float then a
  else if get_sign a then b else a.

(** *** [Number::toString], the conversion a template literal applies *)

(** The decimal digits of a natural number. *)
Definition decimalDigits (s : Z) : string :=
  NilEmpty.string_of_uint (N.to_uint (Z.to_N s)).

Fixpoint zeros (n : nat) : string :=
  match n with
  | O => EmptyString
  | S n' => String "0" (zeros n')
  end.

Fixpoint stripTrailingZeros (s : string) : string :=
  match s with
  | EmptyString => EmptyString
  | String c s' =>
      let t := stripTrailingZeros s' in
      if (c =? "0")%char && (t =? "") then EmptyString else String c t
  end.

(** A positive finite Number [m * 2^e] as a fraction of positive integers. *)
Definition fraction (m : positive) (e : Z) : Z * Z :=
  if (0 <=? e)%Z then (Zpos m * 2 ^ e, 1)%Z else (Zpos m, 2 ^ (- e))%Z.

(** [num / den * 10^p] as a fraction. *)
Definition scale10 (num den p : Z) : Z * Z :=
  if (0 <=? p)%Z then (num * 10 ^ p, den)%Z else (num, den * 10 ^ (- p))%Z.

(** The least [n] from [n0] on with [num / den < 10^n]. *)
Fixpoint magnitude (fuel : nat) (num den n0 : Z) : Z :=
  match fuel with
  | O => n0
  | S fuel' =>
      let '(a, b) := scale10 num den (- n0) in
      if (a <? b)%Z then n0 else magnitude fuel' num den (n0 + 1)
  end.

(** A lower bound of that [n], at most three below it: [num / den] is above
    [2^t] for [t = log2 num - log2 den - 1], and [log10 2] is 0.30103 less
    [5e-9]. *)
Definition magnitudeBelow (num den : Z) : Z :=
  ((Z.log2 num - Z.log2 den - 1) * 30103 / 100000 - 1)%Z.

(** Whether the Number value of [s * 10^p] is [v]. *)
Definition roundTrips (v : float) (s p : Z) : bool :=
  Leibniz.eqb (SF2Prim (SF_of_decimal false s p)) v.

(** The integer [s] of the fewest digits [k], from [k] on, with
    [10^(k-1) <= s < 10^k] (or [s = 10^k]) whose value [s * 10^(n-k)] is
    the Number [v = num / den]; of two such integers the one nearer to [v],
    the even one on a tie. Seventeen digits always suffice. *)
Fixpoint shortest (fuel : nat) (v : float) (num den n k : Z) : Z * Z :=
  let '(a, b) := scale10 num den (k - n) in
  let lo := (a / b)%Z in
  let r := (a mod b)%Z in
  match fuel with
  | O => (lo, k)
  | S fuel' =>
      match roundTrips v lo (n - k), roundTrips v (lo + 1) (n - k) with
      | true, true =>
          if (2 * r <? b)%Z then (lo, k)
          else if (b <? 2 * r)%Z then (lo + 1, k)%Z
          else if Z.even lo then (lo, k) else (lo + 1, k)%Z
      | true, false => (lo, k)
      | false, true => (lo + 1, k)%Z
      | false, false => shortest fuel' v num den n (k + 1)
      end
  end.

(** The notation of the digits [ds] (no trailing zero) with the decimal point
    after the [n]-th digit: plain up to 21 integer digits and down to six
    leading zeros, exponential beyond. *)
Definition notation (ds : string) (n : Z) : string :=
  let k := Z.of_nat (String.length ds) in
  if (k <=? n)%Z && (n <=? 21)%Z then ds ++ zeros (Z.to_nat (n - k))
  else if (0 <? n)%Z && (n <=? 21)%Z then
    substring 0 (Z.to_nat n) ds ++ "."
      ++ substring (Z.to_nat n) (Z.to_nat (k - n)) ds
  else if (-6 <? n)%Z && (n <=? 0)%Z then "0." ++ zeros (Z.to_nat (- n)) ++ ds
  else
    let e := (n - 1)%Z in
    let mantissa :=
      if (k =? 1)%Z then ds
      else substring 0 1 ds ++ "." ++ substring 1 (Z.to_nat (k - 1)) ds in
    mantissa ++ "e" ++ (if (e <? 0)%Z then "-" else "+")
      ++ decimalDigits (Z.abs e).

(** A positive finite Number. *)
Definition positiveToString (v : float) (m : positive) (e : Z) : string :=
  let '(num, den) := fraction m e in
  let n := magnitude 8 num den (magnitudeBelow num den) in
  let '(s, k) := shortest 17 v num den n 1 in
  let all := decimalDigits s in
  notation (stripTrailingZeros all) (Z.of_nat (String.length all) + (n - k)).

Definition Number_toString (v : float) : string :=
  match Prim2SF v with
  | S754_nan => "NaN"
  | S754_zero _ => "0"
  | S754_infinity sign => if sign then "-Infinity" else "Infinity"
  | S754_finite sign m e =>
      (if sign then "-" else "") ++ positiveToString (abs v) m e
  end.

End JS.


(** ** Data model of the extractor *)

(** A vertex [{ x, y }]. *)
Record point := { x : float; y : float }.

(** [entity.data]: [layer] and [vertexCount] are absent until a group code
    8, resp. 90, is applied. *)
Record entityData := {
  layer : option string;
  vertexCount : option float
}.

(** An entity [{ type, data, vertices }]. *)
Record entity := {
  type : string;
  data : entityData;
  vertices : list point
}.

(** ** [parseDxfContent] *)

(** The local variables of [parseDxfContent]; [None] is [null]. *)
Module Scan.

Record state := {
  entities : list entity;
  currentEntity : option entity;
  inEntity : bool;
  inEntitiesSection : bool;
  currentLayer : option string;
  vertexCount : float;
  vertices : list point;
  expectingY : bool;
  lastX : option float
}.

(** The variables as declared before the loop. *)
Definition init : state := {|
  entities := [];
  currentEntity := None;
  inEntity := false;
  inEntitiesSection := false;
  currentLayer := None;
  vertexCount := 0;
  vertices := [];
  expectingY := false;
  lastX := None
|}.

End Scan.


(** [currentLayer === '0' || currentLayer === 'work_area' ||
    currentLayer === 'details']. *)
Definition allowedLayer (l : option string) : bool :=
  match l with
  | Some s => (s =? "0") || (s =? "work_area") || (s =? "details")
  | None => false
  end.

(** [if (currentEntity && allowed) { currentEntity.vertices = vertices;
    entities.push(currentEntity) }]: the entity list after the test. *)
Definition pushCurrent (st : Scan.state) : list entity :=
  match Scan.currentEntity st with
  | Some e =>
      if allowedLayer (Scan.currentLayer st)
      then Scan.entities st ++ [ {| type := type e; data := data e;
                               vertices := Scan.vertices st |} ]
      else Scan.entities st
  | None => Scan.entities st
  end.

(** [lines[i + 1].trim() === value], under [i + 1 < lines.length]. *)
Definition nextIs (next : option string) (value : string) : bool :=
  match next with
  | Some n => JS.trim n =? value
  | None => false
  end.

(** The block [if (line === '0' && i + 1 < lines.length)]: a [LWPOLYLINE]
    marker saves the previous entity and starts a new one; any other entity
    type changes nothing. *)
Definition startEntity (st : Scan.state) (line : string) (next : option string)
  : Scan.state :=
  if (line =? "0") && nextIs next "LWPOLYLINE" then
    {| Scan.entities := pushCurrent st;
       Scan.currentEntity :=
         Some {| type := "LWPOLYLINE";
                 data := {| layer := None; vertexCount := None |};
                 vertices := [] |};
       Scan.inEntity := true;
       Scan.inEntitiesSection := Scan.inEntitiesSection st;
       Scan.currentLayer := None;
       Scan.vertexCount := 0;
       Scan.vertices := [];
       Scan.expectingY := false;
       Scan.lastX := None |}
  else st.

(** [currentEntity.data.layer = l] and [currentEntity.data.vertexCount = n]. *)
Definition setLayer (l : string) (e : entity) : entity :=
  {| type := type e;
     data := {| layer := Some l; vertexCount := vertexCount (data e) |};
     vertices := vertices e |}.

Definition setVertexCount (n : float) (e : entity) : entity :=
  {| type := type e;
     data := {| layer := layer (data e); vertexCount := Some n |};
     vertices := vertices e |}.

(** The block [if (inEntity && currentEntity)]: the chain of tests on the
    group codes 8, 90, 10 and 20, each under [i + 1 < lines.length]. *)
Definition groupCode (st : Scan.state) (line : string) (next : option string)
  : Scan.state :=
  match Scan.inEntity st, Scan.currentEntity st, next with
  | true, Some e, Some n =>
      if line =? "8" then
        {| Scan.entities := Scan.entities st;
           Scan.currentEntity := Some (setLayer (JS.trim n) e);
           Scan.inEntity := Scan.inEntity st;
           Scan.inEntitiesSection := Scan.inEntitiesSection st;
           Scan.currentLayer := Some (JS.trim n);
           Scan.vertexCount := Scan.vertexCount st;
           Scan.vertices := Scan.vertices st;
           Scan.expectingY := Scan.expectingY st;
           Scan.lastX := Scan.lastX st |}
      else if line =? "90" then
        {| Scan.entities := Scan.entities st;
           Scan.currentEntity := Some (setVertexCount (JS.parseInt n) e);
           Scan.inEntity := Scan.inEntity st;
           Scan.inEntitiesSection := Scan.inEntitiesSection st;
           Scan.currentLayer := Scan.currentLayer st;
           Scan.vertexCount := JS.parseInt n;
           Scan.vertices := Scan.vertices st;
           Scan.expectingY := Scan.expectingY st;
           Scan.lastX := Scan.lastX st |}
      else if line =? "10" then
        {| Scan.entities := Scan.entities st;
           Scan.currentEntity := Scan.currentEntity st;
           Scan.inEntity := Scan.inEntity st;
           Scan.inEntitiesSection := Scan.inEntitiesSection st;
           Scan.currentLayer := Scan.currentLayer st;
           Scan.vertexCount := Scan.vertexCount st;
           Scan.vertices := Scan.vertices st;
           Scan.expectingY := true;
           Scan.lastX := Some (JS.parseFloat n) |}
      else if (line =? "20") && Scan.expectingY st then
        match Scan.lastX st with
        | Some px =>
            {| Scan.entities := Scan.entities st;
               Scan.currentEntity := Scan.currentEntity st;
               Scan.inEntity := Scan.inEntity st;
               Scan.inEntitiesSection := Scan.inEntitiesSection st;
               Scan.currentLayer := Scan.currentLayer st;
               Scan.vertexCount := Scan.vertexCount st;
               Scan.vertices :=
                 Scan.vertices st ++ [ {| x := px; y := JS.parseFloat n |} ];
               Scan.expectingY := false;
               Scan.lastX := None |}
        | None => st
        end
      else st
  | _, _, _ => st
  end.

(** One iteration of the loop on [lines[i]], with [next] the line
    [lines[i + 1]] when [i + 1 < lines.length]. The first two tests end the
    iteration ([continue]). *)
Definition step (st : Scan.state) (raw : string) (next : option string)
  : Scan.state :=
  let line := JS.trim raw in
  if (line =? "2") && nextIs next "ENTITIES" then
    {| Scan.entities := Scan.entities st;
       Scan.currentEntity := Scan.currentEntity st;
       Scan.inEntity := Scan.inEntity st;
       Scan.inEntitiesSection := true;
       Scan.currentLayer := Scan.currentLayer st;
       Scan.vertexCount := Scan.vertexCount st;
       Scan.vertices := Scan.vertices st;
       Scan.expectingY := Scan.expectingY st;
       Scan.lastX := Scan.lastX st |}
  else if negb (Scan.inEntitiesSection st) then st
  else groupCode (startEntity st line next) line next.

(** The loop [for (let i = 0; i < lines.length; i++)], from the state [st]
    on the lines that remain. *)
Fixpoint scan (st : Scan.state) (lines : list string) : Scan.state :=
  match lines with
  | [] => st
  | raw :: rest => scan (step st raw (hd_error rest)) rest
  end.

(** [parseDxfContent], from the decoded text: the loop, then the last
    entity is added under the same test. *)
Definition parseDxfLines (lines : list string) : list entity :=
  pushCurrent (scan Scan.init lines).

Definition parseDxfContent (text : string) : list entity :=
  parseDxfLines (JS.split_lf text).

(** ** [convertDxfToSvg] *)

(** The Number literals of the sources: 0.8, and for the zoom handlers 1.2,
    0.1, 0.9 and 1.1, each the binary64 value nearest to the decimal. *)
Definition lit_0_8 : float := 0x1.999999999999ap-1.
Definition lit_1_2 : float := 0x1.3333333333333p+0.
Definition lit_0_1 : float := 0x1.999999999999ap-4.
Definition lit_0_9 : float := 0x1.ccccccccccccdp-1.
Definition lit_1_1 : float := 0x1.199999999999ap+0.

(** The quotation mark, and the conversion [${v}] of a Number in a template
    literal. *)
Definition dq : string := String "034" EmptyString.
Definition str (v : float) : string := JS.Number_toString v.

(** [minX], [minY], [maxX], [maxY]. *)
Record bounds := {
  minX : float;
  minY : float;
  maxX : float;
  maxY : float
}.

(** [Infinity, Infinity, -Infinity, -Infinity]. *)
Definition noBounds : bounds :=
  {| minX := infinity; minY := infinity;
     maxX := neg_infinity; maxY := neg_infinity |}.

(** The body of the inner [forEach], on one vertex. *)
Definition addVertex (b : bounds) (v : point) : bounds :=
  {| minX := JS.Math_min (minX b) (x v);
     minY := JS.Math_min (minY b) (y v);
     maxX := JS.Math_max (maxX b) (x v);
     maxY := JS.Math_max (maxY b) (y v) |}.

(** The two nested [forEach] loops over the entities and their vertices. *)
Definition findBounds (entities : list entity) : bounds :=
  fold_left (fun b e => fold_left addVertex (vertices e) b) entities noBounds.

Definition dx (b : bounds) : float := (maxX b - minX b)%float.
Definition dy (b : bounds) : float := (maxY b - minY b)%float.

(** [Math.min(width / dx, height / dy) * 0.8]. *)
Definition scaleOf (b : bounds) (width height : float) : float :=
  (JS.Math_min (width / dx b) (height / dy b) * lit_0_8)%float.

Definition centerX (b : bounds) : float := ((minX b + maxX b) / 2)%float.
Definition centerY (b : bounds) : float := ((minY b + maxY b) / 2)%float.

(** The opening [<svg ...>] tag. *)
Definition svgOpen (width height : float) : string :=
  "<svg width=" ++ dq ++ str width ++ dq
    ++ " height=" ++ dq ++ str height ++ dq
    ++ " xmlns=" ++ dq ++ "http://www.w3.org/2000/svg" ++ dq
    ++ " viewBox=" ++ dq ++ "0 0 " ++ str width ++ " " ++ str height ++ dq
    ++ ">".

(** The opening [<g transform=...>] tag. *)
Definition groupOpen (b : bounds) (width height : float) : string :=
  "<g transform=" ++ dq
    ++ "translate(" ++ str (width / 2) ++ ", " ++ str (height / 2) ++ ")"
    ++ " scale(" ++ str (scaleOf b width height) ++ ")"
    ++ " translate(" ++ str (- centerX b) ++ ", " ++ str (- centerY b) ++ ")"
    ++ dq ++ ">".

(** [strokeColor] and [strokeWidth], by layer. *)
Definition strokeColor (e : entity) : string :=
  match layer (data e) with
  | Some l =>
      if (l =? "0") || (l =? "work_area") then "#2E86AB"
      else if l =? "details" then "#A23B72"
      else "black"
  | None => "black"
  end.

Definition strokeWidth (e : entity) : string :=
  match layer (data e) with
  | Some l =>
      if (l =? "0") || (l =? "work_area") then "2"
      else if l =? "details" then "1.5"
      else "1"
  | None => "1"
  end.

(** The [for] loop that appends [ L x y] for the vertices after the first. *)
Fixpoint lineTo (vs : list point) : string :=
  match vs with
  | [] => EmptyString
  | v :: vs' => " L " ++ str (x v) ++ " " ++ str (y v) ++ lineTo vs'
  end.

(** [pathData] of a polyline with first vertex [v] and further vertices
    [vs]. *)
Definition pathData (v : point) (vs : list point) : string :=
  "M " ++ str (x v) ++ " " ++ str (y v) ++ lineTo vs.

(** What the body of the second [forEach] appends to [svg] for one entity:
    a [<path .../>] under [entity.type === 'LWPOLYLINE' &&
    entity.vertices.length > 0], nothing otherwise. *)
Definition pathElement (e : entity) : string :=
  match vertices e with
  | v :: vs =>
      if type e =? "LWPOLYLINE" then
        "<path d=" ++ dq ++ pathData v vs ++ dq
          ++ " fill=" ++ dq ++ "none" ++ dq
          ++ " stroke=" ++ dq ++ strokeColor e ++ dq
          ++ " stroke-width=" ++ dq ++ strokeWidth e ++ dq ++ "/>"
      else EmptyString
  | [] => EmptyString
  end.

(** The second [forEach]: the appended path elements, in order. *)
Fixpoint pathElements (entities : list entity) : string :=
  match entities with
  | [] => EmptyString
  | e :: es => pathElement e ++ pathElements es
  end.

(** [convertDxfToSvg(entities, width, height)]; the caller passes 800 and
    600, which are also the defaults. *)
Definition convertDxfToSvg (entities : list entity) (width height : float)
  : string :=
  let b := findBounds entities in
  svgOpen width height ++ groupOpen b width height
    ++ pathElements entities ++ "</g></svg>".

(** ** The zoom handlers of [DxfViewer] *)

(** [useState(1)]. *)
Definition initialZoom : float := 1.

(** [setZoom(prev => Math.min(prev * 1.2, 5))]. *)
Definition handleZoomIn (prev : float) : float :=
  JS.Math_min (prev * lit_1_2) 5.

(** [setZoom(prev => Math.max(prev / 1.2, 0.1))]. *)
Definition handleZoomOut (prev : float) : float :=
  JS.Math_max (prev / lit_1_2) lit_0_1.

(** [const delta = e.deltaY > 0 ? 0.9 : 1.1;
    setZoom(prev => Math.max(0.1, Math.min(5, prev * delta)))]. *)
Definition handleWheel (deltaY : float) (prev : float) : float :=
  let delta := if (0 <? deltaY)%float then lit_0_9 else lit_1_1 in
  JS.Math_max lit_0_1 (JS.Math_min 5 (prev * delta)).

(** [setZoom(1)] of [handleResetZoom]. *)
Definition handleResetZoom (prev : float) : float := 1.

(** ** The state of [DxfViewer], loading and dragging *)

(** The fields of a mouse event that the handlers read. *)
Record mouseEvent := { clientX : float; clientY : float }.

(** The state variables of the component, in the order of their [useState],
    each with its setter. [pan] and [dragStart] are objects [{ x, y }]. *)
Module Viewer.

Record state := {
  svgContent : string;
  loading : bool;
  error : option string;
  zoom : float;
  pan : point;
  isDragging : bool;
  dragStart : point
}.

(** The initial values. *)
Definition init : state := {|
  svgContent := EmptyString;
  loading := false;
  error := None;
  zoom := 1;
  pan := {| x := 0; y := 0 |};
  isDragging := false;
  dragStart := {| x := 0; y := 0 |}
|}.

Definition setSvgContent (v : string) (st : state) : state :=
  {| svgContent := v; loading := loading st; error := error st;
     zoom := zoom st; pan := pan st; isDragging := isDragging st;
     dragStart := dragStart st |}.

Definition setLoading (v : bool) (st : state) : state :=
  {| svgContent := svgContent st; loading := v; error := error st;
     zoom := zoom st; pan := pan st; isDragging := isDragging st;
     dragStart := dragStart st |}.

Definition setError (v : option string) (st : state) : state :=
  {| svgContent := svgContent st; loading := loading st; error := v;
     zoom := zoom st; pan := pan st; isDragging := isDragging st;
     dragStart := dragStart st |}.

Definition setPan (v : point) (st : state) : state :=
  {| svgContent := svgContent st; loading := loading st; error := error st;
     zoom := zoom st; pan := v; isDragging := isDragging st;
     dragStart := dragStart st |}.

Definition setIsDragging (v : bool) (st : state) : state :=
  {| svgContent := svgContent st; loading := loading st; error := error st;
     zoom := zoom st; pan := pan st; isDragging := v;
     dragStart := dragStart st |}.

Definition setDragStart (v : point) (st : state) : state :=
  {| svgContent := svgContent st; loading := loading st; error := error st;
     zoom := zoom st; pan := pan st; isDragging := isDragging st;
     dragStart := v |}.

End Viewer.

(** How [await dxfViewerService.loadDxfFile(mapId)] ends: with the content
    of the file, or with an error thrown, of which the handler reads the
    [message]. *)
Inductive response :=
| Received (dxfContent : string)
| Failed (message : string).

(** The three error texts of [loadDxfFile]. *)
Definition noDataMessage : string :=
  "DXF файл не содержит данных для отображения".
Definition noSvgMessage : string := "Не удалось сгенерировать SVG".
Definition loadFailedMessage : string := "Ошибка загрузки DXF файла: ".

(** [loadDxfFile] of the component, from the state [st] and the response to
    the request: [setLoading(true); setError(null)], the body of the [try]
    with its two early [return]s, the [catch] and the [finally]. *)
Definition loadDxfFile (r : response) (st : Viewer.state) : Viewer.state :=
  let st := Viewer.setError None (Viewer.setLoading true st) in
  let st :=
    match r with
    | Received dxfContent =>
        let entities := parseDxfContent dxfContent in
        if (List.length entities =? 0)%nat then
          Viewer.setError (Some noDataMessage) st
        else
          let svg := convertDxfToSvg entities 800 600 in
          if (svg =? EmptyString) || (String.length svg <? 100)%nat then
            Viewer.setError (Some noSvgMessage) st
          else Viewer.setSvgContent svg st
    | Failed message =>
        Viewer.setError (Some (loadFailedMessage ++ message)) st
    end in
  Viewer.setLoading false st.

(** [handleMouseDown]: the drag starts, and [dragStart] is the pointer minus
    the pan. *)
Definition handleMouseDown (e : mouseEvent) (st : Viewer.state)
  : Viewer.state :=
  Viewer.setDragStart
    {| x := (clientX e - x (Viewer.pan st))%float;
       y := (clientY e - y (Viewer.pan st))%float |}
    (Viewer.setIsDragging true st).

(** [handleMouseMove]: during a drag the pan is the pointer minus
    [dragStart]. *)
Definition handleMouseMove (e : mouseEvent) (st : Viewer.state)
  : Viewer.state :=
  if Viewer.isDragging st then
    Viewer.setPan
      {| x := (clientX e - x (Viewer.dragStart st))%float;
         y := (clientY e - y (Viewer.dragStart st))%float |} st
  else st.

(** [handleMouseUp], also the handler of [onMouseLeave]. *)
Definition handleMouseUp (st : Viewer.state) : Viewer.state :=
  Viewer.setIsDragging false st.

(** The file name of [handleDownload],
    [mapData?.name ? `${mapData.name}.dxf` : 'cutting_map.dxf'], from the
    value of [mapData?.name] ([None] is [undefined]; the empty string is
    falsy too), and the [download] attribute that [downloadDxfFile] sets,
    [filename || 'cutting_map.dxf']. *)
Definition downloadName (name : option string) : string :=
  match name with
  | Some n => if n =? EmptyString then "cutting_map.dxf" else n ++ ".dxf"
  | None => "cutting_map.dxf"
  end.

Definition downloadAttribute (filename : string) : string :=
  if filename =? EmptyString then "cutting_map.dxf" else filename.

(** ** Drawings as texts *)

(** A polyline as a file writes it: the texts of its layer, of its declared
    count and of its coordinate pairs. *)
Record polylineText := {
  layerText : string;
  countText : string;
  coordTexts : list (string * string)
}.

(** The lines of a polyline, of a coordinate pair, and of a drawing whose
    [ENTITIES] section holds the polylines [ps] and nothing else. *)
Definition coordLines (c : string * string) : list string :=
  ["10"; fst c; "20"; snd c].

Definition polylineLines (p : polylineText) : list string :=
  (["0"; "LWPOLYLINE"; "8"; layerText p; "90"; countText p]
     ++ flat_map coordLines (coordTexts p))%list.

Definition drawingLines (ps : list polylineText) : list string :=
  (["0"; "SECTION"; "2"; "ENTITIES"] ++ flat_map polylineLines ps
     ++ ["0"; "ENDSEC"; "0"; "EOF"])%list.

(** The entity a polyline stands for. *)
Definition vertexOf (c : string * string) : point :=
  {| x := JS.parseFloat (fst c); y := JS.parseFloat (snd c) |}.

Definition entityOf (p : polylineText) : entity :=
  {| type := "LWPOLYLINE";
     data := {| layer := Some (JS.trim (layerText p));
                vertexCount := Some (JS.parseInt (countText p)) |};
     vertices := map vertexOf (coordTexts p) |}.

(** A value line that the loop does not take for one of the group codes 8,
    90, 10 and 20. A value [0] or [2] is plain: what follows a value line in
    a drawing is never [LWPOLYLINE] or [ENTITIES]. *)
Definition plainValue (t : string) : Prop :=
  ~ In (JS.trim t) ["8"; "90"; "10"; "20"].

(** A polyline whose values are plain. *)
Definition plainPolyline (p : polylineText) : Prop :=
  plainValue (layerText p)
  /\ plainValue (countText p)
  /\ Forall (fun c => plainValue (fst c) /\ plainValue (snd c)) (coordTexts p).

(** A line after which a [0] or a [2] starts nothing. *)
Definition quiet (next : option string) : Prop :=
  nextIs next "LWPOLYLINE" = false /\ nextIs next "ENTITIES" = false.

Definition onAllowedLayer (p : polylineText) : bool :=
  allowedLayer (Some (JS.trim (layerText p))).

(** ** Sample drawings

    Inputs as a DXF file holds them, one group code or value per line. *)

Module Sample.

(** The start of the [ENTITIES] section and the end of the file. *)
Definition sectionStart : list string := ["  0"; "SECTION"; "  2"; "ENTITIES"].
Definition fileEnd : list string := ["  0"; "ENDSEC"; "  0"; "EOF"].

(** A sheet outline on layer [0] and a part on layer [details]. *)
Definition sheetAndPart : string :=
  JS.join_lf (sectionStart ++
    ["  0"; "LWPOLYLINE"; "  8"; "0"; " 90"; "4";
     " 10"; "0.0"; " 20"; "0.0"; " 10"; "100.0"; " 20"; "0.0";
     " 10"; "100.0"; " 20"; "50.0"; " 10"; "0.0"; " 20"; "50.0";
     "  0"; "LWPOLYLINE"; "  8"; "details"; " 90"; "3";
     " 10"; "10.0"; " 20"; "10.0"; " 10"; "40.0"; " 20"; "10.0";
     " 10"; "40.0"; " 20"; "30.0"] ++ fileEnd)%list.

(** One polyline on the layer [scrap]. *)
Definition scrapOnly : string :=
  JS.join_lf (sectionStart ++
    ["  0"; "LWPOLYLINE"; "  8"; "scrap"; " 90"; "2";
     " 10"; "0.0"; " 20"; "0.0"; " 10"; "100.0"; " 20"; "0.0"] ++ fileEnd)%list.

(** An octagon on layer [0]: the declared vertex count is 8. *)
Definition octagon : string :=
  JS.join_lf (sectionStart ++
    ["  0"; "LWPOLYLINE"; "  8"; "0"; " 90"; "8";
     " 10"; "30.0"; " 20"; "0.0"; " 10"; "70.0"; " 20"; "0.0";
     " 10"; "100.0"; " 20"; "30.0"; " 10"; "100.0"; " 20"; "70.0";
     " 10"; "70.0"; " 20"; "100.0"; " 10"; "30.0"; " 20"; "100.0";
     " 10"; "0.0"; " 20"; "70.0"; " 10"; "0.0"; " 20"; "30.0"] ++ fileEnd)%list.

(** A polyline on layer [0] followed by a [LINE] on the layer [marks]. *)
Definition polylineThenLine : string :=
  JS.join_lf (sectionStart ++
    ["  0"; "LWPOLYLINE"; "  8"; "0"; " 90"; "2";
     " 10"; "0.0"; " 20"; "0.0"; " 10"; "100.0"; " 20"; "0.0";
     "  0"; "LINE"; "  8"; "marks";
     " 10"; "1.0"; " 20"; "2.0"; " 11"; "3.0"; " 21"; "4.0"] ++ fileEnd)%list.

(** A polyline on layer [0] followed by a [LINE] on layer [0]. *)
Definition polylineThenLineSameLayer : string :=
  JS.join_lf (sectionStart ++
    ["  0"; "LWPOLYLINE"; "  8"; "0"; " 90"; "2";
     " 10"; "0.0"; " 20"; "0.0"; " 10"; "100.0"; " 20"; "0.0";
     "  0"; "LINE"; "  8"; "0";
     " 10"; "1.0"; " 20"; "2.0"; " 11"; "3.0"; " 21"; "4.0"] ++ fileEnd)%list.

(** A polyline on the layer [scrap] followed by a [CIRCLE] on layer [0]. *)
Definition scrapThenCircle : string :=
  JS.join_lf (sectionStart ++
    ["  0"; "LWPOLYLINE"; "  8"; "scrap"; " 90"; "2";
     " 10"; "0.0"; " 20"; "0.0"; " 10"; "100.0"; " 20"; "0.0";
     "  0"; "CIRCLE"; "  8"; "0"; " 40"; "2.5"] ++ fileEnd)%list.

(** A polyline with no layer followed by a [POINT] on layer [0]. *)
Definition noLayerThenPoint : string :=
  JS.join_lf (sectionStart ++
    ["  0"; "LWPOLYLINE"; " 90"; "2";
     " 10"; "0.0"; " 20"; "0.0"; " 10"; "100.0"; " 20"; "0.0";
     "  0"; "POINT"; "  8"; "0"] ++ fileEnd)%list.

(** A polyline whose first X value is not a number. *)
Definition badX : string :=
  JS.join_lf (sectionStart ++
    ["  0"; "LWPOLYLINE"; "  8"; "0"; " 90"; "2";
     " 10"; "abc"; " 20"; "0.0"; " 10"; "100.0"; " 20"; "50.0"] ++ fileEnd)%list.

(** A polyline whose declared count and first Y value are not numbers. *)
Definition badCountAndY : string :=
  JS.join_lf (sectionStart ++
    ["  0"; "LWPOLYLINE"; "  8"; "details"; " 90"; "two";
     " 10"; "1.0"; " 20"; "?"; " 10"; "100.0"; " 20"; "50.0"] ++ fileEnd)%list.

(** An empty [ENTITIES] section, then a polyline in a later section. *)
Definition polylineAfterSection : string :=
  JS.join_lf (sectionStart ++
    ["  0"; "ENDSEC"; "  0"; "SECTION"; "  2"; "OBJECTS";
     "  0"; "LWPOLYLINE"; "  8"; "0"; " 90"; "2";
     " 10"; "0.0"; " 20"; "0.0"; " 10"; "100.0"; " 20"; "0.0"] ++ fileEnd)%list.

(** A [20] with no [10] before it, between two complete vertices. *)
Definition strayY : string :=
  JS.join_lf (sectionStart ++
    ["  0"; "LWPOLYLINE"; "  8"; "0"; " 90"; "2";
     " 10"; "0.0"; " 20"; "0.0"; " 20"; "7.0";
     " 10"; "100.0"; " 20"; "50.0"] ++ fileEnd)%list.

(** A state of the scan inside a polyline on layer [0], with a pending X. *)
Definition pendingX : Scan.state :=
  {| Scan.entities := [];
     Scan.currentEntity :=
       Some {| type := "LWPOLYLINE";
               data := {| layer := Some "0"; vertexCount := None |};
               vertices := [] |};
     Scan.inEntity := true;
     Scan.inEntitiesSection := true;
     Scan.currentLayer := Some "0";
     Scan.vertexCount := 0;
     Scan.vertices := [ {| x := 1; y := 2 |} ];
     Scan.expectingY := true;
     Scan.lastX := Some 3%float |}.

(** The same state with no pending X. *)
Definition noPendingX : Scan.state :=
  {| Scan.entities := [];
     Scan.currentEntity :=
       Some {| type := "LWPOLYLINE";
               data := {| layer := Some "0"; vertexCount := None |};
               vertices := [] |};
     Scan.inEntity := true;
     Scan.inEntitiesSection := true;
     Scan.currentLayer := Some "0";
     Scan.vertexCount := 0;
     Scan.vertices := [ {| x := 1; y := 2 |} ];
     Scan.expectingY := false;
     Scan.lastX := None |}.

(** The entities of [sheetAndPart], an entity with one vertex and an entity
    with none. *)
Definition sheet : entity :=
  {| type := "LWPOLYLINE";
     data := {| layer := Some "0"; vertexCount := Some 4%float |};
     vertices := [ {| x := 0; y := 0 |}; {| x := 100; y := 0 |};
                   {| x := 100; y := 50 |}; {| x := 0; y := 50 |} ] |}.

Definition part : entity :=
  {| type := "LWPOLYLINE";
     data := {| layer := Some "details"; vertexCount := Some 3%float |};
     vertices := [ {| x := 10; y := 10 |}; {| x := 40; y := 10 |};
                   {| x := 40; y := 30 |} ] |}.

Definition onePoint : entity :=
  {| type := "LWPOLYLINE";
     data := {| layer := Some "details"; vertexCount := Some 1%float |};
     vertices := [ {| x := 5; y := 5 |} ] |}.

Definition noVertex : entity :=
  {| type := "LWPOLYLINE";
     data := {| layer := Some "0"; vertexCount := Some 0%float |};
     vertices := [] |}.

(** A vertical segment: its first extent is zero. *)
Definition verticalSegment : entity :=
  {| type := "LWPOLYLINE";
     data := {| layer := Some "0"; vertexCount := Some 2%float |};
     vertices := [ {| x := 5; y := 5 |}; {| x := 5; y := 10 |} ] |}.

(** The polylines of [sheetAndPart] and of [scrapOnly] as texts. *)
Definition threePolylines : list polylineText :=
  [ {| layerText := "0"; countText := "4";
       coordTexts := [("0.0", "0.0"); ("100.0", "0.0");
                      ("100.0", "50.0"); ("0.0", "50.0")] |};
    {| layerText := "scrap"; countText := "2";
       coordTexts := [("0.0", "0.0"); ("100.0", "0.0")] |};
    {| layerText := "details"; countText := "3";
       coordTexts := [("10.0", "10.0"); ("40.0", "10.0");
                      ("40.0", "30.0")] |} ].

(** A drawing with a polyline in its [BLOCKS] section and no [ENTITIES]
    section. *)
Definition blocksOnly : list string :=
  ["  0"; "SECTION"; "  2"; "BLOCKS";
   "  0"; "LWPOLYLINE"; "  8"; "0"; " 90"; "2";
   " 10"; "0.0"; " 20"; "0.0"; " 10"; "100.0"; " 20"; "0.0";
   "  0"; "ENDSEC"; "  0"; "EOF"].

End Sample.

(** ** Vocabulary of the statements *)

(** The lines the loop reacts to, and the one entity type it knows. *)
Definition scannedWords : list string :=
  ["LWPOLYLINE"; "0"; "2"; "8"; "90"; "10"; "20"].

(** The number of places of [s] at which [p] starts. *)
Fixpoint countOcc (p s : string) : nat :=
  match s with
  | EmptyString => 0
  | String _ s' => (if prefix p s then 1 else 0) + countOcc p s'
  end.

(** The number of path elements and of group elements of a markup. *)
Definition pathCount (svg : string) : nat := countOcc "<path" svg.
Definition groupCount (svg : string) : nat := countOcc "<g " svg.

(** [s] has no character [c]. *)
Fixpoint lacks (c : ascii) (s : string) : bool :=
  match s with
  | EmptyString => true
  | String a s' => negb (a =? c)%char && lacks c s'
  end.

(** The characters of the text of a Number. *)
Definition numericChar (c : ascii) : bool :=
  existsb (fun a => (a =? c)%char)
    (list_ascii_of_string "0123456789.-+eNaInfity").

Fixpoint allNumeric (s : string) : bool :=
  match s with
  | EmptyString => true
  | String a s' => numericChar a && allNumeric s'
  end.

(** The entities that get a path element. *)
Definition drawable (e : entity) : bool :=
  (type e =? "LWPOLYLINE") && (1 <=? List.length (vertices e))%nat.

(** Every character the path elements are written with, the texts of
    Numbers apart. *)
Definition pathLetters : string :=
  "path d= ML fill=none stroke=#2E86AB#A23B72black stroke-width=1.5/>" ++ dq.

(** What follows the [<] of a path element. *)
Definition pathTail (e : entity) (v : point) (vs : list point) : string :=
  "path d=" ++ dq ++ pathData v vs ++ dq
    ++ " fill=" ++ dq ++ "none" ++ dq
    ++ " stroke=" ++ dq ++ strokeColor e ++ dq
    ++ " stroke-width=" ++ dq ++ strokeWidth e ++ dq ++ "/>".

(** The state after the lines of the polyline [p], scanned from [st]. *)
Definition afterPolyline (st : Scan.state) (p : polylineText) : Scan.state :=
  {| Scan.entities := pushCurrent st;
     Scan.currentEntity :=
       Some {| type := "LWPOLYLINE";
               data := {| layer := Some (JS.trim (layerText p));
                          vertexCount := Some (JS.parseInt (countText p)) |};
               vertices := [] |};
     Scan.inEntity := true;
     Scan.inEntitiesSection := true;
     Scan.currentLayer := Some (JS.trim (layerText p));
     Scan.vertexCount := JS.parseInt (countText p);
     Scan.vertices := map vertexOf (coordTexts p);
     Scan.expectingY := false;
     Scan.lastX := None |}.

(** Whether a line [2] followed by [ENTITIES] stands somewhere in the
    lines. *)
Fixpoint hasEntitiesMarker (lines : list string) : bool :=
  match lines with
  | raw :: rest =>
      ((JS.trim raw =? "2") && nextIs (hd_error rest) "ENTITIES")
      || hasEntitiesMarker rest
  | [] => false
  end.

(** No coordinate is NaN. *)
Definition numeric (v : point) : Prop :=
  is_nan (x v) = false /\ is_nan (y v) = false.

(** The bounds [b] hold the vertex [v]. *)
Definition holds (b : bounds) (v : point) : Prop :=
  (minX b <=? x v)%float = true /\ (x v <=? maxX b)%float = true
  /\ (minY b <=? y v)%float = true /\ (y v <=? maxY b)%float = true.

(** Bounds none of which is NaN. *)
Definition numericBounds (b : bounds) : Prop :=
  is_nan (minX b) = false /\ is_nan (minY b) = false
  /\ is_nan (maxX b) = false /\ is_nan (maxY b) = false.

(** The range of the zoom factor: from 0.1 to 5. *)
Definition inRange (zoom : float) : bool :=
  (lit_0_1 <=? zoom)%float && (zoom <=? 5)%float.

(** What changes the zoom factor: the two buttons, a tick of the wheel with
    its [deltaY], and the reset button. *)
Inductive zoomAction :=
| ZoomIn
| ZoomOut
| Wheel (deltaY : float)
| ResetZoom.

(** The updater each action passes to [setZoom]. *)
Definition applyZoom (zoom : float) (a : zoomAction) : float :=
  match a with
  | ZoomIn => handleZoomIn zoom
  | ZoomOut => handleZoomOut zoom
  | Wheel deltaY => handleWheel deltaY zoom
  | ResetZoom => handleResetZoom zoom
  end.

(** The zoom factor after a sequence of actions on a fresh viewer. *)
Definition zoomAfter (actions : list zoomAction) : float :=
  fold_left applyZoom actions initialZoom.

(** ** Further inputs *)

Module Inputs.

(** The carriage return that ends a line of a file written with CR LF. *)
Definition cr : string := String "013" EmptyString.

(** A polyline on the layer [details] with one vertex. *)
Definition onePolyline : list string :=
  ["2"; "ENTITIES"; "0"; "LWPOLYLINE"; "8"; "details";
   "10"; "1.5"; "20"; "2"].

(** The same lines indented and ended by a carriage return. *)
Definition onePolylineCrLf : list string :=
  map (fun l => "  " ++ l ++ cr) onePolyline.

(** A header section, which holds a line [0] followed by [LWPOLYLINE] but
    no [ENTITIES] marker. *)
Definition header : list string :=
  ["0"; "SECTION"; "2"; "HEADER"; "9"; "$ACADVER"; "1"; "AC1015";
   "0"; "LWPOLYLINE"; "8"; "0"; "10"; "7"; "20"; "7"; "0"; "ENDSEC"].

(** The lines of the sheet up to the marker of the part, and the lines of
    the part after its marker. *)
Definition sheetLines : list string :=
  ["0"; "SECTION"; "2"; "ENTITIES";
   "0"; "LWPOLYLINE"; "8"; "0"; "90"; "4";
   "10"; "0.0"; "20"; "0.0"; "10"; "100.0"; "20"; "0.0";
   "10"; "100.0"; "20"; "50.0"; "10"; "0.0"; "20"; "50.0"].

Definition partLines : list string :=
  ["8"; "details"; "90"; "3";
   "10"; "10.0"; "20"; "10.0"; "10"; "40.0"; "20"; "10.0";
   "10"; "40.0"; "20"; "30.0"; "0"; "ENDSEC"; "0"; "EOF"].

(** A polyline that declares 10 vertices and holds a [20] with its value
    but no [10]. *)
Definition yTagWithNoXTag : string :=
  JS.join_lf (Sample.sectionStart ++
    ["  0"; "LWPOLYLINE"; "  8"; "0"; " 90"; "10"; " 20"; "5.0"]
    ++ Sample.fileEnd)%list.

(** A polyline with the one vertex (20, 5). *)
Definition xValue20 : string :=
  JS.join_lf (Sample.sectionStart ++
    ["  0"; "LWPOLYLINE"; "  8"; "0"; " 90"; "1"; " 10"; "20"; " 20"; "5"]
    ++ Sample.fileEnd)%list.

(** A square on layer [0] with the corners (0, 0), (20, 0), (20, 20) and
    (0, 20). *)
Definition square20 : string :=
  JS.join_lf (Sample.sectionStart ++
    ["  0"; "LWPOLYLINE"; "  8"; "0"; " 90"; "4";
     " 10"; "0.0"; " 20"; "0.0"; " 10"; "20"; " 20"; "0.0";
     " 10"; "20"; " 20"; "20"; " 10"; "0.0"; " 20"; "20"]
    ++ Sample.fileEnd)%list.

End Inputs.

(** ** Further vocabulary *)

(** An entity of type [LWPOLYLINE] on one of the three layers. *)
Definition allowedPolyline (e : entity) : bool :=
  (type e =? "LWPOLYLINE") && allowedLayer (layer (data e)).

(** The number of lines [0] followed by a line [LWPOLYLINE]. *)
Fixpoint polylineMarkers (lines : list string) : nat :=
  match lines with
  | raw :: rest =>
      let marker :=
        (JS.trim raw =? "0") && nextIs (hd_error rest) "LWPOLYLINE" in
      (if marker then 1 else 0) + polylineMarkers rest
  | [] => 0
  end.

(** The state [st] with the entities [es] pushed before its own. *)
Definition withEntities (es : list entity) (st : Scan.state) : Scan.state :=
  {| Scan.entities := es ++ Scan.entities st;
     Scan.currentEntity := Scan.currentEntity st;
     Scan.inEntity := Scan.inEntity st;
     Scan.inEntitiesSection := Scan.inEntitiesSection st;
     Scan.currentLayer := Scan.currentLayer st;
     Scan.vertexCount := Scan.vertexCount st;
     Scan.vertices := Scan.vertices st;
     Scan.expectingY := Scan.expectingY st;
     Scan.lastX := Scan.lastX st |}.

(** The variables right after the [ENTITIES] marker of a text that holds
    nothing before it. *)
Definition inSection : Scan.state :=
  {| Scan.entities := [];
     Scan.currentEntity := None;
     Scan.inEntity := false;
     Scan.inEntitiesSection := true;
     Scan.currentLayer := None;
     Scan.vertexCount := 0;
     Scan.vertices := [];
     Scan.expectingY := false;
     Scan.lastX := None |}.

(** What the scan keeps true of its state: the entities pushed are
    polylines on the three layers, and the entity being read is a polyline
    whose layer is [currentLayer]. *)
Definition pendingIsPolyline (st : Scan.state) : Prop :=
  match Scan.currentEntity st with
  | Some e => type e = "LWPOLYLINE" /\ layer (data e) = Scan.currentLayer st
  | None => True
  end.

Definition scanInv (st : Scan.state) : Prop :=
  forallb allowedPolyline (Scan.entities st) = true /\ pendingIsPolyline st.

(** One for the entity being read, if any. *)
Definition pendingCount (st : Scan.state) : nat :=
  match Scan.currentEntity st with Some _ => 1 | None => 0 end.

(** A text of white space only, and a line [l'] that is the line [l] with
    white space before and after it. *)
Fixpoint blank (s : string) : bool :=
  match s with
  | EmptyString => true
  | String c s' => JS.isWhiteSpace c && blank s'
  end.

Definition padded (l' l : string) : Prop :=
  exists before after,
    blank before = true /\ blank after = true /\ l' = before ++ l ++ after.

(** A text that is empty or starts with white space. *)
Definition inert (t : string) : bool :=
  match t with
  | EmptyString => true
  | String c _ => JS.isWhiteSpace c
  end.

(** Two lines in which the loop reads the same: as a group code or a name,
    as a coordinate and as a count. *)
Definition sameContent (l' l : string) : Prop :=
  JS.trim l' = JS.trim l /\ JS.parseFloat l' = JS.parseFloat l
  /\ JS.parseInt l' = JS.parseInt l.

Definition sameNext (next' next : option string) : Prop :=
  match next', next with
  | Some n', Some n => sameContent n' n
  | None, None => True
  | _, _ => False
  end.

(** The number of [<] of a markup, each the start of a tag. *)
Definition tagCount (svg : string) : nat := countOcc "<" svg.

(** An entity with at least one vertex. *)
Definition hasVertex (e : entity) : bool :=
  (1 <=? List.length (vertices e))%nat.

(** All vertices of the entities, in the order of the two loops. *)
Definition allVertices (es : list entity) : list point :=
  flat_map vertices es.

(** Each bound is a coordinate of one of the vertices [vs]. *)
Definition attained (b : bounds) (vs : list point) : Prop :=
  In (minX b) (map x vs) /\ In (maxX b) (map x vs)
  /\ In (minY b) (map y vs) /\ In (maxY b) (map y vs).

(** The Number of an integer, a pointer at integer coordinates, and the
    coordinates of a screen: integers below [2^50] in absolute value. *)
Definition integer (n : Z) : float :=
  SF2Prim (binary_normalize prec emax n 0 false).

Definition pointerAt (a b : Z) : mouseEvent :=
  {| clientX := integer a; clientY := integer b |}.

Definition pixel (n : Z) : Prop := (Z.abs n < 2 ^ 50)%Z.

(** A value line that starts, after white space and an optional sign, with
    no digit, no point and no [I]: no prefix of it is a number. *)
Definition startsNoNumber (n : string) : bool :=
  match snd (JS.readSign (JS.trimStart n)) with
  | EmptyString => true
  | String c _ =>
      match JS.digitValue c with
      | Some _ => false
      | None => negb ((c =? ".")%char || (c =? "I")%char)
      end
  end.

(** A Number as specified that is above zero: a positive Number or
    [Infinity]. *)
Definition SFpositive (s : spec_float) : bool :=
  match s with
  | S754_finite false _ _ | S754_infinity false => true
  | _ => false
  end.

(** A Number as specified that is not NaN and has no minus sign: [+0], a
    positive Number or [Infinity]. *)
Definition SFnotNegative (s : spec_float) : bool :=
  match s with
  | S754_zero false | S754_finite false _ _ | S754_infinity false => true
  | _ => false
  end.

(** The state after the mouse moves of [path], in order. *)
Definition moveAlong (path : list mouseEvent) (st : Viewer.state)
  : Viewer.state :=
  fold_left (fun st e => handleMouseMove e st) path st.

(** * Properties of the extractor *)

(** ** The steps of the scan *)

Section ScanSteps.

Variables (st : Scan.state) (raw : string) (next : option string).

(** Before the [ENTITIES] marker a line changes nothing, unless it is the
    marker. *)
Lemma step_outside_section :
  Scan.inEntitiesSection st = false ->
  (JS.trim raw =? "2") && nextIs next "ENTITIES" = false ->
  step st raw next = st.
Proof.
  intros Hsec Hmark. unfold step. now rewrite Hmark, Hsec.
Qed.

(** A line that is none of the group codes the loop tests changes nothing. *)
Lemma step_other_line :
  JS.trim raw <> "2" -> JS.trim raw <> "0" -> JS.trim raw <> "8" ->
  JS.trim raw <> "90" -> JS.trim raw <> "10" -> JS.trim raw <> "20" ->
  step st raw next = st.
Proof.
  intros H2 H0 H8 H90 H10 H20. unfold step, startEntity, groupCode.
  apply String.eqb_neq in H2, H0, H8, H90, H10, H20.
  rewrite H2, H0, H8, H90, H10, H20. simpl.
  destruct (Scan.inEntitiesSection st); simpl; [ | reflexivity ].
  now destruct (Scan.inEntity st), (Scan.currentEntity st), next.
Qed.

(** A [0] line followed by anything but [LWPOLYLINE], the marker of any
    other entity type or of the end of a section, changes nothing. *)
Lemma step_other_marker :
  JS.trim raw = "0" -> nextIs next "LWPOLYLINE" = false ->
  step st raw next = st.
Proof.
  intros H0 Hn. unfold step, startEntity, groupCode. rewrite H0, Hn. simpl.
  destruct (Scan.inEntitiesSection st); simpl; [ | reflexivity ].
  now destruct (Scan.inEntity st), (Scan.currentEntity st), next.
Qed.

(** The section flag is never cleared. *)
Lemma step_keeps_section :
  Scan.inEntitiesSection st = true ->
  Scan.inEntitiesSection (step st raw next) = true.
Proof.
  intros Hsec. unfold step, startEntity, groupCode. rewrite Hsec. simpl.
  destruct ((JS.trim raw =? "2") && nextIs next "ENTITIES"); [ reflexivity | ].
  destruct ((JS.trim raw =? "0") && nextIs next "LWPOLYLINE"); simpl.
  - destruct next; simpl; [ | reflexivity ].
    repeat (destruct (JS.trim raw =? _); simpl; try reflexivity).
  - destruct (Scan.inEntity st), (Scan.currentEntity st), next; try assumption.
    repeat (destruct (JS.trim raw =? _); simpl; try assumption).
    destruct (Scan.expectingY st), (Scan.lastX st); assumption.
Qed.

(** Once an entity has started, [inEntity] and [currentEntity] stay set. *)
Lemma step_keeps_entity :
  Scan.inEntity st = true -> Scan.currentEntity st <> None ->
  Scan.inEntity (step st raw next) = true
  /\ Scan.currentEntity (step st raw next) <> None.
Proof.
  intros Hin Hcur. unfold step, startEntity, groupCode.
  destruct ((JS.trim raw =? "2") && nextIs next "ENTITIES");
    [ now split | ].
  destruct (Scan.inEntitiesSection st); simpl; [ | now split ].
  destruct ((JS.trim raw =? "0") && nextIs next "LWPOLYLINE"); simpl.
  - destruct next; simpl; [ | now split ].
    repeat (destruct (JS.trim raw =? _); simpl; try now split).
  - rewrite Hin.
    destruct (Scan.currentEntity st) as [e | ] eqn:Ecur; [ | easy ].
    destruct next; [ | split; congruence ].
    repeat (destruct (JS.trim raw =? _); simpl; try (split; congruence)).
    destruct (Scan.expectingY st), (Scan.lastX st); simpl; split; congruence.
Qed.

End ScanSteps.

(** The scan keeps the section flag. *)
Lemma scan_keeps_section (lines : list string) :
  forall st, Scan.inEntitiesSection st = true ->
  Scan.inEntitiesSection (scan st lines) = true.
Proof.
  induction lines as [ | raw rest IH ]; intros st Hsec; simpl.
  - exact Hsec.
  - apply IH. now apply step_keeps_section.
Qed.

(** The scan keeps a started entity. *)
Lemma scan_keeps_entity (lines : list string) :
  forall st, Scan.inEntity st = true -> Scan.currentEntity st <> None ->
  Scan.inEntity (scan st lines) = true
  /\ Scan.currentEntity (scan st lines) <> None.
Proof.
  induction lines as [ | raw rest IH ]; intros st Hin Hcur; simpl.
  - now split.
  - destruct (step_keeps_entity st raw (hd_error rest) Hin Hcur)
      as [Hin' Hcur'].
    now apply IH.
Qed.

(** The entities pushed so far are never removed or changed by a step. *)
Lemma step_extends_entities (st : Scan.state) (raw : string)
  (next : option string) :
  exists more,
    Scan.entities (step st raw next) = (Scan.entities st ++ more)%list.
Proof.
  unfold step, startEntity, groupCode, pushCurrent.
  destruct ((JS.trim raw =? "2") && nextIs next "ENTITIES");
    [ exists []; simpl; now rewrite app_nil_r | ].
  destruct (Scan.inEntitiesSection st); simpl;
    [ | exists []; now rewrite app_nil_r ].
  destruct ((JS.trim raw =? "0") && nextIs next "LWPOLYLINE"); simpl.
  - destruct (Scan.currentEntity st) as [e | ];
      [ destruct (allowedLayer (Scan.currentLayer st)) | ];
      (destruct next;
       [ repeat (destruct (JS.trim raw =? _); simpl;
                 try (eexists; reflexivity);
                 try (exists []; now rewrite app_nil_r))
       | simpl; try (eexists; reflexivity);
         try (exists []; now rewrite app_nil_r) ]).
  - destruct (Scan.inEntity st), (Scan.currentEntity st), next;
      try (exists []; now rewrite app_nil_r).
    repeat (destruct (JS.trim raw =? _); simpl;
            try (exists []; now rewrite app_nil_r)).
    destruct (Scan.expectingY st), (Scan.lastX st); simpl;
      exists []; now rewrite app_nil_r.
Qed.

(** A pending X is only ever set by a group code 10. *)
Lemma pending_x_only_from_10 (st : Scan.state) (raw : string)
  (next : option string) (px : float) :
  Scan.lastX (step st raw next) = Some px ->
  Scan.lastX st = Some px
  \/ (JS.trim raw = "10" /\ exists n, next = Some n /\ px = JS.parseFloat n).
Proof.
  unfold step, startEntity, groupCode.
  destruct ((JS.trim raw =? "2") && nextIs next "ENTITIES"); [ now left | ].
  destruct (Scan.inEntitiesSection st); simpl; [ | now left ].
  destruct (JS.trim raw =? "0") eqn:E0; simpl.
  - apply String.eqb_eq in E0. rewrite E0. simpl.
    destruct (nextIs next "LWPOLYLINE"); simpl.
    + destruct next; simpl; discriminate.
    + destruct (Scan.inEntity st), (Scan.currentEntity st), next; now left.
  - destruct (Scan.inEntity st), (Scan.currentEntity st), next; try now left.
    destruct (JS.trim raw =? "8"); [ now left | ].
    destruct (JS.trim raw =? "90"); [ now left | ].
    destruct (JS.trim raw =? "10") eqn:E10.
    + apply String.eqb_eq in E10. simpl. intros [= <-]. right. eauto.
    + destruct (JS.trim raw =? "20"); simpl; [ | now left ].
      destruct (Scan.expectingY st), (Scan.lastX st) eqn:EX; simpl;
        intros H; first [ discriminate H | left; congruence ].
Qed.

(** ** Group code 20 *)

(** The step on a line [20]. *)
Lemma step_group20 (st : Scan.state) (raw : string) (next : option string) :
  JS.trim raw = "20" ->
  step st raw next =
    match Scan.inEntitiesSection st, Scan.inEntity st, Scan.currentEntity st,
          next, Scan.expectingY st, Scan.lastX st with
    | true, true, Some _, Some n, true, Some px =>
        {| Scan.entities := Scan.entities st;
           Scan.currentEntity := Scan.currentEntity st;
           Scan.inEntity := true;
           Scan.inEntitiesSection := true;
           Scan.currentLayer := Scan.currentLayer st;
           Scan.vertexCount := Scan.vertexCount st;
           Scan.vertices :=
             Scan.vertices st ++ [ {| x := px; y := JS.parseFloat n |} ];
           Scan.expectingY := false;
           Scan.lastX := None |}
    | _, _, _, _, _, _ => st
    end.
Proof.
  intros H20. unfold step, startEntity, groupCode. rewrite H20. simpl.
  destruct (Scan.inEntitiesSection st) eqn:Esec; simpl; [ | reflexivity ].
  destruct (Scan.inEntity st) eqn:Ein; [ | reflexivity ].
  destruct (Scan.currentEntity st) as [e | ] eqn:Ecur; [ | reflexivity ].
  destruct next as [n | ]; [ | reflexivity ].
  destruct (Scan.expectingY st) eqn:Eexp; [ | reflexivity ].
  destruct (Scan.lastX st) as [px | ] eqn:EX; reflexivity.
Qed.

(** One iteration on a line that reads [20], be it a group code of the
    file or the value of another group code. (1) A line whose trimmed text
    is [20] is consumed as a Y coordinate
    only when the scan is in the section, inside an entity, a value line
    follows and a pending X is held ([expectingY] set, [lastX] not null):
    the point of the pending X and the parsed value is then appended to the
    vertex list and the pending X is cleared, every other variable staying
    as it was; in every other case the line changes nothing, so no vertex is
    added. (2) A pending X that a step leaves was held before the step or is
    the line that follows a line reading [10]. (3) In a polyline with a
    [20] between two complete vertices, whose values read none of 10 and 20,
    the extra Y adds no vertex. *)
Theorem group20_needs_pending_x :
  (forall st raw next,
      JS.trim raw = "20" ->
      step st raw next =
        match Scan.inEntitiesSection st, Scan.inEntity st,
              Scan.currentEntity st, next, Scan.expectingY st,
              Scan.lastX st with
        | true, true, Some _, Some n, true, Some px =>
            {| Scan.entities := Scan.entities st;
               Scan.currentEntity := Scan.currentEntity st;
               Scan.inEntity := true;
               Scan.inEntitiesSection := true;
               Scan.currentLayer := Scan.currentLayer st;
               Scan.vertexCount := Scan.vertexCount st;
               Scan.vertices :=
                 Scan.vertices st ++ [ {| x := px; y := JS.parseFloat n |} ];
               Scan.expectingY := false;
               Scan.lastX := None |}
        | _, _, _, _, _, _ => st
        end)
  /\ (forall st raw next px,
        Scan.lastX (step st raw next) = Some px ->
        Scan.lastX st = Some px
        \/ (JS.trim raw = "10"
            /\ exists n, next = Some n /\ px = JS.parseFloat n))
  /\ parseDxfContent Sample.strayY
     = [ {| type := "LWPOLYLINE";
            data := {| layer := Some "0"; vertexCount := Some 2%float |};
            vertices := [ {| x := 0; y := 0 |}; {| x := 100; y := 50 |} ] |} ].
Proof.
  split; [ exact step_group20 | ].
  split; [ exact pending_x_only_from_10 | ].
  vm_compute. reflexivity.
Qed.

(** With the pending X 3 the line [ 20] followed by [5.0] appends (3, 5);
    with no pending X it changes nothing. *)
Lemma group20_needs_pending_x_witness :
  Scan.vertices (step Sample.pendingX " 20" (Some "5.0"))
    = [ {| x := 1; y := 2 |}; {| x := 3; y := 5 |} ]
  /\ step Sample.noPendingX " 20" (Some "5.0") = Sample.noPendingX.
Proof.
  split.
  - rewrite (proj1 group20_needs_pending_x Sample.pendingX " 20"
               (Some "5.0") eq_refl).
    vm_compute. reflexivity.
  - exact (proj1 group20_needs_pending_x Sample.noPendingX " 20"
             (Some "5.0") eq_refl).
Defined.

(** C4 fails on the code. The loop tests every line as a group code and
    never steps over a value line, so a value that reads [10] or [20] is
    taken for a group code. In the square with the corners (0, 0), (20, 0),
    (20, 20) and (0, 20), the X value [20] of the second corner is read as a
    group code 20 and consumed with the line after it, the tag [20], as its
    Y: the vertex is (20, 20), and the tag [20] with the Y [0.0] finds no
    pending X and is dropped. The polyline with the one vertex (20, 5) is
    returned with the vertex (20, 20). In the polyline that declares 10
    vertices and holds a [20] with no [10], the count [10] is read as a
    group code 10, the tag [20] after it becomes the pending X, and the tag
    [20] appends the vertex (20, 5): a vertex from a [20] with no [10]. *)
Theorem y_is_paired_with_a_value_line :
  parseDxfContent Inputs.square20
  = [ {| type := "LWPOLYLINE";
         data := {| layer := Some "0"; vertexCount := Some 4%float |};
         vertices := [ {| x := 0; y := 0 |}; {| x := 20; y := 20 |};
                       {| x := 20; y := 20 |}; {| x := 0; y := 20 |} ] |} ]
  /\ parseDxfContent Inputs.xValue20
     = [ {| type := "LWPOLYLINE";
            data := {| layer := Some "0"; vertexCount := Some 1%float |};
            vertices := [ {| x := 20; y := 20 |} ] |} ]
  /\ parseDxfContent Inputs.yTagWithNoXTag
     = [ {| type := "LWPOLYLINE";
            data := {| layer := Some "0"; vertexCount := Some 10%float |};
            vertices := [ {| x := 20; y := 5 |} ] |} ].
Proof. repeat split; vm_compute; reflexivity. Qed.

(** ** Other entity types and the pending polyline *)

(** A marker pair [0] / [type] of another entity type is invisible to the
    scan. *)
Lemma scan_skips_other_marker (st : Scan.state) (raw0 rawT : string)
  (rest : list string) :
  JS.trim raw0 = "0" -> ~ In (JS.trim rawT) scannedWords ->
  scan st (raw0 :: rawT :: rest) = scan st rest.
Proof.
  intros H0 HT. simpl.
  rewrite (step_other_marker st raw0 (Some rawT) H0).
  - rewrite step_other_line; [ reflexivity | .. ];
      intros E; apply HT; rewrite E; simpl; tauto.
  - unfold nextIs. apply String.eqb_neq. intros E. apply HT. rewrite E.
    simpl. tauto.
Qed.

(** Inside an entity a group code 8 sets the layer that the test at
    emission reads. *)
Lemma group8_sets_layer (st : Scan.state) (raw n : string) :
  JS.trim raw = "8" -> Scan.inEntitiesSection st = true ->
  Scan.inEntity st = true -> Scan.currentEntity st <> None ->
  Scan.currentLayer (step st raw (Some n)) = Some (JS.trim n).
Proof.
  intros H8 Hsec Hin Hcur. unfold step, startEntity, groupCode.
  rewrite H8, Hsec. simpl. rewrite Hin.
  destruct (Scan.currentEntity st); [ reflexivity | contradiction ].
Qed.

(** C9. Once a polyline has started, (1) no line clears [inEntity] or
    [currentEntity]; (2) the marker of an entity of another type changes
    nothing, so the scan of the lines after it goes on from the state of the
    pending polyline; (3) a group code 8 then sets the layer read at
    emission, whatever entity it belongs to. So (4) the 10/20 pair of a
    [LINE] after a polyline is added to the polyline as a third vertex, and
    (5) a polyline on the layer [scrap] followed by a [CIRCLE] on layer [0]
    is emitted, with layer [0]. *)
Theorem other_entities_feed_pending_polyline :
  (forall st raw next,
      Scan.inEntity st = true -> Scan.currentEntity st <> None ->
      Scan.inEntity (step st raw next) = true
      /\ Scan.currentEntity (step st raw next) <> None)
  /\ (forall st raw0 rawT rest,
        JS.trim raw0 = "0" -> ~ In (JS.trim rawT) scannedWords ->
        scan st (raw0 :: rawT :: rest) = scan st rest)
  /\ (forall st raw n,
        JS.trim raw = "8" -> Scan.inEntitiesSection st = true ->
        Scan.inEntity st = true -> Scan.currentEntity st <> None ->
        Scan.currentLayer (step st raw (Some n)) = Some (JS.trim n))
  /\ parseDxfContent Sample.polylineThenLineSameLayer
     = [ {| type := "LWPOLYLINE";
            data := {| layer := Some "0"; vertexCount := Some 2%float |};
            vertices := [ {| x := 0; y := 0 |}; {| x := 100; y := 0 |};
                          {| x := 1; y := 2 |} ] |} ]
  /\ parseDxfContent Sample.scrapThenCircle
     = [ {| type := "LWPOLYLINE";
            data := {| layer := Some "0"; vertexCount := Some 2%float |};
            vertices := [ {| x := 0; y := 0 |}; {| x := 100; y := 0 |} ] |} ].
Proof.
  split; [ exact step_keeps_entity | ].
  split; [ exact scan_skips_other_marker | ].
  split; [ exact group8_sets_layer | ].
  split; vm_compute; reflexivity.
Qed.

(** The state [Sample.pendingX] stays inside its entity at a [LINE] marker,
    and the marker with the lines after it is scanned as those lines
    alone. *)
Lemma other_entities_feed_pending_polyline_witness :
  (Scan.inEntity (step Sample.pendingX "  0" (Some "LINE")) = true
   /\ Scan.currentEntity (step Sample.pendingX "  0" (Some "LINE")) <> None)
  /\ scan Sample.pendingX ["  0"; "LINE"; " 20"; "4.0"]
     = scan Sample.pendingX [" 20"; "4.0"]
  /\ Scan.currentLayer (step Sample.pendingX "  8" (Some "marks"))
     = Some "marks".
Proof.
  destruct other_entities_feed_pending_polyline as (Hkeep & Hskip & Hlayer & _).
  split; [ | split ].
  - apply Hkeep; [ reflexivity | discriminate ].
  - apply Hskip; [ reflexivity | ].
    vm_compute. intuition discriminate.
  - apply (Hlayer Sample.pendingX "  8" "marks"); try reflexivity.
    discriminate.
Defined.

(** ** The section flag *)

(** C10. (1) A line [2] followed by [ENTITIES] sets the section flag in
    every state, wherever it stands. (2) No line clears the flag, over one
    step and over any scan. (3) The end-of-section marker [0] / [ENDSEC]
    changes nothing at all. So (4) a polyline that follows the end of the
    [ENTITIES] section, inside a later section, is extracted. *)
Theorem section_flag_never_cleared :
  (forall st raw next,
      JS.trim raw = "2" -> nextIs next "ENTITIES" = true ->
      Scan.inEntitiesSection (step st raw next) = true)
  /\ (forall st lines,
        Scan.inEntitiesSection st = true ->
        Scan.inEntitiesSection (scan st lines) = true)
  /\ (forall st raw next,
        JS.trim raw = "0" -> nextIs next "ENDSEC" = true ->
        step st raw next = st)
  /\ parseDxfContent Sample.polylineAfterSection
     = [ {| type := "LWPOLYLINE";
            data := {| layer := Some "0"; vertexCount := Some 2%float |};
            vertices := [ {| x := 0; y := 0 |}; {| x := 100; y := 0 |} ] |} ].
Proof.
  split; [ | split; [ | split ] ].
  - intros st raw next H2 Hn. unfold step. now rewrite H2, Hn.
  - intros st lines. apply scan_keeps_section.
  - intros st raw next H0 Hn. apply step_other_marker; [ exact H0 | ].
    destruct next as [n | ]; [ | reflexivity ]. simpl in *.
    apply String.eqb_eq in Hn. now rewrite Hn.
  - vm_compute. reflexivity.
Qed.

(** The marker sets the flag of the initial state; the flag of
    [Sample.pendingX] survives the end of the section and the lines of the
    next one. *)
Lemma section_flag_never_cleared_witness :
  Scan.inEntitiesSection (step Scan.init "  2" (Some "ENTITIES")) = true
  /\ Scan.inEntitiesSection
       (scan Sample.pendingX
          ["  0"; "ENDSEC"; "  0"; "SECTION"; "  2"; "OBJECTS"])
     = true
  /\ step Sample.pendingX "  0" (Some "ENDSEC") = Sample.pendingX.
Proof.
  destruct section_flag_never_cleared as (Hset & Hkeep & Hend & _).
  split; [ | split ].
  - apply Hset; reflexivity.
  - apply Hkeep. reflexivity.
  - apply Hend; reflexivity.
Defined.

(** ** Value lines that are not numbers *)

(** A value line with no number at its start is read as NaN by both
    readers. *)
Lemma startsNoNumber_nan (n : string) :
  startsNoNumber n = true -> JS.parseFloat n = nan /\ JS.parseInt n = nan.
Proof.
  unfold startsNoNumber, JS.parseFloat, JS.parseInt.
  destruct (JS.readSign (JS.trimStart n)) as [neg s]. cbn [snd].
  destruct s as [ | c s ]; [ split; reflexivity | ].
  destruct (JS.digitValue c) eqn:Ed; [ discriminate | ].
  intros H. apply negb_true_iff, orb_false_iff in H as [Hp Hi].
  split.
  - assert (E : prefix "Infinity" (String c s) = false).
    { cbn [prefix]. destruct (ascii_dec "I" c) as [<- | _];
        [ discriminate Hi | reflexivity ]. }
    rewrite E. cbn [JS.readDigits]. rewrite Ed.
    destruct c as [[] [] [] [] [] [] [] []]; try discriminate Hp; reflexivity.
  - assert (E : match String c s with
                | String "0" (String c0 r) =>
                    if (c0 =? "x")%char || (c0 =? "X")%char
                    then JS.readDigits JS.hexDigitValue 16 0 0 r
                    else JS.readDigits JS.digitValue 10 0 0 (String c s)
                | _ => JS.readDigits JS.digitValue 10 0 0 (String c s)
                end = (0%Z, 0%Z, String c s)).
    { destruct c as [[] [] [] [] [] [] [] []]; try discriminate Ed;
        cbn [JS.readDigits]; rewrite ?Ed; reflexivity. }
    rewrite E. reflexivity.
Qed.

(** C3, as the code has it. In every state, on a line 90, 10 or 20 followed
    by a value line [n], whatever [n] holds: the entities pushed so far, the
    section and entity flags, the current layer and the presence of a
    current entity are as before the line, so no entity is skipped and
    nothing is counted. Inside an entity the value line goes to [parseInt]
    (90) or to [parseFloat] (10, 20) and what the reader returns is stored
    with no check: as the declared count of the current entity, as the
    pending X, or as the Y of the vertex appended to the pending X. The
    reader returns NaN when the line starts, after white space and an
    optional sign, with no digit, no point and no [I] ([abc], [?], [two]);
    when the line starts with a number, the reader returns that number and
    leaves the rest unread ([12abc] gives 12, [1,5] gives 1, [2x] gives the
    count 2). The result of [parseDxfContent] is the entity list alone, for
    every text. *)
Theorem bad_number_is_stored_as_read (st : Scan.state) (raw n : string) :
  In (JS.trim raw) ["90"; "10"; "20"] ->
  let st' := step st raw (Some n) in
  (Scan.entities st' = Scan.entities st
   /\ Scan.inEntitiesSection st' = Scan.inEntitiesSection st
   /\ Scan.inEntity st' = Scan.inEntity st
   /\ Scan.currentLayer st' = Scan.currentLayer st
   /\ (Scan.currentEntity st' = None <-> Scan.currentEntity st = None))
  /\ (forall e,
        Scan.inEntitiesSection st = true -> Scan.inEntity st = true ->
        Scan.currentEntity st = Some e ->
        (JS.trim raw = "90" ->
           Scan.currentEntity st' = Some (setVertexCount (JS.parseInt n) e)
           /\ Scan.vertexCount st' = JS.parseInt n)
        /\ (JS.trim raw = "10" ->
              Scan.lastX st' = Some (JS.parseFloat n)
              /\ Scan.expectingY st' = true)
        /\ (JS.trim raw = "20" -> forall px,
              Scan.expectingY st = true -> Scan.lastX st = Some px ->
              Scan.vertices st'
              = (Scan.vertices st
                   ++ [ {| x := px; y := JS.parseFloat n |} ])%list))
  /\ (startsNoNumber n = true ->
      JS.parseFloat n = nan /\ JS.parseInt n = nan)
  /\ (JS.parseFloat "abc" = nan /\ JS.parseFloat "?" = nan
      /\ JS.parseInt "two" = nan
      /\ JS.parseFloat "12abc" = 12%float /\ JS.parseFloat "1,5" = 1%float
      /\ JS.parseInt "2x" = 2%float).
Proof.
  intros Hcode st'. subst st'.
  split; [ | split; [ | split;
    [ apply startsNoNumber_nan | repeat split; vm_compute; reflexivity ] ] ];
  unfold step, startEntity, groupCode; simpl in Hcode;
  destruct Hcode as [E | [E | [E | []]]]; rewrite <- E; simpl;
    (destruct (Scan.inEntitiesSection st) eqn:Esec; simpl;
     [ | first [ tauto | intros; discriminate ] ]);
    (destruct (Scan.inEntity st) eqn:Ein; simpl;
     [ | first [ tauto | intros; discriminate ] ]);
    (destruct (Scan.currentEntity st) as [e0 | ] eqn:Ecur; simpl;
     [ | first [ tauto | intros; discriminate ] ]);
    try (destruct (Scan.expectingY st) eqn:Eexp;
         [ destruct (Scan.lastX st) as [px0 | ] eqn:EX | ]; simpl);
    first [ solve [ repeat split; try reflexivity; intros; congruence ]
          | intros e _ _ [= <-]; repeat split; try discriminate; congruence ].
Qed.

(** On [Sample.pendingX] the line [ 10] followed by [abc] leaves the entity
    in place and makes NaN the pending X; followed by [12abc] it makes 12
    the pending X. *)
Lemma bad_number_is_stored_as_read_witness :
  Scan.entities (step Sample.pendingX " 10" (Some "abc")) = []
  /\ Scan.currentEntity (step Sample.pendingX " 10" (Some "abc")) <> None
  /\ Scan.lastX (step Sample.pendingX " 10" (Some "abc")) = Some nan
  /\ Scan.lastX (step Sample.pendingX " 10" (Some "12abc")) = Some 12%float.
Proof.
  destruct (bad_number_is_stored_as_read Sample.pendingX " 10" "abc"
              (or_intror (or_introl eq_refl)))
    as ((Hent & _ & _ & _ & Hcur) & Hread & Hnan & _).
  destruct (bad_number_is_stored_as_read Sample.pendingX " 10" "12abc"
              (or_intror (or_introl eq_refl)))
    as (_ & Hread' & _ & (_ & _ & _ & H12 & _)).
  split; [ exact Hent | split; [ | split ] ].
  - intros Hnone. apply Hcur in Hnone. discriminate Hnone.
  - destruct (Hread _ eq_refl eq_refl eq_refl) as (_ & H10 & _).
    destruct (H10 eq_refl) as [-> _]. now rewrite (proj1 (Hnan eq_refl)).
  - destruct (Hread' _ eq_refl eq_refl eq_refl) as (_ & H10 & _).
    destruct (H10 eq_refl) as [-> _]. now rewrite H12.
Defined.

(** C3 fails on the code: the polyline whose first X value is [abc] is
    returned, with NaN as that X, and the result carries no count. *)
Lemma bad_number_entity_is_returned :
  parseDxfContent Sample.badX
  = [ {| type := "LWPOLYLINE";
         data := {| layer := Some "0"; vertexCount := Some 2%float |};
         vertices := [ {| x := nan; y := 0 |}; {| x := 100; y := 50 |} ] |} ].
Proof. vm_compute. reflexivity. Qed.

(** The same for a declared count and a Y value that are not numbers. *)
Lemma bad_count_and_y_are_stored :
  parseDxfContent Sample.badCountAndY
  = [ {| type := "LWPOLYLINE";
         data := {| layer := Some "details"; vertexCount := Some nan |};
         vertices := [ {| x := 1; y := nan |}; {| x := 100; y := 50 |} ] |} ].
Proof. vm_compute. reflexivity. Qed.

(** ** Entities on the allowed layers *)

(** The drawing of the sheet and the part is extracted as the two polylines,
    in order, and the polyline on the layer [scrap] is dropped. *)
Lemma sheet_and_part_extracted :
  parseDxfContent Sample.sheetAndPart
  = [ {| type := "LWPOLYLINE";
         data := {| layer := Some "0"; vertexCount := Some 4%float |};
         vertices := [ {| x := 0; y := 0 |}; {| x := 100; y := 0 |};
                       {| x := 100; y := 50 |}; {| x := 0; y := 50 |} ] |};
      {| type := "LWPOLYLINE";
         data := {| layer := Some "details"; vertexCount := Some 3%float |};
         vertices := [ {| x := 10; y := 10 |}; {| x := 40; y := 10 |};
                       {| x := 40; y := 30 |} ] |} ]
  /\ parseDxfContent Sample.scrapOnly = [].
Proof. split; vm_compute; reflexivity. Qed.

(** C1 fails on the code. An octagon on layer [0] is dropped: the value [8]
    of its vertex count is read as a group code 8 on the next iteration, so
    the following line, [10], becomes the layer. A polyline on layer [0]
    followed by a [LINE] on the layer [marks] is dropped: the layer of the
    line replaces the layer of the pending polyline. A polyline with no
    layer followed by a [POINT] on layer [0] is returned. *)
Theorem allowed_polyline_dropped :
  parseDxfContent Sample.octagon = []
  /\ parseDxfContent Sample.polylineThenLine = []
  /\ parseDxfContent Sample.noLayerThenPoint
     = [ {| type := "LWPOLYLINE";
            data := {| layer := Some "0"; vertexCount := Some 2%float |};
            vertices := [ {| x := 0; y := 0 |}; {| x := 100; y := 0 |} ] |} ].
Proof. repeat split; vm_compute; reflexivity. Qed.

(** ** Plain drawings *)

Lemma step_plain_value (st : Scan.state) (t : string) (next : option string) :
  plainValue t -> quiet next -> step st t next = st.
Proof.
  intros H [Hl He].
  destruct (String.eqb_spec (JS.trim t) "0") as [E0 | N0];
    [ now apply step_other_marker | ].
  destruct (String.eqb_spec (JS.trim t) "2") as [E2 | N2].
  - unfold step, startEntity, groupCode. rewrite E2, He. cbn.
    destruct (Scan.inEntitiesSection st); cbn; [ | reflexivity ].
    now destruct (Scan.inEntity st), (Scan.currentEntity st), next.
  - apply step_other_line; try assumption;
      intros E; apply H; rewrite E; simpl; tauto.
Qed.

Lemma quiet_code (code : string) :
  code <> "LWPOLYLINE" -> code <> "ENTITIES" -> JS.trim code = code ->
  quiet (Some code).
Proof.
  intros Hl He Ht. unfold quiet, nextIs. rewrite Ht.
  split; now apply String.eqb_neq.
Qed.

Lemma quiet_coords (cs : list (string * string)) (rest : list string) :
  quiet (hd_error rest) -> quiet (hd_error (flat_map coordLines cs ++ rest)).
Proof.
  destruct cs as [ | c cs ]; [ easy | intros _ ].
  now apply quiet_code.
Qed.

(** The scan of the coordinate pairs of a polyline, inside its entity with
    no pending X: the vertices are appended in order. *)
Lemma scan_coords (cs : list (string * string)) :
  forall (rest : list string) (st : Scan.state) (e : entity),
  Forall (fun c => plainValue (fst c) /\ plainValue (snd c)) cs ->
  quiet (hd_error rest) ->
  Scan.inEntitiesSection st = true -> Scan.inEntity st = true ->
  Scan.currentEntity st = Some e ->
  Scan.expectingY st = false -> Scan.lastX st = None ->
  scan st (flat_map coordLines cs ++ rest)
  = scan {| Scan.entities := Scan.entities st;
            Scan.currentEntity := Some e;
            Scan.inEntity := true;
            Scan.inEntitiesSection := true;
            Scan.currentLayer := Scan.currentLayer st;
            Scan.vertexCount := Scan.vertexCount st;
            Scan.vertices := Scan.vertices st ++ map vertexOf cs;
            Scan.expectingY := false;
            Scan.lastX := None |} rest.
Proof.
  induction cs as [ | [a b] cs IH ];
    intros rest st e Hplain Hq Hsec Hin Hcur Hy Hx.
  - cbn [flat_map app map]. rewrite app_nil_r.
    destruct st; cbn in *; subst; reflexivity.
  - inversion Hplain as [ | c cs' [Ha Hb] Hcs ]; subst.
    cbn [flat_map coordLines app fst snd scan hd_error].
    assert (E10 : step st "10" (Some a)
                  = {| Scan.entities := Scan.entities st;
                       Scan.currentEntity := Some e;
                       Scan.inEntity := true;
                       Scan.inEntitiesSection := true;
                       Scan.currentLayer := Scan.currentLayer st;
                       Scan.vertexCount := Scan.vertexCount st;
                       Scan.vertices := Scan.vertices st;
                       Scan.expectingY := true;
                       Scan.lastX := Some (JS.parseFloat a) |}).
    { destruct st; cbn in Hsec, Hin, Hcur, Hy, Hx; subst. reflexivity. }
    rewrite E10, (step_plain_value _ a (Some "20") Ha)
      by (now apply quiet_code).
    match goal with |- context [step ?s "20" (Some b)] =>
      assert (E20 : step s "20" (Some b)
                    = {| Scan.entities := Scan.entities st;
                         Scan.currentEntity := Some e;
                         Scan.inEntity := true;
                         Scan.inEntitiesSection := true;
                         Scan.currentLayer := Scan.currentLayer st;
                         Scan.vertexCount := Scan.vertexCount st;
                         Scan.vertices :=
                           Scan.vertices st ++ [vertexOf (a, b)];
                         Scan.expectingY := false;
                         Scan.lastX := None |}) by reflexivity
    end.
    rewrite E20, (step_plain_value _ b _ Hb) by (now apply quiet_coords).
    rewrite (IH rest _ e Hcs Hq); try reflexivity.
    cbn. now rewrite <- app_assoc.
Qed.

Lemma scan_polyline (p : polylineText) (rest : list string) (st : Scan.state) :
  plainPolyline p -> quiet (hd_error rest) ->
  Scan.inEntitiesSection st = true ->
  scan st (polylineLines p ++ rest) = scan (afterPolyline st p) rest.
Proof.
  intros (Hl & Hc & Hcs) Hq Hsec. unfold polylineLines.
  rewrite <- app_assoc.
  cbn [app scan hd_error].
  assert (E0 : step st "0" (Some "LWPOLYLINE")
               = {| Scan.entities := pushCurrent st;
                    Scan.currentEntity :=
                      Some {| type := "LWPOLYLINE";
                              data := {| layer := None; vertexCount := None |};
                              vertices := [] |};
                    Scan.inEntity := true;
                    Scan.inEntitiesSection := true;
                    Scan.currentLayer := None;
                    Scan.vertexCount := 0;
                    Scan.vertices := [];
                    Scan.expectingY := false;
                    Scan.lastX := None |}).
  { unfold step, startEntity, groupCode. cbn. now rewrite Hsec. }
  rewrite E0. clear E0.
  rewrite (step_other_line _ "LWPOLYLINE" (Some "8")) by (cbn; discriminate).
  match goal with |- context [step ?s "8" (Some (layerText p))] =>
    replace (step s "8" (Some (layerText p)))
      with {| Scan.entities := pushCurrent st;
              Scan.currentEntity :=
                Some {| type := "LWPOLYLINE";
                        data := {| layer := Some (JS.trim (layerText p));
                                   vertexCount := None |};
                        vertices := [] |};
              Scan.inEntity := true;
              Scan.inEntitiesSection := true;
              Scan.currentLayer := Some (JS.trim (layerText p));
              Scan.vertexCount := 0;
              Scan.vertices := [];
              Scan.expectingY := false;
              Scan.lastX := None |} by reflexivity
  end.
  rewrite (step_plain_value _ (layerText p) (Some "90") Hl)
    by (now apply quiet_code).
  match goal with |- context [step ?s "90" (Some (countText p))] =>
    replace (step s "90" (Some (countText p)))
      with {| Scan.entities := pushCurrent st;
              Scan.currentEntity :=
                Some {| type := "LWPOLYLINE";
                        data := {| layer := Some (JS.trim (layerText p));
                                   vertexCount :=
                                     Some (JS.parseInt (countText p)) |};
                        vertices := [] |};
              Scan.inEntity := true;
              Scan.inEntitiesSection := true;
              Scan.currentLayer := Some (JS.trim (layerText p));
              Scan.vertexCount := JS.parseInt (countText p);
              Scan.vertices := [];
              Scan.expectingY := false;
              Scan.lastX := None |} by reflexivity
  end.
  rewrite (step_plain_value _ (countText p) _ Hc) by (now apply quiet_coords).
  erewrite scan_coords; [ reflexivity | exact Hcs | exact Hq | reflexivity .. ].
Qed.

Lemma quiet_polylines (ps : list polylineText) :
  quiet (hd_error (flat_map polylineLines ps ++ ["0"; "ENDSEC"; "0"; "EOF"])).
Proof. destruct ps; now apply quiet_code. Qed.

Lemma scan_polylines (ps : list polylineText) :
  forall st, Forall plainPolyline ps -> Scan.inEntitiesSection st = true ->
  pushCurrent
    (scan st (flat_map polylineLines ps ++ ["0"; "ENDSEC"; "0"; "EOF"]))
  = (pushCurrent st ++ map entityOf (filter onAllowedLayer ps))%list.
Proof.
  induction ps as [ | p ps IH ]; intros st Hplain Hsec.
  - cbn [flat_map app scan hd_error map filter].
    rewrite (step_other_marker st "0" (Some "ENDSEC")) by reflexivity.
    rewrite (step_other_line st "ENDSEC") by (cbn; discriminate).
    rewrite (step_other_marker st "0" (Some "EOF")) by reflexivity.
    rewrite (step_other_line st "EOF") by (cbn; discriminate).
    now rewrite app_nil_r.
  - inversion Hplain as [ | p' ps' Hp Hps ]; subst.
    cbn [flat_map].
    rewrite <- app_assoc,
      (scan_polyline p _ st Hp (quiet_polylines ps) Hsec).
    rewrite (IH (afterPolyline st p) Hps eq_refl). cbn [filter].
    unfold pushCurrent at 1. cbn.
    match goal with |- context [if ?c then _ else _] => destruct c end;
      cbn [map]; [ now rewrite <- app_assoc | reflexivity ].
Qed.

(** The lines of a text that holds no line feed are its lines. *)
Lemma split_join_lf (ls : list string) :
  ls <> [] -> Forall (fun l => lacks "010" l = true) ls ->
  JS.split_lf (JS.join_lf ls) = ls.
Proof.
  intros Hne H. induction H as [ | l ls Hl Hls IH ]; [ congruence | ].
  clear Hne. destruct ls as [ | l' ls ].
  - clear IH Hls. cbn [JS.join_lf].
    induction l as [ | c l IHl ]; [ reflexivity | ].
    cbn [lacks] in Hl. apply andb_true_iff in Hl as [Hc Hl].
    apply negb_true_iff in Hc. cbn [JS.split_lf]. rewrite Hc.
    now rewrite (IHl Hl).
  - specialize (IH ltac:(discriminate)).
    change (JS.join_lf (l :: l' :: ls))
      with (l ++ String "010" (JS.join_lf (l' :: ls))).
    induction l as [ | c l IHl ].
    + cbn [append JS.split_lf]. rewrite Ascii.eqb_refl. now rewrite IH.
    + cbn [lacks] in Hl. apply andb_true_iff in Hl as [Hc Hl].
      apply negb_true_iff in Hc. cbn [append JS.split_lf]. rewrite Hc.
      now rewrite (IHl Hl).
Qed.

(** The extractor on a plain drawing: when the [ENTITIES] section holds
    polylines only, each written as its layer, its count and its coordinate
    pairs, and no value line reads 8, 90, 10 or 20, the result is the
    polylines on the allowed layers, in order, each with its vertices in
    order. *)
Theorem plain_drawing_is_extracted (ps : list polylineText) :
  Forall plainPolyline ps ->
  parseDxfLines (drawingLines ps) = map entityOf (filter onAllowedLayer ps).
Proof.
  intros Hplain. unfold parseDxfLines, drawingLines.
  cbn [app scan hd_error].
  rewrite (step_outside_section Scan.init "0") by reflexivity.
  rewrite (step_outside_section Scan.init "SECTION") by reflexivity.
  match goal with |- context [step Scan.init "2" (Some "ENTITIES")] =>
    replace (step Scan.init "2" (Some "ENTITIES"))
      with {| Scan.entities := [];
              Scan.currentEntity := None;
              Scan.inEntity := false;
              Scan.inEntitiesSection := true;
              Scan.currentLayer := None;
              Scan.vertexCount := 0;
              Scan.vertices := [];
              Scan.expectingY := false;
              Scan.lastX := None |} by reflexivity
  end.
  rewrite (step_other_line _ "ENTITIES") by (cbn; discriminate).
  erewrite scan_polylines; [ reflexivity | exact Hplain | reflexivity ].
Qed.

(** The same from the text of the drawing. *)
Theorem plain_drawing_text_is_extracted (ps : list polylineText) :
  Forall plainPolyline ps ->
  Forall (fun l => lacks "010" l = true) (drawingLines ps) ->
  parseDxfContent (JS.join_lf (drawingLines ps))
  = map entityOf (filter onAllowedLayer ps).
Proof.
  intros Hplain Hlf. unfold parseDxfContent.
  rewrite split_join_lf; [ now apply plain_drawing_is_extracted | | exact Hlf ].
  discriminate.
Qed.

(** The sheet, a polyline on the layer [scrap] and the part: the sheet and
    the part are returned, in this order. *)
Lemma plain_drawing_text_is_extracted_witness :
  parseDxfContent (JS.join_lf (drawingLines Sample.threePolylines))
  = [Sample.sheet; Sample.part].
Proof.
  rewrite (plain_drawing_text_is_extracted Sample.threePolylines).
  - vm_compute. reflexivity.
  - repeat first [ apply Forall_nil | apply Forall_cons | split
                 | solve [ unfold plainValue; cbn; intuition discriminate ] ].
  - repeat first [ apply Forall_nil | apply Forall_cons | reflexivity ].
Defined.

(** ** Drawings with no [ENTITIES] section *)

Lemma scan_without_marker (lines : list string) :
  hasEntitiesMarker lines = false -> scan Scan.init lines = Scan.init.
Proof.
  induction lines as [ | raw rest IH ]; [ reflexivity | ].
  cbn [hasEntitiesMarker scan]. intros H.
  apply orb_false_iff in H as [Hm Hrest].
  rewrite (step_outside_section Scan.init raw _ eq_refl Hm). now apply IH.
Qed.

(** When no line [2] is followed by [ENTITIES], every line is ignored and
    the result is the empty list. *)
Theorem no_marker_no_entity (lines : list string) :
  hasEntitiesMarker lines = false -> parseDxfLines lines = [].
Proof.
  intros H. unfold parseDxfLines. now rewrite (scan_without_marker lines H).
Qed.

Lemma no_marker_no_entity_witness : parseDxfLines Sample.blocksOnly = [].
Proof. apply no_marker_no_entity. reflexivity. Defined.

(** * Properties of the projector *)

(** ** Counting elements in the markup *)

Lemma lacks_app (c : ascii) (a b : string) :
  lacks c (a ++ b) = lacks c a && lacks c b.
Proof.
  induction a as [ | x a IH ]; simpl; [ reflexivity | ].
  now rewrite IH, andb_assoc.
Qed.

Lemma allNumeric_app (a b : string) :
  allNumeric (a ++ b) = allNumeric a && allNumeric b.
Proof.
  induction a as [ | x a IH ]; simpl; [ reflexivity | ].
  now rewrite IH, andb_assoc.
Qed.

Lemma allNumeric_lacks (c : ascii) (s : string) :
  numericChar c = false -> allNumeric s = true -> lacks c s = true.
Proof.
  intros Hc. induction s as [ | a s IH ]; simpl; [ reflexivity | ].
  intros H. apply andb_true_iff in H as [Ha Hs]. rewrite (IH Hs), andb_true_r.
  destruct (Ascii.eqb_spec a c) as [-> | ]; [ congruence | reflexivity ].
Qed.

Lemma prefix_head_eq (a : ascii) (p s : string) :
  prefix (String a p) (String a s) = prefix p s.
Proof.
  cbn [prefix]. destruct (ascii_dec a a) as [_ | N];
    [ reflexivity | now contradiction N ].
Qed.

Lemma prefix_head_neq (a b : ascii) (p s : string) :
  (b =? a)%char = false -> prefix (String a p) (String b s) = false.
Proof.
  intros H. cbn [prefix]. destruct (ascii_dec a b) as [<- | _];
    [ | reflexivity ].
  now rewrite Ascii.eqb_refl in H.
Qed.

(** Before its first [<] a text holds no occurrence of a tag. *)
Lemma countOcc_skip (p' a b : string) :
  lacks "<" a = true ->
  countOcc (String "<" p') (a ++ b) = countOcc (String "<" p') b.
Proof.
  induction a as [ | x a IH ]; cbn [append lacks countOcc];
    [ reflexivity | ].
  intros H. apply andb_true_iff in H as [Hx Ha].
  apply negb_true_iff in Hx.
  now rewrite (prefix_head_neq _ _ _ _ Hx), (IH Ha).
Qed.

(** An element [<body] counts for one when the tag is what starts it. *)
Lemma countOcc_element (p' body rest : string) :
  lacks "<" body = true ->
  countOcc (String "<" p') (String "<" body ++ rest)
  = (if prefix p' (body ++ rest) then 1 else 0)
    + countOcc (String "<" p') rest.
Proof.
  intros H. cbn [append countOcc].
  now rewrite prefix_head_eq, (countOcc_skip p' body rest H).
Qed.

(** ** The text of a Number *)

Lemma allNumeric_uint (d : Decimal.uint) :
  allNumeric (NilEmpty.string_of_uint d) = true.
Proof. induction d; simpl; try rewrite IHd; reflexivity. Qed.

Lemma allNumeric_decimalDigits (s : Z) :
  allNumeric (JS.decimalDigits s) = true.
Proof. apply allNumeric_uint. Qed.

Lemma allNumeric_zeros (n : nat) : allNumeric (JS.zeros n) = true.
Proof. induction n; simpl; [ | rewrite IHn ]; reflexivity. Qed.

Lemma allNumeric_stripTrailingZeros (s : string) :
  allNumeric s = true -> allNumeric (JS.stripTrailingZeros s) = true.
Proof.
  induction s as [ | a s IH ]; simpl; [ reflexivity | ].
  intros H. apply andb_true_iff in H as [Ha Hs].
  destruct ((a =? "0")%char && (JS.stripTrailingZeros s =? ""));
    simpl; [ reflexivity | ].
  now rewrite Ha, (IH Hs).
Qed.

Lemma allNumeric_substring (s : string) :
  allNumeric s = true ->
  forall n m, allNumeric (substring n m s) = true.
Proof.
  induction s as [ | a s IH ]; intros H n m.
  - destruct n, m; reflexivity.
  - simpl in H. apply andb_true_iff in H as [Ha Hs].
    destruct n as [ | n ]; [ destruct m as [ | m ] | ]; simpl.
    + reflexivity.
    + now rewrite Ha, (IH Hs).
    + now apply IH.
Qed.

Lemma allNumeric_notation (ds : string) (n : Z) :
  allNumeric ds = true -> allNumeric (JS.notation ds n) = true.
Proof.
  intros H. unfold JS.notation.
  repeat match goal with |- context [if ?b then _ else _] => destruct b end;
    repeat rewrite allNumeric_app;
    rewrite ?allNumeric_zeros, ?allNumeric_decimalDigits,
      ?(allNumeric_substring ds H), ?H; reflexivity.
Qed.

Lemma allNumeric_positiveToString (v : float) (m : positive) (e : Z) :
  allNumeric (JS.positiveToString v m e) = true.
Proof.
  unfold JS.positiveToString.
  destruct (JS.fraction m e) as [num den].
  destruct (JS.shortest _ _ _ _ _ _) as [s k].
  apply allNumeric_notation, allNumeric_stripTrailingZeros,
    allNumeric_decimalDigits.
Qed.

(** The text of a Number is made of digits, signs, the point, [e] and the
    letters of [NaN] and [Infinity]. *)
Lemma allNumeric_str (v : float) : allNumeric (str v) = true.
Proof.
  unfold str, JS.Number_toString.
  destruct (Prim2SF v) as [s | s | | s m e]; try destruct s; try reflexivity;
    rewrite allNumeric_app, allNumeric_positiveToString; reflexivity.
Qed.

(** So it holds no [<], and no [Z] or [z]. *)
Lemma lacks_str (c : ascii) (v : float) :
  numericChar c = false -> lacks c (str v) = true.
Proof.
  intros Hc. apply allNumeric_lacks; [ exact Hc | apply allNumeric_str ].
Qed.

(** ** The elements of the markup *)

Ltac lacks_literal :=
  repeat first
    [ rewrite lacks_app
    | rewrite lacks_str by reflexivity
    | progress cbn [lacks negb andb Ascii.eqb Bool.eqb dq append] ];
  try reflexivity.

Lemma lacks_lineTo (c : ascii) (vs : list point) :
  numericChar c = false -> lacks c pathLetters = true ->
  lacks c (lineTo vs) = true.
Proof.
  intros Hn Hl. induction vs as [ | v vs IH ]; [ reflexivity | ].
  cbn [lineTo]. rewrite !lacks_app, IH, !(lacks_str c _ Hn).
  destruct c as [[] [] [] [] [] [] [] []]; try discriminate Hl; reflexivity.
Qed.

Lemma lacks_strokeColor (c : ascii) (e : entity) :
  lacks c pathLetters = true -> lacks c (strokeColor e) = true.
Proof.
  intros Hl. unfold strokeColor.
  destruct (layer (data e)) as [l | ];
    [ destruct ((l =? "0") || (l =? "work_area"));
      [ | destruct (l =? "details") ] | ];
    destruct c as [[] [] [] [] [] [] [] []]; try discriminate Hl; reflexivity.
Qed.

Lemma lacks_strokeWidth (c : ascii) (e : entity) :
  lacks c pathLetters = true -> lacks c (strokeWidth e) = true.
Proof.
  intros Hl. unfold strokeWidth.
  destruct (layer (data e)) as [l | ];
    [ destruct ((l =? "0") || (l =? "work_area"));
      [ | destruct (l =? "details") ] | ];
    destruct c as [[] [] [] [] [] [] [] []]; try discriminate Hl; reflexivity.
Qed.

Lemma pathElement_drawable (e : entity) (v : point) (vs : list point) :
  type e = "LWPOLYLINE" -> vertices e = v :: vs ->
  pathElement e = String "<" (pathTail e v vs).
Proof.
  intros Ht Hv. unfold pathElement. now rewrite Hv, Ht.
Qed.

Lemma pathElement_not_drawable (e : entity) :
  drawable e = false -> pathElement e = EmptyString.
Proof.
  unfold drawable, pathElement. destruct (vertices e); [ reflexivity | ].
  simpl. rewrite andb_true_r. now intros ->.
Qed.

Lemma lacks_pathTail (c : ascii) (e : entity) (v : point) (vs : list point) :
  numericChar c = false -> lacks c pathLetters = true ->
  lacks c (pathTail e v vs) = true.
Proof.
  intros Hn Hl. unfold pathTail, pathData.
  rewrite !lacks_app, (lacks_lineTo c vs Hn Hl), (lacks_strokeColor c e Hl),
    (lacks_strokeWidth c e Hl), !(lacks_str c _ Hn).
  destruct c as [[] [] [] [] [] [] [] []]; try discriminate Hl; reflexivity.
Qed.

(** The opening tags, from their second character on. *)
Lemma svgOpen_tail (width height : float) :
  exists tail,
    svgOpen width height = String "<" tail
    /\ lacks "<" tail = true
    /\ forall rest, prefix "path" (tail ++ rest) = false
                    /\ prefix "g " (tail ++ rest) = false.
Proof.
  eexists. split; [ unfold svgOpen; cbn [append]; reflexivity | ].
  split; [ lacks_literal | ].
  intros rest. cbn [append].
  split; rewrite prefix_head_neq by reflexivity; reflexivity.
Qed.

Lemma groupOpen_tail (b : bounds) (width height : float) :
  exists tail,
    groupOpen b width height = String "<" tail
    /\ lacks "<" tail = true
    /\ forall rest, prefix "path" (tail ++ rest) = false
                    /\ prefix "g " (tail ++ rest) = true.
Proof.
  eexists. split; [ unfold groupOpen; cbn [append]; reflexivity | ].
  split; [ lacks_literal | ].
  intros rest. cbn [append]. split.
  - rewrite prefix_head_neq by reflexivity; reflexivity.
  - rewrite !prefix_head_eq. reflexivity.
Qed.

(** The opening tags hold no path element, and one group element. *)
Lemma pathCount_svgOpen (width height : float) (rest : string) :
  pathCount (svgOpen width height ++ rest) = pathCount rest.
Proof.
  destruct (svgOpen_tail width height) as (tail & -> & Hl & Hp).
  unfold pathCount. rewrite (countOcc_element _ _ _ Hl).
  now rewrite (proj1 (Hp rest)).
Qed.

Lemma groupCount_svgOpen (width height : float) (rest : string) :
  groupCount (svgOpen width height ++ rest) = groupCount rest.
Proof.
  destruct (svgOpen_tail width height) as (tail & -> & Hl & Hp).
  unfold groupCount. rewrite (countOcc_element _ _ _ Hl).
  now rewrite (proj2 (Hp rest)).
Qed.

Lemma pathCount_groupOpen (b : bounds) (width height : float) (rest : string) :
  pathCount (groupOpen b width height ++ rest) = pathCount rest.
Proof.
  destruct (groupOpen_tail b width height) as (tail & -> & Hl & Hp).
  unfold pathCount. rewrite (countOcc_element _ _ _ Hl).
  now rewrite (proj1 (Hp rest)).
Qed.

Lemma groupCount_groupOpen (b : bounds) (width height : float) (rest : string) :
  groupCount (groupOpen b width height ++ rest) = S (groupCount rest).
Proof.
  destruct (groupOpen_tail b width height) as (tail & -> & Hl & Hp).
  unfold groupCount. rewrite (countOcc_element _ _ _ Hl).
  now rewrite (proj2 (Hp rest)).
Qed.

(** A path element counts for one path and for no group. *)
Lemma pathCount_pathElement (e : entity) (rest : string) :
  pathCount (pathElement e ++ rest)
  = ((if drawable e then 1 else 0) + pathCount rest)%nat.
Proof.
  destruct (drawable e) eqn:Hd.
  - unfold drawable in Hd. apply andb_true_iff in Hd as [Ht Hv].
    apply String.eqb_eq in Ht.
    destruct (vertices e) as [ | v vs ] eqn:Ev; [ discriminate Hv | ].
    rewrite (pathElement_drawable e v vs Ht Ev). unfold pathCount.
    rewrite countOcc_element by (now apply lacks_pathTail).
    unfold pathTail. cbn [append]. now rewrite !prefix_head_eq.
  - now rewrite (pathElement_not_drawable e Hd).
Qed.

Lemma groupCount_pathElement (e : entity) (rest : string) :
  groupCount (pathElement e ++ rest) = groupCount rest.
Proof.
  destruct (drawable e) eqn:Hd.
  - unfold drawable in Hd. apply andb_true_iff in Hd as [Ht Hv].
    apply String.eqb_eq in Ht.
    destruct (vertices e) as [ | v vs ] eqn:Ev; [ discriminate Hv | ].
    rewrite (pathElement_drawable e v vs Ht Ev). unfold groupCount.
    rewrite countOcc_element by (now apply lacks_pathTail).
    unfold pathTail. cbn [append].
    now rewrite prefix_head_neq by reflexivity.
  - now rewrite (pathElement_not_drawable e Hd).
Qed.

Lemma append_assoc (a b c : string) : (a ++ b) ++ c = a ++ b ++ c.
Proof. induction a as [ | x a IH ]; simpl; [ | rewrite IH ]; reflexivity. Qed.

Lemma pathCount_pathElements (es : list entity) (rest : string) :
  pathCount (pathElements es ++ rest)
  = (List.length (filter drawable es) + pathCount rest)%nat.
Proof.
  induction es as [ | e es IH ]; [ reflexivity | ].
  cbn [pathElements filter]. rewrite append_assoc, pathCount_pathElement, IH.
  destruct (drawable e); reflexivity.
Qed.

Lemma groupCount_pathElements (es : list entity) (rest : string) :
  groupCount (pathElements es ++ rest) = groupCount rest.
Proof.
  induction es as [ | e es IH ]; [ reflexivity | ].
  cbn [pathElements]. now rewrite append_assoc, groupCount_pathElement, IH.
Qed.

Lemma pathElements_app (es1 es2 : list entity) :
  pathElements (es1 ++ es2) = pathElements es1 ++ pathElements es2.
Proof.
  induction es1 as [ | e es1 IH ]; [ reflexivity | ].
  cbn [pathElements app]. now rewrite IH, append_assoc.
Qed.

(** The path elements of a markup are those of the drawable entities. *)
Lemma pathCount_convertDxfToSvg (es : list entity) (width height : float) :
  pathCount (convertDxfToSvg es width height)
  = List.length (filter drawable es).
Proof.
  unfold convertDxfToSvg.
  rewrite pathCount_svgOpen, pathCount_groupOpen, pathCount_pathElements.
  apply Nat.add_0_r.
Qed.

(** ** Scale, centre and transform *)

(** The text of the markup, written from the bounds: the [<svg>] tag of
    width [width] and height [height], then the one [<g>] tag whose
    transform translates to [(width / 2, height / 2)], scales and translates
    by minus the centre, then the path elements and the closing tags; and
    the markup holds exactly one group element. *)
Lemma markup_of_bounds (es : list entity)
  (width height : float) :
  let b := findBounds es in
  let scale :=
    (JS.Math_min (width / (maxX b - minX b)) (height / (maxY b - minY b))
     * lit_0_8)%float in
  let cx := ((minX b + maxX b) / 2)%float in
  let cy := ((minY b + maxY b) / 2)%float in
  convertDxfToSvg es width height
  = ("<svg width=" ++ dq ++ str width ++ dq
       ++ " height=" ++ dq ++ str height ++ dq
       ++ " xmlns=" ++ dq ++ "http://www.w3.org/2000/svg" ++ dq
       ++ " viewBox=" ++ dq ++ "0 0 " ++ str width ++ " " ++ str height ++ dq
       ++ ">")
    ++ ("<g transform=" ++ dq
          ++ "translate(" ++ str (width / 2) ++ ", " ++ str (height / 2) ++ ")"
          ++ " scale(" ++ str scale ++ ")"
          ++ " translate(" ++ str (- cx) ++ ", " ++ str (- cy) ++ ")"
          ++ dq ++ ">")
    ++ pathElements es ++ "</g></svg>"
  /\ groupCount (convertDxfToSvg es width height) = 1.
Proof.
  split; [ reflexivity | ].
  unfold convertDxfToSvg.
  now rewrite groupCount_svgOpen, groupCount_groupOpen, groupCount_pathElements.
Qed.

(** The sheet and the part in a viewport of 800 by 600: the extents are 100
    and 50, the scale is 6.4 and the centre is (50, 25). *)
Lemma sheet_and_part_markup :
  let b := findBounds [Sample.sheet; Sample.part] in
  (dx b = 100 /\ dy b = 50 /\ scaleOf b 800 600 = JS.parseFloat "6.4"
   /\ centerX b = 50 /\ centerY b = 25)%float
  /\ convertDxfToSvg [Sample.sheet; Sample.part] 800 600
     = "<svg width=" ++ dq ++ "800" ++ dq ++ " height=" ++ dq ++ "600" ++ dq
         ++ " xmlns=" ++ dq ++ "http://www.w3.org/2000/svg" ++ dq
         ++ " viewBox=" ++ dq ++ "0 0 800 600" ++ dq ++ ">"
         ++ "<g transform=" ++ dq
         ++ "translate(400, 300) scale(6.4) translate(-50, -25)" ++ dq ++ ">"
         ++ "<path d=" ++ dq ++ "M 0 0 L 100 0 L 100 50 L 0 50" ++ dq
         ++ " fill=" ++ dq ++ "none" ++ dq
         ++ " stroke=" ++ dq ++ "#2E86AB" ++ dq
         ++ " stroke-width=" ++ dq ++ "2" ++ dq ++ "/>"
         ++ "<path d=" ++ dq ++ "M 10 10 L 40 10 L 40 30" ++ dq
         ++ " fill=" ++ dq ++ "none" ++ dq
         ++ " stroke=" ++ dq ++ "#A23B72" ++ dq
         ++ " stroke-width=" ++ dq ++ "1.5" ++ dq ++ "/>"
         ++ "</g></svg>".
Proof. repeat split; vm_compute; reflexivity. Qed.

(** ** Path elements *)

(** C5, as the code has it. The markup holds one path element for each
    entity of type [LWPOLYLINE] with at least one vertex, and no other. The
    path of such an entity moves to its first vertex and draws a line to
    each further vertex in order, so an entity with exactly one vertex gets
    the path [M x y] with no segment; the element holds no closing command
    ([Z] or [z]). An entity with no vertex, or of another type, adds nothing.
    The path elements of a list are those of its entities one after the
    other, each written from its own entity alone. *)
Theorem path_for_each_nonempty_polyline :
  (forall es width height,
      pathCount (convertDxfToSvg es width height)
      = List.length (filter drawable es))
  /\ (forall e v vs,
        type e = "LWPOLYLINE" -> vertices e = v :: vs ->
        pathElement e
        = "<path d=" ++ dq
            ++ ("M " ++ str (x v) ++ " " ++ str (y v) ++ lineTo vs) ++ dq
            ++ " fill=" ++ dq ++ "none" ++ dq
            ++ " stroke=" ++ dq ++ strokeColor e ++ dq
            ++ " stroke-width=" ++ dq ++ strokeWidth e ++ dq ++ "/>"
        /\ lacks "Z" (pathElement e) = true
        /\ lacks "z" (pathElement e) = true)
  /\ (forall v vs,
        lineTo (v :: vs) = " L " ++ str (x v) ++ " " ++ str (y v) ++ lineTo vs)
  /\ (forall e, drawable e = false -> pathElement e = EmptyString)
  /\ (forall es1 e es2,
        pathElements (es1 ++ e :: es2)%list
        = pathElements es1 ++ pathElement e ++ pathElements es2).
Proof.
  split; [ exact pathCount_convertDxfToSvg | ].
  split; [ | split; [ reflexivity | split ] ].
  - intros e v vs Ht Hv. rewrite (pathElement_drawable e v vs Ht Hv).
    split; [ reflexivity | ].
    split; cbn [lacks]; rewrite lacks_pathTail; reflexivity.
  - exact pathElement_not_drawable.
  - intros es1 e es2. now rewrite pathElements_app.
Qed.

(** The entity with one vertex gets the path [M 5 5]; the sheet, the part
    and it give three path elements. *)
Lemma path_for_each_nonempty_polyline_witness :
  pathElement Sample.onePoint
  = "<path d=" ++ dq ++ "M 5 5" ++ dq ++ " fill=" ++ dq ++ "none" ++ dq
      ++ " stroke=" ++ dq ++ "#A23B72" ++ dq
      ++ " stroke-width=" ++ dq ++ "1.5" ++ dq ++ "/>"
  /\ pathElement Sample.noVertex = EmptyString
  /\ pathCount
       (convertDxfToSvg [Sample.sheet; Sample.onePoint; Sample.part] 800 600)
     = 3.
Proof.
  destruct path_for_each_nonempty_polyline as (Hcount & Hpath & _ & Hnone & _).
  split; [ | split ].
  - destruct (Hpath Sample.onePoint {| x := 5; y := 5 |} [] eq_refl eq_refl)
      as [-> _].
    vm_compute. reflexivity.
  - apply Hnone. reflexivity.
  - rewrite Hcount. reflexivity.
Defined.

(** C5 fails on the code: an entity with exactly one vertex produces one
    path element. *)
Lemma one_vertex_entity_gets_a_path :
  pathCount (convertDxfToSvg [Sample.onePoint] 800 600) = 1
  /\ convertDxfToSvg [Sample.onePoint] 800 600
     = "<svg width=" ++ dq ++ "800" ++ dq ++ " height=" ++ dq ++ "600" ++ dq
         ++ " xmlns=" ++ dq ++ "http://www.w3.org/2000/svg" ++ dq
         ++ " viewBox=" ++ dq ++ "0 0 800 600" ++ dq ++ ">"
         ++ "<g transform=" ++ dq
         ++ "translate(400, 300) scale(Infinity) translate(-5, -5)" ++ dq ++ ">"
         ++ "<path d=" ++ dq ++ "M 5 5" ++ dq
         ++ " fill=" ++ dq ++ "none" ++ dq
         ++ " stroke=" ++ dq ++ "#A23B72" ++ dq
         ++ " stroke-width=" ++ dq ++ "1.5" ++ dq ++ "/>"
         ++ "</g></svg>".
Proof. split; vm_compute; reflexivity. Qed.

(** ** Stroke by layer *)

(** The stroke of a path follows the layer of its entity: [#2E86AB] of
    width 2 on the layers [0] and [work_area], [#A23B72] of width 1.5 on the
    layer [details], black of width 1 on any other layer and when the entity
    has no layer. *)
Theorem stroke_follows_layer (e : entity) :
  (strokeColor e, strokeWidth e)
  = match layer (data e) with
    | Some l =>
        if (l =? "0") || (l =? "work_area") then ("#2E86AB", "2")
        else if l =? "details" then ("#A23B72", "1.5")
        else ("black", "1")
    | None => ("black", "1")
    end.
Proof.
  unfold strokeColor, strokeWidth.
  destruct (layer (data e)) as [l | ]; [ | reflexivity ].
  destruct ((l =? "0") || (l =? "work_area")); [ reflexivity | ].
  destruct (l =? "details"); reflexivity.
Qed.

(** ** Drawings with no vertex *)

Lemma findBounds_no_vertex (es : list entity) :
  (forall e, In e es -> vertices e = []) ->
  forall b, fold_left (fun b e => fold_left addVertex (vertices e) b) es b = b.
Proof.
  induction es as [ | e es IH ]; intros H b; [ reflexivity | ].
  simpl. rewrite (H e (or_introl eq_refl)). simpl.
  apply IH. intros e' He'. apply H. now right.
Qed.

Lemma filter_drawable_no_vertex (es : list entity) :
  (forall e, In e es -> vertices e = []) -> filter drawable es = [].
Proof.
  induction es as [ | e es IH ]; intros H; [ reflexivity | ].
  simpl. unfold drawable at 1. rewrite (H e (or_introl eq_refl)). simpl.
  rewrite andb_false_r. apply IH. intros e' He'. apply H. now right.
Qed.

Lemma pathElements_no_vertex (es : list entity) :
  (forall e, In e es -> vertices e = []) -> pathElements es = EmptyString.
Proof.
  induction es as [ | e es IH ]; intros H; [ reflexivity | ].
  cbn [pathElements]. unfold pathElement. rewrite (H e (or_introl eq_refl)).
  apply IH. intros e' He'. apply H. now right.
Qed.

(** C7. For an entity list with no vertex at all, the empty list included,
    the bounds stay [Infinity] and [-Infinity] and both extents are
    [-Infinity], not zero; the markup is the two opening tags written from
    these bounds followed by the closing tags, and it holds no path
    element. *)
Theorem no_vertex_no_path (es : list entity) (width height : float) :
  (forall e, In e es -> vertices e = []) ->
  findBounds es = noBounds
  /\ dx noBounds = neg_infinity /\ dy noBounds = neg_infinity
  /\ convertDxfToSvg es width height
     = svgOpen width height ++ groupOpen noBounds width height ++ "</g></svg>"
  /\ pathCount (convertDxfToSvg es width height) = 0.
Proof.
  intros H.
  assert (Hb : findBounds es = noBounds)
    by (unfold findBounds; now apply findBounds_no_vertex).
  split; [ exact Hb | ].
  split; [ reflexivity | ]. split; [ reflexivity | ]. split.
  - unfold convertDxfToSvg. now rewrite Hb, (pathElements_no_vertex es H).
  - now rewrite pathCount_convertDxfToSvg, (filter_drawable_no_vertex es H).
Qed.

(** The empty list and a list of one entity with no vertex, in a viewport
    of 800 by 600: the transform is written with [scale(0)] and
    [translate(NaN, NaN)]. *)
Lemma no_vertex_no_path_witness :
  (convertDxfToSvg [] 800 600
   = "<svg width=" ++ dq ++ "800" ++ dq ++ " height=" ++ dq ++ "600" ++ dq
       ++ " xmlns=" ++ dq ++ "http://www.w3.org/2000/svg" ++ dq
       ++ " viewBox=" ++ dq ++ "0 0 800 600" ++ dq ++ ">"
       ++ "<g transform=" ++ dq
       ++ "translate(400, 300) scale(0) translate(NaN, NaN)" ++ dq ++ ">"
       ++ "</g></svg>"
   /\ pathCount (convertDxfToSvg [] 800 600) = 0)
  /\ pathCount (convertDxfToSvg [Sample.noVertex] 800 600) = 0.
Proof.
  split.
  - destruct (no_vertex_no_path [] 800 600) as (_ & _ & _ & Hsvg & Hcount).
    + intros e [].
    + split; [ | exact Hcount ]. rewrite Hsvg. vm_compute. reflexivity.
  - apply no_vertex_no_path. intros e [<- | []]. reflexivity.
Defined.

(** * Properties of binary64 arithmetic

    What the zoom handlers and the scale need of the arithmetic of Numbers,
    from the specification of the primitive operations ([SpecFloat],
    [FloatAxioms]). *)

Section Binary64.

Local Open Scope Z_scope.

(** ** Rounding a mantissa that is long enough *)

(** A mantissa of [d] binary digits lies from [2^(d-1)] up to [2^d], and
    this fixes [d]. *)
Lemma digits2_bounds (p : positive) :
  2 ^ (Zpos (digits2_pos p) - 1) <= Zpos p < 2 ^ Zpos (digits2_pos p).
Proof.
  induction p as [p IH | p IH | ]; cbn [digits2_pos].
  - rewrite Pos2Z.inj_succ.
    replace (Z.succ (Z.pos (digits2_pos p)) - 1)
      with (Z.succ (Z.pos (digits2_pos p) - 1)) by lia.
    rewrite !Z.pow_succ_r by lia. lia.
  - rewrite Pos2Z.inj_succ.
    replace (Z.succ (Z.pos (digits2_pos p)) - 1)
      with (Z.succ (Z.pos (digits2_pos p) - 1)) by lia.
    rewrite !Z.pow_succ_r by lia. lia.
  - simpl. lia.
Qed.

Lemma digits2_unique (p : positive) (d : Z) :
  2 ^ (d - 1) <= Zpos p < 2 ^ d -> Zpos (digits2_pos p) = d.
Proof.
  intros [Hlo Hhi]. pose proof (digits2_bounds p) as [Hlo' Hhi'].
  assert (0 < d).
  { destruct (Z_lt_le_dec 0 d) as [ | Hle ]; [ easy | exfalso ].
    assert (2 ^ d <= 1).
    { destruct (Z.eq_dec d 0) as [-> | ]; [ simpl; lia | ].
      rewrite Z.pow_neg_r by lia. lia. }
    lia. }
  destruct (Z.lt_trichotomy (Zpos (digits2_pos p)) d) as [Hlt | [Heq | Hgt]];
    [ | exact Heq | ].
  - assert (2 ^ Zpos (digits2_pos p) <= 2 ^ (d - 1))
      by (apply Z.pow_le_mono_r; lia).
    lia.
  - assert (2 ^ d <= 2 ^ (Zpos (digits2_pos p) - 1))
      by (apply Z.pow_le_mono_r; lia).
    lia.
Qed.

(** One shift to the right halves the mantissa; [n] shifts divide it by
    [2^n]. *)
Lemma shr_1_m (mrs : shr_record) :
  0 <= shr_m mrs ->
  shr_m (shr_1 mrs) = shr_m mrs / 2 /\ 0 <= shr_m (shr_1 mrs).
Proof.
  destruct mrs as [m r s]. cbn [shr_m shr_1].
  destruct m as [ | [p | p | ] | p ]; cbn [shr_m]; intros H; try lia.
  - split; [ reflexivity | lia ].
  - split; [ | lia ]. apply Z.div_unique with (r := 1); lia.
  - split; [ | lia ]. apply Z.div_unique with (r := 0); lia.
  - split; [ reflexivity | lia ].
Qed.

Lemma iter_pos_shr_1_m (p : positive) :
  forall mrs, 0 <= shr_m mrs ->
  shr_m (iter_pos shr_1 p mrs) = shr_m mrs / 2 ^ Zpos p
  /\ 0 <= shr_m (iter_pos shr_1 p mrs).
Proof.
  induction p as [p IH | p IH | ]; intros mrs H; cbn [iter_pos].
  - destruct (shr_1_m mrs H) as [E1 H1].
    destruct (IH _ H1) as [E2 H2]. destruct (IH _ H2) as [E3 H3].
    split; [ | exact H3 ]. rewrite E3, E2, E1.
    assert (0 < 2 ^ Zpos p) by (apply Z.pow_pos_nonneg; lia).
    replace (Z.pos p~1) with (1 + Z.pos p + Z.pos p) by lia.
    rewrite !Z.pow_add_r by lia. change (2 ^ 1) with 2.
    rewrite !Z.div_div by lia. f_equal. lia.
  - destruct (IH _ H) as [E2 H2]. destruct (IH _ H2) as [E3 H3].
    split; [ | exact H3 ]. rewrite E3, E2.
    assert (0 < 2 ^ Zpos p) by (apply Z.pow_pos_nonneg; lia).
    replace (Z.pos p~0) with (Z.pos p + Z.pos p) by lia.
    rewrite !Z.pow_add_r by lia.
    rewrite !Z.div_div by lia. f_equal.
  - destruct (shr_1_m mrs H) as [E1 H1]. split; [ | exact H1 ].
    rewrite E1. reflexivity.
Qed.

Lemma shr_record_of_loc_m (m : Z) (l : location) :
  shr_m (shr_record_of_loc m l) = m.
Proof. destruct l as [ | [ | | ]]; reflexivity. Qed.

(** Away from the subnormal Numbers the mantissa keeps 53 digits. *)
Lemma fexp_normal (e : Z) : -1074 <= e - 53 -> fexp prec emax e = e - 53.
Proof. unfold fexp, SpecFloat.emin, prec, emax. lia. Qed.

(** A mantissa of [d] digits, 53 at least, is shifted by [d - 53]. *)
Lemma shr_fexp_normal (m : positive) (e : Z) (l : location) (d : Z) :
  Zpos (digits2_pos m) = d -> 53 <= d -> -1074 <= e + d - 53 ->
  exists mrs, shr_fexp prec emax (Zpos m) e l = (mrs, e + d - 53)
              /\ shr_m mrs = Zpos m / 2 ^ (d - 53).
Proof.
  intros Hd H53 He. unfold shr_fexp. cbn [Zdigits2]. rewrite Hd.
  rewrite fexp_normal by lia.
  replace (d + e - 53 - e) with (d - 53) by lia.
  destruct (d - 53) as [ | p | p ] eqn:En; try lia.
  - exists (shr_record_of_loc (Zpos m) l). cbn [shr]. split.
    + f_equal. lia.
    + rewrite shr_record_of_loc_m. now rewrite Z.div_1_r.
  - cbn [shr]. eexists. split.
    + f_equal. lia.
    + destruct (iter_pos_shr_1_m p (shr_record_of_loc (Zpos m) l)) as [E _].
      * rewrite shr_record_of_loc_m. lia.
      * now rewrite E, shr_record_of_loc_m.
Qed.

(** Rounding keeps the mantissa or adds one. *)
Lemma round_nearest_even_bounds (m : Z) (l : location) :
  m <= round_nearest_even m l <= m + 1.
Proof.
  destruct l as [ | [ | | ]]; cbn [round_nearest_even]; try lia.
  destruct (Z.even m); lia.
Qed.

(** The rounding of a mantissa of [d] digits, 53 at least, whose value is in
    the range of the normal Numbers: a Number of 53 digits, with the first 53
    digits of the mantissa or their successor, or the power of two above
    them. *)
Lemma binary_round_aux_normal (sx : bool) (mx : positive) (ex : Z)
  (lx : location) (d : Z) :
  Zpos (digits2_pos mx) = d -> 53 <= d ->
  -1074 <= ex + d - 53 -> ex + d - 53 <= 970 ->
  exists m3 e3,
    binary_round_aux prec emax sx (Zpos mx) ex lx = S754_finite sx m3 e3
    /\ Zpos (digits2_pos m3) = 53
    /\ ((e3 = ex + d - 53
         /\ Zpos mx / 2 ^ (d - 53) <= Zpos m3 <= Zpos mx / 2 ^ (d - 53) + 1)
        \/ (e3 = ex + d - 53 + 1 /\ Zpos m3 = 2 ^ 52
            /\ Zpos mx / 2 ^ (d - 53) = 2 ^ 53 - 1)).
Proof.
  intros Hd H53 Hlo Hhi. unfold binary_round_aux.
  destruct (shr_fexp_normal mx ex lx d Hd H53 Hlo) as (mrs & -> & Hm1).
  pose proof (digits2_bounds mx) as [Hmlo Hmhi]. rewrite Hd in Hmlo, Hmhi.
  assert (Hp : 0 < 2 ^ (d - 53)) by (apply Z.pow_pos_nonneg; lia).
  assert (H1 : 2 ^ 52 <= shr_m mrs < 2 ^ 53).
  { rewrite Hm1. split.
    - apply Z.div_le_lower_bound; [ exact Hp | ].
      rewrite <- Z.pow_add_r by lia.
      now replace (d - 53 + 52) with (d - 1) by lia.
    - apply Z.div_lt_upper_bound; [ exact Hp | ].
      rewrite <- Z.pow_add_r by lia.
      now replace (d - 53 + 53) with d by lia. }
  pose proof (round_nearest_even_bounds (shr_m mrs) (loc_of_shr_record mrs))
    as H2.
  set (m2 := round_nearest_even (shr_m mrs) (loc_of_shr_record mrs)) in *.
  destruct m2 as [ | q2 | q2 ] eqn:Em2; try lia.
  destruct (Z_lt_le_dec (Zpos q2) (2 ^ 53)) as [Hlt | Hge].
  - assert (Hd2 : Zpos (digits2_pos q2) = 53)
      by (apply digits2_unique; change (53 - 1) with 52; lia).
    destruct (shr_fexp_normal q2 (ex + d - 53) loc_Exact 53 Hd2)
      as (mrs2 & -> & Hm2); [ lia | lia | ].
    change (2 ^ (53 - 53)) with 1 in Hm2. rewrite Z.div_1_r in Hm2.
    rewrite Hm2.
    replace (ex + d - 53 + 53 - 53) with (ex + d - 53) by lia.
    replace (ex + d - 53 <=? emax - prec) with true
      by (symmetry; apply Z.leb_le; unfold emax, prec; lia).
    exists q2, (ex + d - 53). split; [ reflexivity | ].
    split; [ exact Hd2 | left ]. rewrite <- Hm1. lia.
  - assert (Hq : Zpos q2 = 2 ^ 53) by lia.
    assert (Hd2 : Zpos (digits2_pos q2) = 54)
      by (apply digits2_unique; rewrite Hq; change (54 - 1) with 53;
          change (2 ^ 54) with (2 * 2 ^ 53); lia).
    destruct (shr_fexp_normal q2 (ex + d - 53) loc_Exact 54 Hd2)
      as (mrs2 & -> & Hm2); [ lia | lia | ].
    rewrite Hq in Hm2. change (2 ^ 53 / 2 ^ (54 - 53)) with (2 ^ 52) in Hm2.
    rewrite Hm2. change (2 ^ 52) with (Zpos 4503599627370496).
    replace (ex + d - 53 + 54 - 53 <=? emax - prec) with true
      by (symmetry; apply Z.leb_le; unfold emax, prec; lia).
    exists 4503599627370496%positive, (ex + d - 53 + 1).
    split; [ f_equal; lia | ].
    split; [ reflexivity | right ].
    split; [ reflexivity | ]. split; [ reflexivity | ]. rewrite <- Hm1. lia.
Qed.

(** ** Comparison *)

(** Comparing the other way round gives the opposite result; a Number that
    is not NaN equals itself. *)
Lemma SFcompare_antisym (a b : spec_float) :
  SFcompare b a = option_map CompOpp (SFcompare a b).
Proof.
  destruct a as [sa | sa | | sa ma ea], b as [sb | sb | | sb mb eb];
    try destruct sa; try destruct sb; try reflexivity;
    cbn [SFcompare option_map]; f_equal;
    (destruct (Z.compare_spec ea eb), (Z.compare_spec eb ea); try lia;
     try reflexivity; subst;
     change (Pos.compare_cont Eq) with Pos.compare;
     destruct (Pos.compare_spec ma mb), (Pos.compare_spec mb ma);
     try lia; try reflexivity).
Qed.

Lemma SFcompare_refl (a : spec_float) :
  a <> S754_nan -> SFcompare a a = Some Eq.
Proof.
  destruct a as [sa | sa | | sa ma ea]; try destruct sa; try reflexivity;
    try congruence; intros _; cbn [SFcompare];
    rewrite Z.compare_refl; change (Pos.compare_cont Eq) with Pos.compare;
    now rewrite Pos.compare_refl.
Qed.

(** The order of two positive finite Numbers: by exponent, then by
    mantissa. *)
Lemma SFleb_pos (m1 : positive) (e1 : Z) (m2 : positive) (e2 : Z) :
  SFleb (S754_finite false m1 e1) (S754_finite false m2 e2) = true
  <-> e1 < e2 \/ (e1 = e2 /\ Zpos m1 <= Zpos m2).
Proof.
  unfold SFleb. cbn [SFcompare].
  destruct (Z.compare_spec e1 e2);
    [ | split; [ lia | reflexivity ] | split; [ discriminate | lia ] ].
  change (Pos.compare_cont Eq) with Pos.compare.
  destruct (Pos.compare_spec m1 m2); split;
    try reflexivity; try discriminate; lia.
Qed.

(** NaN is the one Number that [is_nan] holds of. *)
Lemma is_nan_Prim2SF (v : float) : is_nan v = true <-> Prim2SF v = S754_nan.
Proof.
  unfold is_nan. rewrite eqb_spec. unfold SFeqb. split.
  - intros H. destruct (Prim2SF v) eqn:E; try reflexivity;
      rewrite SFcompare_refl in H by discriminate; discriminate H.
  - now intros ->.
Qed.

Lemma is_nan_eq (v : float) : is_nan v = true -> v = nan.
Proof.
  intros H. apply is_nan_Prim2SF in H. apply Prim2SF_inj. now rewrite H.
Qed.

Lemma not_nan_finite (v : float) s m e :
  Prim2SF v = S754_finite s m e -> is_nan v = false.
Proof.
  intros E. destruct (is_nan v) eqn:H; [ | reflexivity ].
  apply is_nan_Prim2SF in H. congruence.
Qed.

Local Open Scope float_scope.

(** [<=] and [<] through the comparison. *)
Lemma leb_compare (a b : float) :
  (a <=? b) = match SFcompare (Prim2SF a) (Prim2SF b) with
              | Some Lt | Some Eq => true | _ => false end.
Proof. rewrite leb_spec. reflexivity. Qed.

Lemma ltb_compare (a b : float) :
  (a <? b) = match SFcompare (Prim2SF a) (Prim2SF b) with
             | Some Lt => true | _ => false end.
Proof. rewrite ltb_spec. reflexivity. Qed.

Lemma compare_not_nan (a b : float) :
  is_nan a = false -> is_nan b = false ->
  exists c, SFcompare (Prim2SF a) (Prim2SF b) = Some c.
Proof.
  intros Ha Hb.
  destruct (Prim2SF a) eqn:Ea;
    try (apply (proj2 (is_nan_Prim2SF a)) in Ea; congruence);
    destruct (Prim2SF b) eqn:Eb;
    try (apply (proj2 (is_nan_Prim2SF b)) in Eb; congruence);
    cbn [SFcompare]; eexists; reflexivity.
Qed.

(** [Math.min] of two Numbers that are not NaN is one of them and is below
    both. *)
Lemma Math_min_spec (a b : float) :
  is_nan a = false -> is_nan b = false ->
  (JS.Math_min a b = a \/ JS.Math_min a b = b)
  /\ (JS.Math_min a b <=? a) = true /\ (JS.Math_min a b <=? b) = true.
Proof.
  intros Ha Hb. unfold JS.Math_min. rewrite Ha, Hb. cbn [orb].
  destruct (compare_not_nan a b Ha Hb) as [c Hc].
  pose proof (SFcompare_antisym (Prim2SF a) (Prim2SF b)) as Hs.
  rewrite Hc in Hs. cbn [option_map] in Hs.
  assert (Haa : SFcompare (Prim2SF a) (Prim2SF a) = Some Eq)
    by (apply SFcompare_refl; intros E; apply is_nan_Prim2SF in E; congruence).
  assert (Hbb : SFcompare (Prim2SF b) (Prim2SF b) = Some Eq)
    by (apply SFcompare_refl; intros E; apply is_nan_Prim2SF in E; congruence).
  rewrite (ltb_compare a b), (ltb_compare b a), Hc, Hs.
  destruct c; cbn [CompOpp].
  - destruct (get_sign a); rewrite !leb_compare, ?Haa, ?Hbb, ?Hc, ?Hs; auto.
  - rewrite !leb_compare, Haa, Hc. auto.
  - rewrite !leb_compare, Hbb, Hs. auto.
Qed.

Lemma Math_max_spec (a b : float) :
  is_nan a = false -> is_nan b = false ->
  (JS.Math_max a b = a \/ JS.Math_max a b = b)
  /\ (a <=? JS.Math_max a b) = true /\ (b <=? JS.Math_max a b) = true.
Proof.
  intros Ha Hb. unfold JS.Math_max. rewrite Ha, Hb. cbn [orb].
  destruct (compare_not_nan a b Ha Hb) as [c Hc].
  pose proof (SFcompare_antisym (Prim2SF a) (Prim2SF b)) as Hs.
  rewrite Hc in Hs. cbn [option_map] in Hs.
  assert (Haa : SFcompare (Prim2SF a) (Prim2SF a) = Some Eq)
    by (apply SFcompare_refl; intros E; apply is_nan_Prim2SF in E; congruence).
  assert (Hbb : SFcompare (Prim2SF b) (Prim2SF b) = Some Eq)
    by (apply SFcompare_refl; intros E; apply is_nan_Prim2SF in E; congruence).
  rewrite (ltb_compare a b), (ltb_compare b a), Hc, Hs.
  destruct c; cbn [CompOpp].
  - destruct (get_sign a); rewrite !leb_compare, ?Haa, ?Hbb, ?Hc, ?Hs; auto.
  - rewrite !leb_compare, Hbb, Hc. auto.
  - rewrite !leb_compare, Haa, Hs. auto.
Qed.

(** ** Numbers in the range of the zoom factor *)

(** A Number from 0.1 to 5 is positive and normal, of exponent from -56 to
    -50. *)
Lemma inRange_decode (z : float) :
  inRange z = true ->
  exists m e,
    Prim2SF z = S754_finite false m e
    /\ Zpos (digits2_pos m) = 53%Z
    /\ (-56 <= e <= -50)%Z
    /\ (e = -56 -> 7205759403792794 <= Zpos m)%Z
    /\ (e = -50 -> Zpos m <= 5629499534213120)%Z.
Proof.
  unfold inRange. intros H. apply andb_true_iff in H as [Hlo Hhi].
  rewrite leb_spec in Hlo, Hhi.
  change (Prim2SF lit_0_1)
    with (S754_finite false 7205759403792794 (-56)) in Hlo.
  change (Prim2SF 5) with (S754_finite false 5629499534213120 (-50)) in Hhi.
  pose proof (Prim2SF_valid z) as Hv.
  destruct (Prim2SF z) as [s | s | | s m e]; try destruct s; try discriminate.
  apply SFleb_pos in Hlo, Hhi.
  exists m, e. split; [ reflexivity | ].
  cbn [valid_binary] in Hv. unfold bounded, canonical_mantissa in Hv.
  apply andb_true_iff in Hv as [Hc _]. apply Z.eqb_eq in Hc.
  unfold fexp, SpecFloat.emin, prec, emax in Hc. lia.
Qed.

Local Open Scope Z_scope.

Lemma digits2_53 (m : positive) :
  Zpos (digits2_pos m) = 53 ->
  4503599627370496 <= Zpos m < 9007199254740992.
Proof.
  intros H. pose proof (digits2_bounds m) as B. rewrite H in B. exact B.
Qed.

(** The product of a Number in the range and of a positive normal constant
    of exponent [ec]: a positive normal Number, of mantissa the product of
    the mantissas shifted by [d - 53] digits, rounded. *)
Lemma mul_in_range (z c : float) (mc : positive) (ec : Z) :
  inRange z = true ->
  Prim2SF c = S754_finite false mc ec -> Zpos (digits2_pos mc) = 53 ->
  -60 <= ec <= 0 ->
  exists m e m3 e3 d,
    Prim2SF z = S754_finite false m e
    /\ Prim2SF (z * c)%float = S754_finite false m3 e3
    /\ (d = 105 \/ d = 106)
    /\ ((e3 = e + ec + d - 53
         /\ Zpos m * Zpos mc / 2 ^ (d - 53) <= Zpos m3)
        \/ (e3 = e + ec + d - 53 + 1 /\ Zpos m3 = 2 ^ 52)).
Proof.
  intros Hz Hc Hdc Hec.
  destruct (inRange_decode z Hz) as (m & e & Ez & Hd & He & _).
  pose proof (digits2_53 m Hd) as Bm. pose proof (digits2_53 mc Hdc) as Bc.
  pose proof (digits2_bounds (m * mc)) as [Blo Bhi].
  rewrite Pos2Z.inj_mul in Blo, Bhi.
  set (d := Zpos (digits2_pos (m * mc))) in *.
  assert (Hd105 : 105 <= d).
  { destruct (Z_lt_le_dec d 105) as [Hlt | ]; [ exfalso | assumption ].
    assert (2 ^ d <= 2 ^ 104) by (apply Z.pow_le_mono_r; lia).
    change (2 ^ 104) with (4503599627370496 * 4503599627370496) in *. nia. }
  assert (Hd106 : d <= 106).
  { destruct (Z_lt_le_dec 106 d) as [Hlt | ]; [ exfalso | assumption ].
    assert (2 ^ 106 <= 2 ^ (d - 1)) by (apply Z.pow_le_mono_r; lia).
    change (2 ^ 106) with (9007199254740992 * 9007199254740992) in *. nia. }
  destruct (binary_round_aux_normal false (m * mc) (e + ec) loc_Exact d eq_refl)
    as (m3 & e3 & E3 & _ & Hcases); try lia.
  exists m, e, m3, e3, d. split; [ exact Ez | ].
  split; [ rewrite mul_spec, Ez, Hc; exact E3 | ].
  split; [ lia | ].
  rewrite Pos2Z.inj_mul in Hcases.
  destruct Hcases as [[He3 Hm3] | (He3 & Hm3 & _)]; [ left | right ]; tauto.
Qed.

(** The quotient of a Number in the range by 1.2: a positive normal Number
    that is not above 5. *)
Lemma div_1_2_in_range (z : float) :
  inRange z = true ->
  is_nan (z / lit_1_2)%float = false /\ (z / lit_1_2 <=? 5)%float = true.
Proof.
  intros Hz.
  destruct (inRange_decode z Hz) as (m & e & Ez & Hd & He & _ & Hhi).
  pose proof (digits2_53 m Hd) as Bm.
  assert (E : exists m3 e3,
             Prim2SF (z / lit_1_2)%float = S754_finite false m3 e3
             /\ (e3 < -50 \/ (e3 = -50 /\ Zpos m3 <= 5629499534213120))).
  { rewrite div_spec, Ez.
    change (Prim2SF lit_1_2) with (S754_finite false 5404319552844595 (-52)).
    unfold SF64div, SFdiv, SFdiv_core_binary. cbn [xorb Zdigits2].
    rewrite Hd. change (Z.pos (digits2_pos 5404319552844595)) with 53.
    replace (Z.min (fexp prec emax (53 + e - (53 + -52))) (e - -52))
      with (e - 1)
      by (unfold fexp, SpecFloat.emin, prec, emax; lia).
    replace (e - -52 - (e - 1)) with 53 by lia. cbv iota.
    rewrite Z.shiftl_mul_pow2 by lia.
    change (2 ^ 53) with 9007199254740992.
    pose proof (Z_div_mod (Zpos m * 9007199254740992) 5404319552844595 eq_refl)
      as Hqr.
    destruct (Z.div_eucl (Zpos m * 9007199254740992) 5404319552844595)
      as [q r].
    destruct Hqr as [Hq Hr].
    destruct q as [ | q | q ]; try lia.
    pose proof (digits2_bounds q) as [Blo Bhi].
    set (d := Zpos (digits2_pos q)) in *.
    assert (Hd53 : 53 <= d).
    { destruct (Z_lt_le_dec d 53) as [Hlt | ]; [ exfalso | assumption ].
      assert (2 ^ d <= 2 ^ 52) by (apply Z.pow_le_mono_r; lia).
      change (2 ^ 52) with 4503599627370496 in *. lia. }
    assert (Hd54 : d <= 54).
    { destruct (Z_lt_le_dec 54 d) as [Hlt | ]; [ exfalso | assumption ].
      assert (2 ^ 54 <= 2 ^ (d - 1)) by (apply Z.pow_le_mono_r; lia).
      change (2 ^ 54) with 18014398509481984 in *. lia. }
    destruct (binary_round_aux_normal false q (e - 1)
                (new_location 5404319552844595 r) d eq_refl)
      as (m3 & e3 & E3 & _ & Hcases); try lia.
    exists m3, e3. split; [ exact E3 | ].
    assert (Hd' : d = 53 \/ d = 54) by lia.
    destruct Hd' as [-> | ->].
    - change (2 ^ (53 - 53)) with 1 in Hcases. rewrite Z.div_1_r in Hcases.
      change (2 ^ 52) with 4503599627370496 in Hcases. lia.
    - change (2 ^ (54 - 53)) with 2 in Hcases.
      change (2 ^ 52) with 4503599627370496 in Hcases.
      change (2 ^ 53 - 1) with 9007199254740991 in Hcases.
      pose proof (Z_div_mod (Zpos q) 2 eq_refl) as Hq2.
      unfold Z.div in Hcases.
      destruct (Z.div_eucl (Zpos q) 2) as [q2 r2]. cbn [fst] in Hcases. lia. }
  destruct E as (m3 & e3 & E3 & Hle).
  split; [ exact (not_nan_finite _ _ _ _ E3) | ].
  rewrite leb_spec, E3.
  change (Prim2SF 5) with (S754_finite false 5629499534213120 (-50)).
  apply SFleb_pos. lia.
Qed.

(** The product of a Number in the range by 1.2 is not below 0.1. *)
Lemma mul_1_2_in_range (z : float) :
  inRange z = true ->
  is_nan (z * lit_1_2)%float = false /\ (lit_0_1 <=? z * lit_1_2)%float = true.
Proof.
  intros Hz.
  destruct (inRange_decode z Hz) as (m & e & Ez & Hd & He & Hlo & _).
  destruct (mul_in_range z lit_1_2 5404319552844595 (-52) Hz eq_refl eq_refl)
    as (m' & e' & m3 & e3 & d & Ez' & E3 & Hd' & Hcases); [ lia | ].
  rewrite Ez in Ez'. injection Ez' as <- <-.
  split; [ exact (not_nan_finite _ _ _ _ E3) | ].
  rewrite leb_spec, E3.
  change (Prim2SF lit_0_1) with (S754_finite false 7205759403792794 (-56)).
  apply SFleb_pos. pose proof (digits2_53 m Hd) as Bm.
  destruct Hd' as [-> | ->].
  - change (2 ^ (105 - 53)) with 4503599627370496 in Hcases.
    change (2 ^ 52) with 4503599627370496 in Hcases.
    pose proof (Z_div_mod (Zpos m * 5404319552844595) 4503599627370496 eq_refl)
      as Hq.
    unfold Z.div in Hcases.
    destruct (Z.div_eucl (Zpos m * 5404319552844595) 4503599627370496)
      as [q r]. cbn [fst] in Hcases. lia.
  - lia.
Qed.

(** The product of a Number in the range by 0.9 or by 1.1 is a Number. *)
Lemma mul_delta_not_nan (z : float) :
  inRange z = true ->
  is_nan (z * lit_0_9)%float = false /\ is_nan (z * lit_1_1)%float = false.
Proof.
  intros Hz. split.
  - destruct (mul_in_range z lit_0_9 8106479329266893 (-53) Hz eq_refl eq_refl)
      as (_ & _ & m3 & e3 & _ & _ & E3 & _); [ lia | ].
    exact (not_nan_finite _ _ _ _ E3).
  - destruct (mul_in_range z lit_1_1 4953959590107546 (-52) Hz eq_refl eq_refl)
      as (_ & _ & m3 & e3 & _ & _ & E3 & _); [ lia | ].
    exact (not_nan_finite _ _ _ _ E3).
Qed.

Lemma inRange_not_nan (z : float) : inRange z = true -> is_nan z = false.
Proof.
  intros Hz. destruct (inRange_decode z Hz) as (m & e & Ez & _).
  exact (not_nan_finite _ _ _ _ Ez).
Qed.

Lemma inRange_iff (z : float) :
  inRange z = true <-> (lit_0_1 <=? z)%float = true /\ (z <=? 5)%float = true.
Proof. unfold inRange. apply andb_true_iff. Qed.

Lemma handleZoomIn_inRange (z : float) :
  inRange z = true -> inRange (handleZoomIn z) = true.
Proof.
  intros Hz. destruct (mul_1_2_in_range z Hz) as [Hn Hlo].
  unfold handleZoomIn.
  destruct (Math_min_spec (z * lit_1_2) 5 Hn eq_refl) as ([-> | ->] & _ & Hle).
  - apply inRange_iff. now split.
  - reflexivity.
Qed.

Lemma handleZoomOut_inRange (z : float) :
  inRange z = true -> inRange (handleZoomOut z) = true.
Proof.
  intros Hz. destruct (div_1_2_in_range z Hz) as [Hn Hhi].
  unfold handleZoomOut.
  destruct (Math_max_spec (z / lit_1_2) lit_0_1 Hn eq_refl)
    as ([-> | ->] & _ & Hge).
  - apply inRange_iff. now split.
  - reflexivity.
Qed.

Lemma handleWheel_inRange (deltaY z : float) :
  inRange z = true -> inRange (handleWheel deltaY z) = true.
Proof.
  intros Hz. destruct (mul_delta_not_nan z Hz) as [H09 H11].
  unfold handleWheel. cbv zeta.
  set (delta := if (0 <? deltaY)%float then lit_0_9 else lit_1_1).
  assert (Hn : is_nan (z * delta)%float = false)
    by (unfold delta; destruct (0 <? deltaY)%float; assumption).
  set (p := (z * delta)%float) in *.
  destruct (Math_min_spec 5 p eq_refl Hn) as (Hor & Hle & _).
  assert (Hn1 : is_nan (JS.Math_min 5 p) = false)
    by (destruct Hor as [-> | ->]; [ reflexivity | exact Hn ]).
  destruct (Math_max_spec lit_0_1 (JS.Math_min 5 p) eq_refl Hn1)
    as ([-> | ->] & Hge & _).
  - reflexivity.
  - apply inRange_iff. now split.
Qed.

Local Open Scope float_scope.

(** A positive Number divided by zero is [Infinity]. *)
Lemma div_positive_by_zero (w : float) :
  (0 <? w) = true -> w / 0 = infinity.
Proof.
  intros H. apply Prim2SF_inj. rewrite div_spec. rewrite ltb_spec in H.
  change (Prim2SF 0) with (S754_zero false) in *.
  destruct (Prim2SF w) as [s | s | | s m e]; try destruct s;
    try discriminate H; reflexivity.
Qed.

(** [Infinity] is neutral for [Math.min]. *)
Lemma Math_min_infinity_l (v : float) : JS.Math_min infinity v = v.
Proof.
  unfold JS.Math_min. change (is_nan infinity) with false. cbn [orb].
  destruct (is_nan v) eqn:Hn; [ symmetry; now apply is_nan_eq | ].
  rewrite (ltb_compare infinity v), (ltb_compare v infinity).
  change (Prim2SF infinity) with (S754_infinity false).
  change (get_sign infinity) with false.
  destruct (Prim2SF v) as [s | s | | s m e] eqn:E; try destruct s;
    reflexivity.
Qed.

Lemma Math_min_infinity_r (v : float) : JS.Math_min v infinity = v.
Proof.
  unfold JS.Math_min. change (is_nan infinity) with false.
  rewrite orb_false_r.
  destruct (is_nan v) eqn:Hn; [ symmetry; now apply is_nan_eq | ].
  rewrite (ltb_compare infinity v), (ltb_compare v infinity).
  change (Prim2SF infinity) with (S754_infinity false).
  destruct (Prim2SF v) as [s | s | | s m e] eqn:E; try destruct s;
    try reflexivity.
  - assert (v = infinity) as -> by (apply Prim2SF_inj; now rewrite E).
    reflexivity.
  - apply (proj2 (is_nan_Prim2SF v)) in E. congruence.
Qed.

(** ** The order of Numbers *)

Lemma SFleb_trans (a b c : spec_float) :
  SFleb a b = true -> SFleb b c = true -> SFleb a c = true.
Proof.
  unfold SFleb.
  destruct a as [sa | sa | | sa ma ea], b as [sb | sb | | sb mb eb],
    c as [sc | sc | | sc mc ec];
    try destruct sa; try destruct sb; try destruct sc;
    cbn [SFcompare]; try discriminate; try reflexivity;
    change (Pos.compare_cont Eq) with Pos.compare;
    destruct (Z.compare_spec ea eb), (Z.compare_spec eb ec),
      (Z.compare_spec ea ec); try lia; try discriminate; try reflexivity;
    destruct (Pos.compare_spec ma mb), (Pos.compare_spec mb mc),
      (Pos.compare_spec ma mc); cbn [CompOpp];
    try lia; try discriminate; try reflexivity.
Qed.

Lemma leb_trans (a b c : float) :
  (a <=? b)%float = true -> (b <=? c)%float = true -> (a <=? c)%float = true.
Proof. rewrite !leb_spec. apply SFleb_trans. Qed.

Lemma leb_refl (a : float) : is_nan a = false -> (a <=? a)%float = true.
Proof.
  intros H. rewrite leb_compare, SFcompare_refl; [ reflexivity | ].
  intros E. apply is_nan_Prim2SF in E. congruence.
Qed.

Lemma Math_min_not_nan (a b : float) :
  is_nan a = false -> is_nan b = false -> is_nan (JS.Math_min a b) = false.
Proof.
  intros Ha Hb. destruct (Math_min_spec a b Ha Hb) as ([-> | ->] & _);
    assumption.
Qed.

Lemma Math_max_not_nan (a b : float) :
  is_nan a = false -> is_nan b = false -> is_nan (JS.Math_max a b) = false.
Proof.
  intros Ha Hb. destruct (Math_max_spec a b Ha Hb) as ([-> | ->] & _);
    assumption.
Qed.

(** Adding a vertex keeps the bounds numeric, makes them hold the vertex and
    keeps every vertex they held. *)
Lemma addVertex_holds (b : bounds) (v : point) :
  numericBounds b -> numeric v ->
  numericBounds (addVertex b v) /\ holds (addVertex b v) v
  /\ forall u, holds b u -> holds (addVertex b v) u.
Proof.
  intros (Hx0 & Hy0 & Hx1 & Hy1) (Hvx & Hvy).
  destruct (Math_min_spec (minX b) (x v) Hx0 Hvx) as (_ & Hminx & Hminx').
  destruct (Math_min_spec (minY b) (y v) Hy0 Hvy) as (_ & Hminy & Hminy').
  destruct (Math_max_spec (maxX b) (x v) Hx1 Hvx) as (_ & Hmaxx & Hmaxx').
  destruct (Math_max_spec (maxY b) (y v) Hy1 Hvy) as (_ & Hmaxy & Hmaxy').
  split; [ | split ].
  - repeat split; cbn [addVertex minX minY maxX maxY];
      auto using Math_min_not_nan, Math_max_not_nan.
  - repeat split; assumption.
  - intros u (H1 & H2 & H3 & H4). repeat split;
      cbn [addVertex minX minY maxX maxY]; eauto using leb_trans.
Qed.

Lemma fold_addVertex_holds (vs : list point) :
  forall b, numericBounds b -> Forall numeric vs ->
  numericBounds (fold_left addVertex vs b)
  /\ (forall u, In u vs -> holds (fold_left addVertex vs b) u)
  /\ (forall u, holds b u -> holds (fold_left addVertex vs b) u).
Proof.
  induction vs as [ | v vs IH ]; intros b Hb Hvs; cbn [fold_left].
  - split; [ exact Hb | ]. split; [ intros u [] | auto ].
  - inversion Hvs as [ | v' vs' Hv Hvs' ]; subst.
    destruct (addVertex_holds b v Hb Hv) as (Hb' & Hhv & Hkeep).
    destruct (IH _ Hb' Hvs') as (Hb'' & Hin & Hkeep').
    split; [ exact Hb'' | ]. split.
    + intros u [<- | Hu]; auto.
    + auto.
Qed.

Lemma fold_entities_holds (es : list entity) :
  forall b, numericBounds b ->
  Forall (fun e => Forall numeric (vertices e)) es ->
  let b' := fold_left (fun b e => fold_left addVertex (vertices e) b) es b in
  numericBounds b'
  /\ (forall e u, In e es -> In u (vertices e) -> holds b' u)
  /\ (forall u, holds b u -> holds b' u).
Proof.
  induction es as [ | e es IH ]; intros b Hb Hes; cbn [fold_left].
  - split; [ exact Hb | ]. split; [ intros e u [] | auto ].
  - inversion Hes as [ | e' es' He Hes' ]; subst.
    destruct (fold_addVertex_holds (vertices e) b Hb He) as (Hb' & Hin & Hkeep).
    destruct (IH _ Hb' Hes') as (Hb'' & Hin' & Hkeep').
    split; [ exact Hb'' | ]. split.
    + intros e0 u [<- | He0] Hu; eauto.
    + auto.
Qed.

End Binary64.

(** * Properties of the scale and of the zoom *)

(** ** Extents that are zero *)

(** C6, as the code has it. No epsilon replaces an extent that is zero: the
    scale is [min(width / dx, height / dy) * 0.8] on the extents as they
    are. For a positive width and height, when [dx] is zero [width / dx] is
    [Infinity] and the scale is [height / dy * 0.8]; when [dy] is zero the
    scale is [width / dx * 0.8]; when both are zero the scale is [Infinity]
    and the transform is written with [scale(Infinity)]. The markup is
    produced all the same, with a path element for every drawable
    entity. *)
Theorem zero_extent_is_not_replaced (es : list entity) (width height : float) :
  (0 <? width)%float = true -> (0 <? height)%float = true ->
  let b := findBounds es in
  (dx b = 0%float ->
     (width / dx b)%float = infinity
     /\ scaleOf b width height = (height / dy b * lit_0_8)%float)
  /\ (dy b = 0%float ->
        (height / dy b)%float = infinity
        /\ scaleOf b width height = (width / dx b * lit_0_8)%float)
  /\ (dx b = 0%float -> dy b = 0%float ->
        scaleOf b width height = infinity
        /\ groupOpen b width height
           = "<g transform=" ++ dq
               ++ "translate(" ++ str (width / 2) ++ ", "
               ++ str (height / 2) ++ ")"
               ++ " scale(" ++ "Infinity" ++ ")"
               ++ " translate(" ++ str (- centerX b) ++ ", "
               ++ str (- centerY b) ++ ")" ++ dq ++ ">")
  /\ convertDxfToSvg es width height
     = svgOpen width height ++ groupOpen b width height
         ++ pathElements es ++ "</g></svg>"
  /\ pathCount (convertDxfToSvg es width height)
     = List.length (filter drawable es).
Proof.
  intros Hw Hh b.
  assert (Hx : dx b = 0%float ->
               (width / dx b)%float = infinity
               /\ scaleOf b width height = (height / dy b * lit_0_8)%float).
  { intros E. unfold scaleOf. rewrite E, (div_positive_by_zero width Hw).
    now rewrite Math_min_infinity_l. }
  assert (Hy : dy b = 0%float ->
               (height / dy b)%float = infinity
               /\ scaleOf b width height = (width / dx b * lit_0_8)%float).
  { intros E. unfold scaleOf. rewrite E, (div_positive_by_zero height Hh).
    now rewrite Math_min_infinity_r. }
  split; [ exact Hx | ]. split; [ exact Hy | ]. split.
  - intros Ex Ey.
    assert (Hs : scaleOf b width height = infinity).
    { destruct (Hx Ex) as [_ ->]. now rewrite (proj1 (Hy Ey)). }
    split; [ exact Hs | ]. unfold groupOpen. now rewrite Hs.
  - split; [ reflexivity | apply pathCount_convertDxfToSvg ].
Qed.

(** A single point in a viewport of 800 by 600: both extents are zero and
    the scale is [Infinity]. *)
Lemma zero_extent_is_not_replaced_witness :
  dx (findBounds [Sample.onePoint]) = 0%float
  /\ dy (findBounds [Sample.onePoint]) = 0%float
  /\ scaleOf (findBounds [Sample.onePoint]) 800 600 = infinity
  /\ pathCount (convertDxfToSvg [Sample.onePoint] 800 600) = 1.
Proof.
  destruct (zero_extent_is_not_replaced [Sample.onePoint] 800 600
              eq_refl eq_refl) as (_ & _ & Hboth & _ & Hcount).
  split; [ reflexivity | ]. split; [ reflexivity | ].
  split; [ exact (proj1 (Hboth eq_refl eq_refl)) | exact Hcount ].
Defined.

(** C6 fails on the code: for a single point the scale is [Infinity], and
    for a vertical segment [width / dx] is [Infinity], the extent zero being
    used as it is. *)
Lemma single_point_scale_is_infinite :
  scaleOf (findBounds [Sample.onePoint]) 800 600 = infinity
  /\ dx (findBounds [Sample.verticalSegment]) = 0%float
  /\ (800 / dx (findBounds [Sample.verticalSegment]))%float = infinity
  /\ groupOpen (findBounds [Sample.onePoint]) 800 600
     = "<g transform=" ++ dq
         ++ "translate(400, 300) scale(Infinity) translate(-5, -5)"
         ++ dq ++ ">".
Proof. repeat split; vm_compute; reflexivity. Qed.

(** ** The bounds *)

(** The bounds hold every vertex: when no coordinate is NaN, every vertex of
    every entity lies between [minX] and [maxX] and between [minY] and
    [maxY]. *)
Theorem bounds_hold_every_vertex (es : list entity) :
  Forall (fun e => Forall numeric (vertices e)) es ->
  forall e v, In e es -> In v (vertices e) ->
  (minX (findBounds es) <=? x v)%float = true
  /\ (x v <=? maxX (findBounds es))%float = true
  /\ (minY (findBounds es) <=? y v)%float = true
  /\ (y v <=? maxY (findBounds es))%float = true.
Proof.
  intros Hes e v He Hv.
  destruct (fold_entities_holds es noBounds) as (_ & Hin & _);
    [ repeat split | exact Hes | ].
  exact (Hin e v He Hv).
Qed.

(** The corners of the sheet lie within the bounds of the sheet and the
    part. *)
Lemma bounds_hold_every_vertex_witness :
  (minX (findBounds [Sample.sheet; Sample.part]) <=? 100)%float = true
  /\ (100 <=? maxX (findBounds [Sample.sheet; Sample.part]))%float = true
  /\ (minY (findBounds [Sample.sheet; Sample.part]) <=? 50)%float = true
  /\ (50 <=? maxY (findBounds [Sample.sheet; Sample.part]))%float = true.
Proof.
  apply (bounds_hold_every_vertex [Sample.sheet; Sample.part]
           ltac:(repeat constructor) Sample.sheet {| x := 100; y := 50 |}).
  - now left.
  - cbn. tauto.
Defined.

(** ** The zoom factor *)

Lemma applyZoom_inRange (zoom : float) (a : zoomAction) :
  inRange zoom = true -> inRange (applyZoom zoom a) = true.
Proof.
  intros H. destruct a as [ | | deltaY | ]; cbn [applyZoom].
  - now apply handleZoomIn_inRange.
  - now apply handleZoomOut_inRange.
  - now apply handleWheel_inRange.
  - reflexivity.
Qed.

Lemma fold_applyZoom_inRange (actions : list zoomAction) :
  forall zoom, inRange zoom = true ->
  inRange (fold_left applyZoom actions zoom) = true.
Proof.
  induction actions as [ | a actions IH ]; intros zoom H; [ exact H | ].
  cbn [fold_left]. apply IH. now apply applyZoom_inRange.
Qed.

(** C8. After every sequence of zoom-in, zoom-out, wheel and reset actions
    on a fresh viewer, whose zoom factor is 1, the zoom factor is at least
    0.1 and at most 5. Three wheel ticks away from the user (a [deltaY] that
    is not positive, the multiplier 1.1) take the factor from 1 to
    1.3310000000000004, less than [2^-50] away from 1.331. *)
Theorem zoom_stays_in_range :
  (forall actions, inRange (zoomAfter actions) = true)
  /\ zoomAfter [Wheel (-100); Wheel (-100); Wheel (-100)]
     = JS.parseFloat "1.3310000000000004"
  /\ (abs (zoomAfter [Wheel (-100); Wheel (-100); Wheel (-100)]
            - JS.parseFloat "1.331") <? 0x1p-50)%float = true.
Proof.
  split; [ | split; vm_compute; reflexivity ].
  intros actions. unfold zoomAfter. apply fold_applyZoom_inRange. reflexivity.
Qed.

(** * The arithmetic of Numbers, continued

    What the further properties need: NaN in the bounds, the direction of
    the zoom steps, and the exact difference of integers. *)

Section MoreBinary64.

Local Open Scope float_scope.

(** ** NaN *)

Lemma Math_min_nan_r (v : float) : JS.Math_min v nan = nan.
Proof.
  unfold JS.Math_min. change (is_nan nan) with true. now rewrite orb_true_r.
Qed.

Lemma Math_max_nan_r (v : float) : JS.Math_max v nan = nan.
Proof.
  unfold JS.Math_max. change (is_nan nan) with true. now rewrite orb_true_r.
Qed.

(** [Math.min] and [Math.max] return one of their arguments, NaN
    included. *)
Lemma Math_min_either (a b : float) :
  JS.Math_min a b = a \/ JS.Math_min a b = b.
Proof.
  destruct (is_nan a) eqn:Ha.
  - apply is_nan_eq in Ha. subst a. now left.
  - destruct (is_nan b) eqn:Hb.
    + apply is_nan_eq in Hb. subst b. right. apply Math_min_nan_r.
    + apply Math_min_spec; assumption.
Qed.

Lemma Math_max_either (a b : float) :
  JS.Math_max a b = a \/ JS.Math_max a b = b.
Proof.
  destruct (is_nan a) eqn:Ha.
  - apply is_nan_eq in Ha. subst a. now left.
  - destruct (is_nan b) eqn:Hb.
    + apply is_nan_eq in Hb. subst b. right. apply Math_max_nan_r.
    + apply Math_max_spec; assumption.
Qed.

(** [-Infinity] is neutral for [Math.max]. *)
Lemma Math_max_neg_infinity_l (v : float) : JS.Math_max neg_infinity v = v.
Proof.
  unfold JS.Math_max. change (is_nan neg_infinity) with false. cbn [orb].
  destruct (is_nan v) eqn:Hn; [ symmetry; now apply is_nan_eq | ].
  rewrite (ltb_compare neg_infinity v), (ltb_compare v neg_infinity).
  change (Prim2SF neg_infinity) with (S754_infinity true).
  change (get_sign neg_infinity) with true.
  destruct (Prim2SF v) as [s | s | | s m e] eqn:E; try destruct s;
    reflexivity.
Qed.

(** NaN spreads through a difference and a quotient. *)
Lemma div_nan_r (w : float) : w / nan = nan.
Proof.
  apply Prim2SF_inj. rewrite div_spec.
  change (Prim2SF nan) with S754_nan.
  now destruct (Prim2SF w) as [s | s | | s m e].
Qed.

Lemma sub_nan_l (v : float) : nan - v = nan.
Proof. apply Prim2SF_inj. rewrite sub_spec. reflexivity. Qed.

(** ** Strict order *)

Lemma ltb_leb (a b : float) : (a <? b) = true -> (a <=? b) = true.
Proof.
  rewrite ltb_compare, leb_compare.
  now destruct (SFcompare (Prim2SF a) (Prim2SF b)) as [[ | | ] | ].
Qed.

Lemma ltb_not_nan (a b : float) :
  (a <? b) = true -> is_nan a = false /\ is_nan b = false.
Proof.
  rewrite ltb_compare. intros H. split.
  - destruct (is_nan a) eqn:Hn; [ | reflexivity ].
    apply is_nan_Prim2SF in Hn. rewrite Hn in H. discriminate H.
  - destruct (is_nan b) eqn:Hn; [ | reflexivity ].
    apply is_nan_Prim2SF in Hn. rewrite Hn in H.
    now destruct (Prim2SF a).
Qed.

Local Open Scope Z_scope.

(** The strict order of two positive finite Numbers: by exponent, then by
    mantissa. *)
Lemma SFltb_pos (m1 : positive) (e1 : Z) (m2 : positive) (e2 : Z) :
  SFltb (S754_finite false m1 e1) (S754_finite false m2 e2) = true
  <-> e1 < e2 \/ (e1 = e2 /\ Zpos m1 < Zpos m2).
Proof.
  unfold SFltb. cbn [SFcompare].
  destruct (Z.compare_spec e1 e2);
    [ | split; [ lia | reflexivity ] | split; [ discriminate | lia ] ].
  change (Pos.compare_cont Eq) with Pos.compare.
  destruct (Pos.compare_spec m1 m2); split;
    try reflexivity; try discriminate; lia.
Qed.

(** ** The direction of a zoom step *)

(** The product of a Number in the range and of a positive normal constant,
    with both bounds of the rounded mantissa. *)
Lemma mul_in_range_bounds (z c : float) (mc : positive) (ec : Z) :
  inRange z = true ->
  Prim2SF c = S754_finite false mc ec -> Zpos (digits2_pos mc) = 53 ->
  -60 <= ec <= 0 ->
  exists m e m3 e3 d,
    Prim2SF z = S754_finite false m e
    /\ Zpos (digits2_pos m) = 53
    /\ Prim2SF (z * c)%float = S754_finite false m3 e3
    /\ (d = 105 \/ d = 106)
    /\ ((e3 = e + ec + d - 53
         /\ Zpos m * Zpos mc / 2 ^ (d - 53) <= Zpos m3
            <= Zpos m * Zpos mc / 2 ^ (d - 53) + 1)
        \/ (e3 = e + ec + d - 53 + 1 /\ Zpos m3 = 2 ^ 52
            /\ Zpos m * Zpos mc / 2 ^ (d - 53) = 2 ^ 53 - 1)).
Proof.
  intros Hz Hc Hdc Hec.
  destruct (inRange_decode z Hz) as (m & e & Ez & Hd & He & _).
  pose proof (digits2_53 m Hd) as Bm. pose proof (digits2_53 mc Hdc) as Bc.
  pose proof (digits2_bounds (m * mc)) as [Blo Bhi].
  rewrite Pos2Z.inj_mul in Blo, Bhi.
  set (d := Zpos (digits2_pos (m * mc))) in *.
  assert (Hd105 : 105 <= d).
  { destruct (Z_lt_le_dec d 105) as [Hlt | ]; [ exfalso | assumption ].
    assert (2 ^ d <= 2 ^ 104) by (apply Z.pow_le_mono_r; lia).
    change (2 ^ 104) with (4503599627370496 * 4503599627370496) in *. nia. }
  assert (Hd106 : d <= 106).
  { destruct (Z_lt_le_dec 106 d) as [Hlt | ]; [ exfalso | assumption ].
    assert (2 ^ 106 <= 2 ^ (d - 1)) by (apply Z.pow_le_mono_r; lia).
    change (2 ^ 106) with (9007199254740992 * 9007199254740992) in *. nia. }
  destruct (binary_round_aux_normal false (m * mc) (e + ec) loc_Exact d eq_refl)
    as (m3 & e3 & E3 & _ & Hcases); try lia.
  exists m, e, m3, e3, d. split; [ exact Ez | ]. split; [ exact Hd | ].
  split; [ rewrite mul_spec, Ez, Hc; exact E3 | ].
  split; [ lia | ].
  rewrite Pos2Z.inj_mul in Hcases. exact Hcases.
Qed.

(** The quotient and the remainder of [a] by [b], named. *)
Ltac quotient a b :=
  let H := fresh "Hdiv" in
  pose proof (Z_div_mod a b eq_refl) as H;
  unfold Z.div in *;
  destruct (Z.div_eucl a b) as [? ?]; cbn [fst] in *.

(** Multiplying by 1.2 or by 1.1 raises a Number in the range, multiplying
    by 0.9 or dividing by 1.2 lowers it. *)
Lemma mul_1_2_above (z : float) :
  inRange z = true -> (z <? z * lit_1_2)%float = true.
Proof.
  intros Hz.
  destruct (mul_in_range_bounds z lit_1_2 5404319552844595 (-52) Hz
              eq_refl eq_refl)
    as (m & e & m3 & e3 & d & Ez & Hd & E3 & Hd' & Hcases); [ lia | ].
  pose proof (digits2_53 m Hd) as Bm.
  rewrite ltb_spec, Ez, E3. apply SFltb_pos.
  destruct Hd' as [-> | ->].
  - change (2 ^ (105 - 53)) with 4503599627370496 in Hcases.
    change (2 ^ 52) with 4503599627370496 in Hcases.
    quotient (Zpos m * 5404319552844595) 4503599627370496. lia.
  - lia.
Qed.

Lemma mul_1_1_above (z : float) :
  inRange z = true -> (z <? z * lit_1_1)%float = true.
Proof.
  intros Hz.
  destruct (mul_in_range_bounds z lit_1_1 4953959590107546 (-52) Hz
              eq_refl eq_refl)
    as (m & e & m3 & e3 & d & Ez & Hd & E3 & Hd' & Hcases); [ lia | ].
  pose proof (digits2_53 m Hd) as Bm.
  rewrite ltb_spec, Ez, E3. apply SFltb_pos.
  destruct Hd' as [-> | ->].
  - change (2 ^ (105 - 53)) with 4503599627370496 in Hcases.
    change (2 ^ 52) with 4503599627370496 in Hcases.
    quotient (Zpos m * 4953959590107546) 4503599627370496. lia.
  - lia.
Qed.

Lemma mul_0_9_below (z : float) :
  inRange z = true -> (z * lit_0_9 <? z)%float = true.
Proof.
  intros Hz.
  destruct (mul_in_range_bounds z lit_0_9 8106479329266893 (-53) Hz
              eq_refl eq_refl)
    as (m & e & m3 & e3 & d & Ez & Hd & E3 & Hd' & Hcases); [ lia | ].
  pose proof (digits2_53 m Hd) as Bm.
  rewrite ltb_spec, Ez, E3. apply SFltb_pos.
  destruct Hd' as [-> | ->].
  - change (2 ^ (105 - 53)) with 4503599627370496 in Hcases.
    change (2 ^ 52) with 4503599627370496 in Hcases.
    change (2 ^ 53 - 1) with 9007199254740991 in Hcases.
    quotient (Zpos m * 8106479329266893) 4503599627370496. lia.
  - change (2 ^ (106 - 53)) with 9007199254740992 in Hcases.
    change (2 ^ 52) with 4503599627370496 in Hcases.
    change (2 ^ 53 - 1) with 9007199254740991 in Hcases.
    quotient (Zpos m * 8106479329266893) 9007199254740992. lia.
Qed.

Lemma div_1_2_below (z : float) :
  inRange z = true -> (z / lit_1_2 <? z)%float = true.
Proof.
  intros Hz.
  destruct (inRange_decode z Hz) as (m & e & Ez & Hd & He & _ & Hhi).
  pose proof (digits2_53 m Hd) as Bm.
  rewrite ltb_spec, div_spec, Ez.
  change (Prim2SF lit_1_2) with (S754_finite false 5404319552844595 (-52)).
  unfold SF64div, SFdiv, SFdiv_core_binary. cbn [xorb Zdigits2].
  rewrite Hd. change (Z.pos (digits2_pos 5404319552844595)) with 53.
  replace (Z.min (fexp prec emax (53 + e - (53 + -52))) (e - -52))
    with (e - 1)
    by (unfold fexp, SpecFloat.emin, prec, emax; lia).
  replace (e - -52 - (e - 1)) with 53 by lia. cbv iota.
  rewrite Z.shiftl_mul_pow2 by lia.
  change (2 ^ 53) with 9007199254740992.
  pose proof (Z_div_mod (Zpos m * 9007199254740992) 5404319552844595 eq_refl)
    as Hqr.
  destruct (Z.div_eucl (Zpos m * 9007199254740992) 5404319552844595)
    as [q r].
  destruct Hqr as [Hq Hr].
  destruct q as [ | q | q ]; try lia.
  pose proof (digits2_bounds q) as [Blo Bhi].
  set (d := Zpos (digits2_pos q)) in *.
  assert (Hd53 : 53 <= d).
  { destruct (Z_lt_le_dec d 53) as [Hlt | ]; [ exfalso | assumption ].
    assert (2 ^ d <= 2 ^ 52) by (apply Z.pow_le_mono_r; lia).
    change (2 ^ 52) with 4503599627370496 in *. lia. }
  assert (Hd54 : d <= 54).
  { destruct (Z_lt_le_dec 54 d) as [Hlt | ]; [ exfalso | assumption ].
    assert (2 ^ 54 <= 2 ^ (d - 1)) by (apply Z.pow_le_mono_r; lia).
    change (2 ^ 54) with 18014398509481984 in *. lia. }
  destruct (binary_round_aux_normal false q (e - 1)
              (new_location 5404319552844595 r) d eq_refl)
    as (m3 & e3 & E3 & _ & Hcases); try lia.
  rewrite E3. apply SFltb_pos.
  assert (Hd' : d = 53 \/ d = 54) by lia.
  destruct Hd' as [Hd' | Hd']; rewrite Hd' in Hcases.
  - change (2 ^ (53 - 53)) with 1 in Hcases. rewrite Z.div_1_r in Hcases.
    change (2 ^ 52) with 4503599627370496 in Hcases.
    change (2 ^ 53 - 1) with 9007199254740991 in Hcases. lia.
  - change (2 ^ (54 - 53)) with 2 in Hcases.
    change (2 ^ 52) with 4503599627370496 in Hcases.
    change (2 ^ 53 - 1) with 9007199254740991 in Hcases.
    pose proof (Z_div_mod (Zpos q) 2 eq_refl) as Hq2.
    unfold Z.div in Hcases.
    destruct (Z.div_eucl (Zpos q) 2) as [q2 r2]. cbn [fst] in Hcases. lia.
Qed.

(** ** Integers *)

Lemma iter_xO (d : positive) (m : positive) :
  Zpos (Pos.iter xO m d) = Zpos m * 2 ^ Zpos d.
Proof.
  induction d as [ | d IH ] using Pos.peano_ind.
  - cbn [Pos.iter]. lia.
  - rewrite Pos.iter_succ, Pos2Z.inj_succ, Z.pow_succ_r by lia.
    rewrite Pos2Z.inj_xO, IH. lia.
Qed.

(** Shifting out digits that are zero loses nothing. *)
Lemma shr_1_exact (c : Z) :
  0 <= c -> shr_1 (Build_shr_record (2 * c) false false)
            = Build_shr_record c false false.
Proof. destruct c as [ | p | p ]; intros H; try lia; reflexivity. Qed.

Lemma iter_pos_shr_1_exact (p : positive) :
  forall c, 0 <= c ->
  iter_pos shr_1 p (Build_shr_record (c * 2 ^ Zpos p) false false)
  = Build_shr_record c false false.
Proof.
  induction p as [p IH | p IH | ]; intros c Hc; cbn [iter_pos].
  - replace (c * 2 ^ Z.pos p~1) with (2 * (c * 2 ^ Zpos p * 2 ^ Zpos p))
      by (replace (Z.pos p~1) with (1 + Z.pos p + Z.pos p) by lia;
          rewrite !Z.pow_add_r by lia; change (2 ^ 1) with 2; lia).
    assert (0 < 2 ^ Zpos p) by (apply Z.pow_pos_nonneg; lia).
    rewrite shr_1_exact by nia. rewrite IH by nia. now apply IH.
  - replace (c * 2 ^ Z.pos p~0) with (c * 2 ^ Zpos p * 2 ^ Zpos p)
      by (replace (Z.pos p~0) with (Z.pos p + Z.pos p) by lia;
          rewrite !Z.pow_add_r by lia; lia).
    assert (0 < 2 ^ Zpos p) by (apply Z.pow_pos_nonneg; lia).
    rewrite IH by nia. now apply IH.
  - replace (c * 2 ^ 1) with (2 * c) by (change (2 ^ 1) with 2; lia).
    now apply shr_1_exact.
Qed.

(** The rounding of a mantissa that is a mantissa [c] of 53 digits followed
    by [k] zeros: [c], exactly. *)
Lemma binary_round_aux_exact (sx : bool) (c : positive) (k : Z) (ex : Z) :
  Zpos (digits2_pos c) = 53 -> 0 <= k ->
  -1074 <= ex + k -> ex + k <= 971 ->
  forall mx, Zpos mx = Zpos c * 2 ^ k ->
  binary_round_aux prec emax sx (Zpos mx) ex loc_Exact
  = S754_finite sx c (ex + k).
Proof.
  intros Hc Hk Hlo Hhi mx Hmx.
  pose proof (digits2_53 c Hc) as Bc.
  assert (Hp : 0 < 2 ^ k) by (apply Z.pow_pos_nonneg; lia).
  assert (Hd : Zpos (digits2_pos mx) = 53 + k).
  { apply digits2_unique. rewrite Hmx.
    replace (53 + k - 1) with (52 + k) by lia.
    rewrite !Z.pow_add_r by lia.
    change (2 ^ 52) with 4503599627370496.
    change (2 ^ 53) with 9007199254740992. nia. }
  unfold binary_round_aux, shr_fexp. cbn [Zdigits2]. rewrite Hd.
  rewrite fexp_normal by lia.
  replace (53 + k + ex - 53 - ex) with k by lia.
  cbn [shr_record_of_loc].
  assert (E1 : shr (Build_shr_record (Zpos mx) false false) ex k
               = (Build_shr_record (Zpos c) false false, ex + k)).
  { destruct k as [ | p | p ]; try lia; cbn [shr].
    - f_equal; [ | lia ]. f_equal. rewrite Hmx. change (2 ^ 0) with 1. lia.
    - f_equal. rewrite Hmx. apply iter_pos_shr_1_exact. lia. }
  rewrite E1. cbn [shr_m loc_of_shr_record round_nearest_even Zdigits2].
  rewrite Hc. rewrite fexp_normal by lia.
  replace (53 + (ex + k) - 53 - (ex + k)) with 0 by lia.
  cbn [shr shr_m shr_record_of_loc].
  replace (ex + k <=? emax - prec) with true
    by (symmetry; apply Z.leb_le; unfold emax, prec; lia).
  reflexivity.
Qed.

(** The rounding of a mantissa [mx] that is a mantissa [c] of 53 digits
    shifted, by [j] digits to the right or by [k] to the left: [c],
    exactly. *)
Lemma binary_round_exact (sx : bool) (mx : positive) (ex : Z) (c : positive)
  (j k : Z) :
  Zpos (digits2_pos c) = 53 -> 0 <= j -> 0 <= k ->
  Zpos mx * 2 ^ j = Zpos c * 2 ^ k ->
  (j = 0 \/ k = 0) ->
  -1074 <= ex + k - j -> ex + k - j <= 971 ->
  binary_round prec emax sx mx ex = S754_finite sx c (ex + k - j).
Proof.
  intros Hc Hj Hk Hm Hjk Hlo Hhi.
  pose proof (digits2_53 c Hc) as Bc.
  assert (Hpj : 0 < 2 ^ j) by (apply Z.pow_pos_nonneg; lia).
  assert (Hpk : 0 < 2 ^ k) by (apply Z.pow_pos_nonneg; lia).
  assert (Hd : Zpos (digits2_pos mx) = 53 + k - j).
  { destruct Hjk as [-> | ->].
    - change (2 ^ 0) with 1 in Hm. rewrite Z.mul_1_r in Hm.
      apply digits2_unique. rewrite Hm.
      replace (53 + k - 0 - 1) with (52 + k) by lia.
      replace (53 + k - 0) with (53 + k) by lia.
      rewrite !Z.pow_add_r by lia.
      change (2 ^ 52) with 4503599627370496.
      change (2 ^ 53) with 9007199254740992. nia.
    - change (2 ^ 0) with 1 in Hm. rewrite Z.mul_1_r in Hm.
      assert (j <= 52).
      { destruct (Z_lt_le_dec 52 j) as [Hlt | ]; [ exfalso | lia ].
        assert (2 ^ 53 <= 2 ^ j) by (apply Z.pow_le_mono_r; lia).
        change (2 ^ 53) with 9007199254740992 in *. nia. }
      apply digits2_unique.
      replace (53 + 0 - j - 1) with (52 - j) by lia.
      replace (53 + 0 - j) with (53 - j) by lia.
      assert (E52 : 2 ^ (52 - j) * 2 ^ j = 4503599627370496)
        by (rewrite <- Z.pow_add_r by lia;
            replace (52 - j + j) with 52 by lia; reflexivity).
      assert (E53 : 2 ^ (53 - j) * 2 ^ j = 9007199254740992)
        by (rewrite <- Z.pow_add_r by lia;
            replace (53 - j + j) with 53 by lia; reflexivity).
      nia. }
  unfold binary_round, shl_align. rewrite Hd.
  rewrite fexp_normal by lia.
  replace (53 + k - j + ex - 53 - ex) with (k - j) by lia.
  destruct Hjk as [-> | ->].
  - change (2 ^ 0) with 1 in Hm. rewrite Z.mul_1_r in Hm.
    replace (ex + k - 0) with (ex + k) by lia.
    replace (k - 0) with k by lia.
    destruct k as [ | p | p ] eqn:Ek; try lia;
      apply binary_round_aux_exact; try assumption; lia.
  - change (2 ^ 0) with 1 in Hm. rewrite Z.mul_1_r in Hm.
    replace (ex + 0 - j) with (ex - j) in * by lia.
    destruct (0 - j) as [ | p | p ] eqn:Ej; try lia.
    + assert (j = 0) by lia. subst j.
      replace (ex - 0) with (ex + 0) by lia.
      apply binary_round_aux_exact; try assumption; lia.
    + replace (53 + 0 - j + ex - 53) with (ex - j) by lia.
      replace (S754_finite sx c (ex - j))
        with (S754_finite sx c (ex - j + 0)) by (f_equal; lia).
      apply (binary_round_aux_exact sx c 0 (ex - j));
        try assumption; try lia.
      rewrite iter_xO. replace (Zpos p) with j by lia.
      change (2 ^ 0) with 1. lia.
Qed.

(** An integer below [2^53] shifted to 53 digits. *)
Lemma integer_mantissa (n : positive) :
  Zpos n < 2 ^ 53 ->
  exists c j, Zpos (digits2_pos c) = 53 /\ 0 <= j <= 52
              /\ Zpos c = Zpos n * 2 ^ j.
Proof.
  intros Hn. pose proof (digits2_bounds n) as [Blo Bhi].
  set (d := Zpos (digits2_pos n)) in *.
  assert (Hd1 : 1 <= d) by (unfold d; lia).
  assert (Hd53 : d <= 53).
  { destruct (Z_lt_le_dec 53 d) as [Hlt | ]; [ exfalso | assumption ].
    assert (2 ^ 53 <= 2 ^ (d - 1)) by (apply Z.pow_le_mono_r; lia). lia. }
  assert (Hp : 0 < 2 ^ (53 - d)) by (apply Z.pow_pos_nonneg; lia).
  assert (E52 : 2 ^ (d - 1) * 2 ^ (53 - d) = 2 ^ 52)
    by (rewrite <- Z.pow_add_r by lia; f_equal; lia).
  assert (E53 : 2 ^ d * 2 ^ (53 - d) = 2 ^ 53)
    by (rewrite <- Z.pow_add_r by lia; f_equal; lia).
  exists (Z.to_pos (Zpos n * 2 ^ (53 - d))), (53 - d).
  rewrite Z2Pos.id by nia.
  split; [ | split; [ lia | reflexivity ] ].
  apply digits2_unique. rewrite Z2Pos.id by nia.
  change (53 - 1) with 52. nia.
Qed.

(** The shift that takes an integer to 53 digits is fixed by the integer. *)
Lemma integer_mantissa_unique (n : Z) (c c' : positive) (j j' : Z) :
  Zpos (digits2_pos c) = 53 -> Zpos (digits2_pos c') = 53 ->
  0 <= j -> 0 <= j' ->
  Zpos c = n * 2 ^ j -> Zpos c' = n * 2 ^ j' -> j = j' /\ c = c'.
Proof.
  intros Hc Hc' Hj Hj' Ec Ec'.
  pose proof (digits2_53 c Hc). pose proof (digits2_53 c' Hc').
  assert (j = j').
  { destruct (Z.lt_trichotomy j j') as [Hlt | [Heq | Hgt]]; [ | exact Heq | ];
      exfalso.
    - assert (E : 2 ^ j' = 2 ^ j * 2 ^ (j' - j))
        by (rewrite <- Z.pow_add_r by lia; f_equal; lia).
      assert (2 ^ 1 <= 2 ^ (j' - j)) by (apply Z.pow_le_mono_r; lia).
      change (2 ^ 1) with 2 in *. nia.
    - assert (E : 2 ^ j = 2 ^ j' * 2 ^ (j - j'))
        by (rewrite <- Z.pow_add_r by lia; f_equal; lia).
      assert (2 ^ 1 <= 2 ^ (j - j')) by (apply Z.pow_le_mono_r; lia).
      change (2 ^ 1) with 2 in *. nia. }
  subst j'. split; [ reflexivity | ]. lia.
Qed.

Lemma binary_round_integer (s : bool) (n c : positive) (j t : Z)
  (mx : positive) :
  Zpos (digits2_pos c) = 53 -> 0 <= j <= 52 -> 0 <= t <= 1000 ->
  Zpos c = Zpos n * 2 ^ j -> Zpos mx = Zpos n * 2 ^ t ->
  binary_round prec emax s mx (- t) = S754_finite s c (- j).
Proof.
  intros Hc Hj Ht Ec Em.
  destruct (Z_le_gt_dec t j) as [Hle | Hgt].
  - replace (- j) with (- t + 0 - (j - t)) by lia.
    apply binary_round_exact; try assumption; try lia.
    assert (E : 2 ^ j = 2 ^ t * 2 ^ (j - t))
      by (rewrite <- Z.pow_add_r by lia; f_equal; lia).
    change (2 ^ 0) with 1. rewrite Em, Ec, E. ring.
  - replace (- j) with (- t + (t - j) - 0) by lia.
    apply binary_round_exact; try assumption; try lia.
    assert (E : 2 ^ t = 2 ^ j * 2 ^ (t - j))
      by (rewrite <- Z.pow_add_r by lia; f_equal; lia).
    change (2 ^ 0) with 1. rewrite Em, Ec, E. ring.
Qed.

(** The Number of [n * 2^t] with the exponent [-t], for a non-zero integer
    [n] below [2^53] in absolute value: the sign of [n] and its mantissa of
    53 digits, whatever [t]. *)
Lemma binary_normalize_integer (n : Z) (t : Z) :
  n <> 0 -> Z.abs n < 2 ^ 53 -> 0 <= t <= 1000 ->
  exists c j,
    Zpos (digits2_pos c) = 53 /\ 0 <= j <= 52
    /\ Zpos c = Z.abs n * 2 ^ j
    /\ binary_normalize prec emax (n * 2 ^ t) (- t) false
       = S754_finite (n <? 0) c (- j).
Proof.
  intros Hn0 Hn Ht.
  assert (Hp : 0 < 2 ^ t) by (apply Z.pow_pos_nonneg; lia).
  destruct n as [ | n | n ]; [ congruence | | ]; cbn [Z.abs] in Hn;
    destruct (integer_mantissa n Hn) as (c & j & Hc & Hj & Ec);
    exists c, j; (split; [ exact Hc | ]); (split; [ exact Hj | ]);
    (split; [ exact Ec | ]).
  - destruct (Z.pos n * 2 ^ t) as [ | mx | mx ] eqn:Em; try lia.
    cbn [binary_normalize]. change (Z.pos n <? 0) with false.
    apply (binary_round_integer false n c j t mx); try assumption. lia.
  - destruct (Z.neg n * 2 ^ t) as [ | mx | mx ] eqn:Em; try lia.
    cbn [binary_normalize]. change (Z.neg n <? 0) with true.
    apply (binary_round_integer true n c j t mx); try assumption. lia.
Qed.

Lemma binary_normalize_integer_0 (n : Z) :
  n <> 0 -> Z.abs n < 2 ^ 53 ->
  exists c j,
    Zpos (digits2_pos c) = 53 /\ 0 <= j <= 52
    /\ Zpos c = Z.abs n * 2 ^ j
    /\ binary_normalize prec emax n 0 false = S754_finite (n <? 0) c (- j).
Proof.
  intros Hn0 Hn.
  destruct (binary_normalize_integer n 0 Hn0 Hn ltac:(lia))
    as (c & j & Hc & Hj & Ec & E).
  change (2 ^ 0) with 1 in E. rewrite Z.mul_1_r in E.
  change (- 0) with 0 in E. now exists c, j.
Qed.

Lemma binary_normalize_scaled (n t : Z) :
  Z.abs n < 2 ^ 53 -> 0 <= t <= 1000 ->
  binary_normalize prec emax (n * 2 ^ t) (- t) false
  = binary_normalize prec emax n 0 false.
Proof.
  intros Hn Ht. destruct (Z.eq_dec n 0) as [-> | Hn0]; [ reflexivity | ].
  destruct (binary_normalize_integer n t Hn0 Hn Ht)
    as (c & j & Hc & Hj & Ec & ->).
  destruct (binary_normalize_integer_0 n Hn0 Hn)
    as (c' & j' & Hc' & Hj' & Ec' & ->).
  destruct (integer_mantissa_unique (Z.abs n) c c' j j') as [<- <-];
    try assumption; try lia.
  reflexivity.
Qed.

(** The Number of an integer below [2^53] in absolute value is read back
    as it was written. *)
Lemma Prim2SF_integer (n : Z) :
  Z.abs n < 2 ^ 53 ->
  Prim2SF (integer n) = binary_normalize prec emax n 0 false.
Proof.
  intros Hn. unfold integer. apply Prim2SF_SF2Prim.
  destruct (Z.eq_dec n 0) as [-> | Hn0]; [ reflexivity | ].
  destruct (binary_normalize_integer_0 n Hn0 Hn)
    as (c & j & Hc & Hj & Ec & ->).
  unfold valid_binary. cbn [SpecFloat.valid_binary].
  unfold bounded, canonical_mantissa.
  rewrite Hc, fexp_normal by lia.
  apply andb_true_iff. split; [ apply Z.eqb_eq; lia | ].
  apply Z.leb_le. unfold emax, prec. lia.
Qed.

Lemma shl_align_fst (c : positive) (j t : Z) :
  0 <= j <= t ->
  Zpos (fst (shl_align c (- j) (- t))) = Zpos c * 2 ^ (t - j).
Proof.
  intros H. unfold shl_align.
  destruct (- t - - j) as [ | p | p ] eqn:E; try lia; cbn [fst].
  - replace (t - j) with 0 by lia. change (2 ^ 0) with 1. lia.
  - rewrite iter_xO. f_equal. f_equal. lia.
Qed.

Lemma cond_Zopp_abs (n : Z) : cond_Zopp (n <? 0) (Z.abs n) = n.
Proof. destruct n; reflexivity. Qed.

Lemma cond_Zopp_mul (s : bool) (a b : Z) :
  cond_Zopp s (a * b) = cond_Zopp s a * b.
Proof. destruct s; cbn [cond_Zopp]; lia. Qed.

(** The difference of the Numbers of two integers below [2^52] in absolute
    value is the Number of their difference: no rounding takes place. *)
Lemma sub_integer (a b : Z) :
  Z.abs a < 2 ^ 52 -> Z.abs b < 2 ^ 52 ->
  (integer a - integer b)%float = integer (a - b).
Proof.
  intros Ha Hb.
  change (2 ^ 52) with 4503599627370496 in *.
  assert (Ha' : Z.abs a < 2 ^ 53)
    by (change (2 ^ 53) with 9007199254740992; lia).
  assert (Hb' : Z.abs b < 2 ^ 53)
    by (change (2 ^ 53) with 9007199254740992; lia).
  assert (Hab : Z.abs (a - b) < 2 ^ 53)
    by (change (2 ^ 53) with 9007199254740992; lia).
  apply Prim2SF_inj. rewrite sub_spec, !Prim2SF_integer by assumption.
  unfold SF64sub.
  destruct (Z.eq_dec a 0) as [-> | Ha0].
  - destruct (Z.eq_dec b 0) as [-> | Hb0]; [ reflexivity | ].
    destruct (binary_normalize_integer_0 b Hb0 Hb')
      as (c & j & Hc & Hj & Ec & ->).
    assert (Hnb : - b <> 0) by lia.
    assert (Hnb' : Z.abs (- b) < 2 ^ 53) by (rewrite Z.abs_opp; exact Hb').
    destruct (binary_normalize_integer_0 (- b) Hnb Hnb')
      as (c' & j' & Hc' & Hj' & Ec' & E').
    change (0 - b) with (- b). rewrite E'.
    cbn [binary_normalize SFsub]. rewrite Z.abs_opp in Ec'.
    destruct (integer_mantissa_unique (Z.abs b) c c' j j') as [<- <-];
      try assumption; try lia.
    f_equal. destruct b; try congruence; reflexivity.
  - destruct (binary_normalize_integer_0 a Ha0 Ha')
      as (ca & ja & Hca & Hja & Eca & Ea).
    rewrite Ea.
    destruct (Z.eq_dec b 0) as [-> | Hb0].
    + rewrite Z.sub_0_r, Ea. reflexivity.
    + destruct (binary_normalize_integer_0 b Hb0 Hb')
        as (cb & jb & Hcb & Hjb & Ecb & ->).
      cbn [SFsub]. cbv zeta.
      set (t := Z.max ja jb).
      replace (Z.min (- ja) (- jb)) with (- t) by (unfold t; lia).
      rewrite !shl_align_fst by (unfold t; lia).
      rewrite Eca, Ecb, <- !Z.mul_assoc, <- !Z.pow_add_r by (unfold t; lia).
      replace (ja + (t - ja)) with t by lia.
      replace (jb + (t - jb)) with t by lia.
      rewrite !cond_Zopp_mul, !cond_Zopp_abs, <- Z.mul_sub_distr_r.
      apply binary_normalize_scaled; [ exact Hab | unfold t; lia ].
Qed.

(** ** Signs *)

Lemma shr_fexp_nonneg (m e : Z) (l : location) :
  0 <= m -> 0 <= shr_m (fst (shr_fexp prec emax m e l)).
Proof.
  intros H. unfold shr_fexp, shr.
  destruct (fexp prec emax (Zdigits2 m + e) - e) as [ | p | p ]; cbn [fst];
    try (rewrite shr_record_of_loc_m; exact H).
  apply iter_pos_shr_1_m. now rewrite shr_record_of_loc_m.
Qed.

(** Rounding a mantissa that is not negative gives no NaN and no minus
    sign. *)
Lemma binary_round_aux_notNegative (m e : Z) (l : location) :
  0 <= m -> SFnotNegative (binary_round_aux prec emax false m e l) = true.
Proof.
  intros H. unfold binary_round_aux.
  pose proof (shr_fexp_nonneg m e l H) as H1.
  destruct (shr_fexp prec emax m e l) as [mrs' e']. cbn [fst] in H1.
  pose proof (round_nearest_even_bounds (shr_m mrs') (loc_of_shr_record mrs'))
    as H2.
  set (m2 := round_nearest_even (shr_m mrs') (loc_of_shr_record mrs')) in *.
  assert (H3 : 0 <= m2) by lia.
  pose proof (shr_fexp_nonneg m2 e' loc_Exact H3) as H4.
  destruct (shr_fexp prec emax m2 e' loc_Exact) as [mrs'' e'']. cbn [fst] in H4.
  destruct (shr_m mrs'') as [ | q | q ]; try lia; [ reflexivity | ].
  now destruct (e'' <=? emax - prec).
Qed.

Lemma SFdiv_core_binary_nonneg (m1 : positive) (e1 : Z) (m2 : positive)
  (e2 : Z) :
  0 <= fst (fst (SFdiv_core_binary prec emax (Zpos m1) e1 (Zpos m2) e2)).
Proof.
  unfold SFdiv_core_binary. cbv zeta.
  set (s := e1 - e2 - _).
  set (m' := match s with Z.pos _ => Z.shiftl (Z.pos m1) s | 0 => Z.pos m1
             | Z.neg _ => 0 end).
  assert (Hm : 0 <= m').
  { unfold m'. destruct s; try lia. apply Z.shiftl_nonneg. lia. }
  pose proof (Z_div_mod m' (Zpos m2) eq_refl) as Hqr.
  destruct (Z.div_eucl m' (Z.pos m2)) as [q r]. cbn [fst].
  destruct Hqr as [Hq Hr]. nia.
Qed.

Local Open Scope float_scope.

Lemma notNegative_leb (v : float) :
  SFnotNegative (Prim2SF v) = true ->
  is_nan v = false /\ (0 <=? v) = true.
Proof.
  intros H. split.
  - destruct (is_nan v) eqn:Hn; [ | reflexivity ].
    apply is_nan_Prim2SF in Hn. rewrite Hn in H. discriminate H.
  - rewrite leb_spec. change (Prim2SF 0) with (S754_zero false).
    destruct (Prim2SF v) as [[] | [] | | [] m e]; try discriminate H;
      reflexivity.
Qed.

(** A positive finite Number divided by a positive Number is not negative,
    and 0.8 times a Number that is not negative is not negative. *)
Lemma div_notNegative (w d : float) :
  (0 <? w) = true -> (w <? infinity) = true -> (0 <? d) = true ->
  SFnotNegative (Prim2SF (w / d)) = true.
Proof.
  rewrite !ltb_spec, div_spec.
  change (Prim2SF 0) with (S754_zero false).
  change (Prim2SF infinity) with (S754_infinity false).
  destruct (Prim2SF w) as [[] | [] | | [] mw ew]; try discriminate;
    intros _ _;
    destruct (Prim2SF d) as [[] | [] | | [] md ed]; try discriminate;
    intros _; [ reflexivity | ].
  unfold SF64div, SFdiv. cbn [xorb].
  pose proof (SFdiv_core_binary_nonneg mw ew md ed) as H.
  destruct (SFdiv_core_binary prec emax (Z.pos mw) ew (Z.pos md) ed)
    as [[mz ez] lz]. cbn [fst] in H.
  now apply binary_round_aux_notNegative.
Qed.

Lemma mul_0_8_notNegative (v : float) :
  SFnotNegative (Prim2SF v) = true ->
  SFnotNegative (Prim2SF (v * lit_0_8)) = true.
Proof.
  rewrite mul_spec.
  change (Prim2SF lit_0_8) with (S754_finite false 7205759403792794 (-53)).
  destruct (Prim2SF v) as [[] | [] | | [] m e]; try discriminate;
    intros _; try reflexivity.
  unfold SF64mul, SFmul. cbn [xorb].
  apply binary_round_aux_notNegative. lia.
Qed.

(** ** Differences *)

Local Open Scope Z_scope.

Lemma bounded_facts (m : positive) (e : Z) :
  bounded prec emax m e = true ->
  -1074 <= e /\ Zpos (digits2_pos m) <= 53
  /\ (-1074 < e -> Zpos (digits2_pos m) = 53).
Proof.
  unfold bounded, canonical_mantissa. intros H.
  apply andb_true_iff in H as [Hc _]. apply Z.eqb_eq in Hc.
  unfold fexp, SpecFloat.emin, prec, emax in Hc. lia.
Qed.

Lemma shr_fexp_pos (m e : Z) (l : location) :
  0 < m -> -1074 <= e ->
  0 < shr_m (fst (shr_fexp prec emax m e l))
  /\ -1074 <= snd (shr_fexp prec emax m e l).
Proof.
  intros Hm He. destruct m as [ | p | p ]; try lia.
  unfold shr_fexp, shr. cbn [Zdigits2].
  pose proof (digits2_bounds p) as [Blo Bhi].
  set (d := Zpos (digits2_pos p)) in *.
  destruct (fexp prec emax (d + e) - e) as [ | q | q ] eqn:En; cbn [fst snd];
    try (rewrite shr_record_of_loc_m; lia).
  assert (Hq : Zpos q = d - 53)
    by (unfold fexp, SpecFloat.emin, prec, emax in En; lia).
  destruct (iter_pos_shr_1_m q (shr_record_of_loc (Zpos p) l)) as [E _].
  { rewrite shr_record_of_loc_m. lia. }
  rewrite E, shr_record_of_loc_m, Hq. split; [ | lia ].
  assert (Hp : 0 < 2 ^ (d - 53)) by (apply Z.pow_pos_nonneg; lia).
  assert (2 ^ 52 <= Zpos p / 2 ^ (d - 53)).
  { apply Z.div_le_lower_bound; [ exact Hp | ].
    rewrite <- Z.pow_add_r by lia.
    now replace (d - 53 + 52) with (d - 1) by lia. }
  change (2 ^ 52) with 4503599627370496 in *. lia.
Qed.

Lemma binary_round_aux_positive (m e : Z) (l : location) :
  0 < m -> -1074 <= e ->
  SFpositive (binary_round_aux prec emax false m e l) = true.
Proof.
  intros Hm He. unfold binary_round_aux.
  pose proof (shr_fexp_pos m e l Hm He) as [H1 H1'].
  destruct (shr_fexp prec emax m e l) as [mrs' e']. cbn [fst snd] in H1, H1'.
  pose proof (round_nearest_even_bounds (shr_m mrs') (loc_of_shr_record mrs'))
    as H2.
  set (m2 := round_nearest_even (shr_m mrs') (loc_of_shr_record mrs')) in *.
  assert (H3 : 0 < m2) by lia.
  pose proof (shr_fexp_pos m2 e' loc_Exact H3 H1') as [H4 _].
  destruct (shr_fexp prec emax m2 e' loc_Exact) as [mrs'' e''].
  cbn [fst] in H4.
  destruct (shr_m mrs'') as [ | q | q ]; try lia.
  now destruct (e'' <=? emax - prec).
Qed.

Lemma binary_round_positive (mx : positive) (ex : Z) :
  -1074 <= ex -> SFpositive (binary_round prec emax false mx ex) = true.
Proof.
  intros He. unfold binary_round, shl_align.
  destruct (fexp prec emax (Z.pos (digits2_pos mx) + ex) - ex) eqn:En;
    apply binary_round_aux_positive; try lia.
  unfold fexp, SpecFloat.emin, prec, emax. lia.
Qed.

Lemma shl_align_value (m : positive) (e ez : Z) :
  ez <= e -> Zpos (fst (shl_align m e ez)) = Zpos m * 2 ^ (e - ez).
Proof.
  intros H. unfold shl_align.
  destruct (ez - e) as [ | p | p ] eqn:E; try lia; cbn [fst].
  - replace (e - ez) with 0 by lia. change (2 ^ 0) with 1. lia.
  - rewrite iter_xO. f_equal. f_equal. lia.
Qed.

(** Of two positive Numbers the one with the larger exponent is the
    larger. *)
Lemma canonical_order (ma : positive) (ea : Z) (mb : positive) (eb : Z) :
  bounded prec emax ma ea = true -> bounded prec emax mb eb = true ->
  ea < eb -> Zpos ma < Zpos mb * 2 ^ (eb - ea).
Proof.
  intros Ha Hb Hlt.
  destruct (bounded_facts ma ea Ha) as (Hea & Hda & _).
  destruct (bounded_facts mb eb Hb) as (_ & _ & Hdb).
  pose proof (digits2_bounds ma) as [_ Bhi].
  pose proof (digits2_53 mb (Hdb ltac:(lia))) as Bb.
  assert (2 ^ Zpos (digits2_pos ma) <= 2 ^ 53)
    by (apply Z.pow_le_mono_r; lia).
  assert (2 ^ 1 <= 2 ^ (eb - ea)) by (apply Z.pow_le_mono_r; lia).
  change (2 ^ 1) with 2 in *. change (2 ^ 53) with 9007199254740992 in *.
  nia.
Qed.

Lemma SFsub_positive (A B : spec_float) :
  valid_binary A = true -> valid_binary B = true ->
  SFltb A B = true -> SFpositive (SF64sub B A) = true.
Proof.
  unfold valid_binary, SFltb, SF64sub.
  destruct A as [sa | sa | | sa ma ea], B as [sb | sb | | sb mb eb];
    try destruct sa; try destruct sb; cbn [SFcompare SFsub SFpositive negb];
    try discriminate; try reflexivity;
    cbn [SpecFloat.valid_binary]; intros Ha Hb Hlt.
  - cbv zeta. cbn [cond_Zopp].
    destruct (bounded_facts ma ea Ha) as (Hea & _).
    destruct (bounded_facts mb eb Hb) as (Heb & _).
    destruct (Z.compare_spec ea eb) as [Heq | Hl | Hg]; try discriminate.
    + subst eb. rewrite Z.min_id.
      rewrite !shl_align_value by lia. rewrite Z.sub_diag.
      change (2 ^ 0) with 1. rewrite !Z.mul_1_r.
      change (Pos.compare_cont Eq ma mb) with (Pos.compare ma mb) in Hlt.
      destruct (Pos.compare_spec ma mb) as [ | | Hm ]; try discriminate.
      destruct (- Z.pos mb - - Z.pos ma) as [ | q | q ] eqn:ED; try lia.
      cbn [binary_normalize]. now apply binary_round_positive.
    + rewrite Z.min_l by lia.
      rewrite !shl_align_value by lia.
      pose proof (canonical_order mb eb ma ea Hb Ha Hg) as Ho.
      rewrite Z.sub_diag. change (2 ^ 0) with 1. rewrite Z.mul_1_r.
      destruct (- Z.pos mb - - (Z.pos ma * 2 ^ (ea - eb))) as [ | q | q ] eqn:ED;
        try lia.
      cbn [binary_normalize]. now apply binary_round_positive.
  - cbv zeta. cbn [cond_Zopp].
    destruct (bounded_facts ma ea Ha) as (Hea & _).
    destruct (bounded_facts mb eb Hb) as (Heb & _).
    destruct (Z.pos (fst (shl_align mb eb (Z.min eb ea)))
              - - Z.pos (fst (shl_align ma ea (Z.min eb ea))))
      as [ | q | q ] eqn:ED; try lia.
    cbn [binary_normalize]. apply binary_round_positive. lia.
  - cbv zeta. cbn [cond_Zopp].
    destruct (bounded_facts ma ea Ha) as (Hea & _).
    destruct (bounded_facts mb eb Hb) as (Heb & _).
    destruct (Z.compare_spec ea eb) as [Heq | Hl | Hg]; try discriminate.
    + subst eb. rewrite Z.min_id.
      rewrite !shl_align_value by lia. rewrite Z.sub_diag.
      change (2 ^ 0) with 1. rewrite !Z.mul_1_r.
      change (Pos.compare_cont Eq ma mb) with (Pos.compare ma mb) in Hlt.
      destruct (Pos.compare_spec ma mb) as [ | Hm | ]; try discriminate.
      destruct (Z.pos mb - Z.pos ma) as [ | q | q ] eqn:ED; try lia.
      cbn [binary_normalize]. now apply binary_round_positive.
    + rewrite Z.min_r by lia.
      rewrite !shl_align_value by lia.
      pose proof (canonical_order ma ea mb eb Ha Hb Hl) as Ho.
      rewrite Z.sub_diag. change (2 ^ 0) with 1. rewrite Z.mul_1_r.
      destruct (Z.pos mb * 2 ^ (eb - ea) - Z.pos ma) as [ | q | q ] eqn:ED;
        try lia.
      cbn [binary_normalize]. now apply binary_round_positive.
Qed.

Local Open Scope float_scope.

Lemma SFpositive_ltb (v : float) :
  SFpositive (Prim2SF v) = true -> (0 <? v) = true.
Proof.
  rewrite ltb_spec. change (Prim2SF 0) with (S754_zero false).
  now destruct (Prim2SF v) as [[] | [] | | [] m e].
Qed.

(** The difference of a Number and of a smaller one is positive. *)
Lemma sub_positive (a b : float) : (a <? b) = true -> (0 <? b - a) = true.
Proof.
  intros H. apply SFpositive_ltb. rewrite sub_spec.
  apply SFsub_positive; try apply Prim2SF_valid.
  now rewrite <- ltb_spec.
Qed.

Lemma SFleb_ltb_trans (a b c : spec_float) :
  SFleb a b = true -> SFltb b c = true -> SFltb a c = true.
Proof.
  unfold SFleb, SFltb.
  destruct a as [sa | sa | | sa ma ea], b as [sb | sb | | sb mb eb],
    c as [sc | sc | | sc mc ec];
    try destruct sa; try destruct sb; try destruct sc;
    cbn [SFcompare]; try discriminate; try reflexivity;
    change (Pos.compare_cont Eq) with Pos.compare;
    destruct (Z.compare_spec ea eb), (Z.compare_spec eb ec),
      (Z.compare_spec ea ec); try lia; try discriminate; try reflexivity;
    destruct (Pos.compare_spec ma mb), (Pos.compare_spec mb mc),
      (Pos.compare_spec ma mc); cbn [CompOpp];
    try lia; try discriminate; try reflexivity.
Qed.

Lemma SFltb_leb_trans (a b c : spec_float) :
  SFltb a b = true -> SFleb b c = true -> SFltb a c = true.
Proof.
  unfold SFleb, SFltb.
  destruct a as [sa | sa | | sa ma ea], b as [sb | sb | | sb mb eb],
    c as [sc | sc | | sc mc ec];
    try destruct sa; try destruct sb; try destruct sc;
    cbn [SFcompare]; try discriminate; try reflexivity;
    change (Pos.compare_cont Eq) with Pos.compare;
    destruct (Z.compare_spec ea eb), (Z.compare_spec eb ec),
      (Z.compare_spec ea ec); try lia; try discriminate; try reflexivity;
    destruct (Pos.compare_spec ma mb), (Pos.compare_spec mb mc),
      (Pos.compare_spec ma mc); cbn [CompOpp];
    try lia; try discriminate; try reflexivity.
Qed.

Lemma between_ltb (lo a b hi : float) :
  (lo <=? a) = true -> (a <? b) = true -> (b <=? hi) = true ->
  (lo <? hi) = true.
Proof.
  rewrite !leb_spec, !ltb_spec. intros H1 H2 H3.
  eapply SFltb_leb_trans; [ | exact H3 ].
  eapply SFleb_ltb_trans; eassumption.
Qed.

End MoreBinary64.

(** * Further properties of the extractor *)

(** ** The last line *)

(** A line with no line after it changes nothing: every test of the loop
    asks for [i + 1 < lines.length]. *)
Lemma step_last_line (st : Scan.state) (raw : string) : step st raw None = st.
Proof.
  unfold step, startEntity, groupCode. cbn [nextIs]. rewrite !andb_false_r.
  destruct (Scan.inEntitiesSection st); cbn [negb]; [ | reflexivity ].
  now destruct (Scan.inEntity st), (Scan.currentEntity st).
Qed.

(** ** What is returned *)

Lemma pushCurrent_inv (st : Scan.state) :
  scanInv st -> forallb allowedPolyline (pushCurrent st) = true.
Proof.
  intros [Hes Hcur]. unfold pushCurrent, pendingIsPolyline in *.
  destruct (Scan.currentEntity st) as [e | ]; [ | exact Hes ].
  destruct (allowedLayer (Scan.currentLayer st)) eqn:Hl; [ | exact Hes ].
  destruct Hcur as [Ht Hlay].
  rewrite forallb_app, Hes. cbn [forallb andb]. unfold allowedPolyline.
  cbn [type data layer]. rewrite Ht, Hlay, Hl. reflexivity.
Qed.

Lemma step_inv (st : Scan.state) (raw : string) (next : option string) :
  scanInv st -> scanInv (step st raw next).
Proof.
  intros Hinv. pose proof (pushCurrent_inv st Hinv) as Hpush.
  destruct Hinv as [Hes Hcur].
  unfold step. destruct ((JS.trim raw =? "2") && nextIs next "ENTITIES");
    [ split; assumption | ].
  destruct (negb (Scan.inEntitiesSection st)); [ split; assumption | ].
  unfold startEntity.
  destruct ((JS.trim raw =? "0") && nextIs next "LWPOLYLINE").
  - unfold groupCode. cbn [Scan.inEntity Scan.currentEntity].
    destruct next as [n | ]; [ | split; [ exact Hpush | now split ] ].
    repeat (destruct (JS.trim raw =? _); cbn [andb];
            try (split; [ exact Hpush | now split ])).
  - unfold groupCode.
    destruct (Scan.inEntity st); [ | split; assumption ].
    destruct (Scan.currentEntity st) as [e | ] eqn:Ecur;
      [ | split; assumption ].
    destruct next as [n | ]; [ | split; assumption ].
    assert (Ht : type e = "LWPOLYLINE")
      by (unfold pendingIsPolyline in Hcur; rewrite Ecur in Hcur; tauto).
    assert (Hlay : layer (data e) = Scan.currentLayer st)
      by (unfold pendingIsPolyline in Hcur; rewrite Ecur in Hcur; tauto).
    destruct (JS.trim raw =? "8"); [ split; [ exact Hes | now split ] | ].
    destruct (JS.trim raw =? "90"); [ split; [ exact Hes | now split ] | ].
    destruct (JS.trim raw =? "10").
    { split; [ exact Hes | ]. unfold pendingIsPolyline. cbn.
      rewrite ?Ecur. now split. }
    destruct ((JS.trim raw =? "20") && Scan.expectingY st);
      [ | split; assumption ].
    destruct (Scan.lastX st); [ | split; assumption ].
    split; [ exact Hes | ]. unfold pendingIsPolyline. cbn.
    rewrite ?Ecur. now split.
Qed.

Lemma scan_inv (lines : list string) :
  forall st, scanInv st -> scanInv (scan st lines).
Proof.
  induction lines as [ | raw rest IH ]; intros st H; [ exact H | ].
  cbn [scan]. apply IH. now apply step_inv.
Qed.

Lemma parseDxfContent_allowedPolyline (text : string) :
  forallb allowedPolyline (parseDxfContent text) = true.
Proof. apply pushCurrent_inv, scan_inv. split; [ reflexivity | exact I ]. Qed.

Lemma allowedLayer_names (l : option string) :
  allowedLayer l = true ->
  exists n, l = Some n /\ In n ["0"; "work_area"; "details"].
Proof.
  unfold allowedLayer. destruct l as [n | ]; [ | discriminate ].
  intros H. exists n. split; [ reflexivity | ].
  apply orb_true_iff in H as [H | H];
    [ apply orb_true_iff in H as [H | H] | ];
    apply String.eqb_eq in H; subst n; cbn; auto.
Qed.

(** Whatever the text, every entity that [parseDxfContent] returns has the
    type [LWPOLYLINE] and a layer, which is [0], [work_area] or [details]:
    no entity of another type, with no layer or on another layer is ever
    returned. *)
Theorem extracted_entities_are_allowed_polylines (text : string) :
  Forall (fun e => type e = "LWPOLYLINE"
                   /\ exists l, layer (data e) = Some l
                                /\ In l ["0"; "work_area"; "details"])
         (parseDxfContent text).
Proof.
  pose proof (parseDxfContent_allowedPolyline text) as H.
  apply Forall_forall. intros e He.
  rewrite forallb_forall in H. specialize (H e He).
  unfold allowedPolyline in H. apply andb_true_iff in H as [Ht Hl].
  apply String.eqb_eq in Ht. split; [ exact Ht | ].
  now apply allowedLayer_names.
Qed.

(** ** Lines before the marker *)

Lemma hd_error_app_firstn (pre rest : list string) :
  hd_error (pre ++ rest) = hd_error (pre ++ firstn 1 rest).
Proof. destruct pre; [ now destruct rest | reflexivity ]. Qed.

(** What stands before the [ENTITIES] marker is ignored: when no line of
    [pre] is a [2] followed by [ENTITIES] (the line after the last line of
    [pre] being the first of [rest]), the text [pre ++ rest] gives the
    entities of [rest] alone. *)
Theorem lines_before_the_marker_are_ignored (pre rest : list string) :
  hasEntitiesMarker (pre ++ firstn 1 rest) = false ->
  parseDxfLines (pre ++ rest) = parseDxfLines rest.
Proof.
  unfold parseDxfLines. intros H. f_equal.
  induction pre as [ | raw pre IH ]; [ reflexivity | ].
  cbn [app hasEntitiesMarker] in H. apply orb_false_iff in H as [Hraw Hpre].
  cbn [app scan]. rewrite step_outside_section.
  - exact (IH Hpre).
  - reflexivity.
  - now rewrite hd_error_app_firstn.
Qed.

(** A header section that holds a polyline, before the drawing of the sheet
    and the part: the sheet and the part are returned. *)
Lemma lines_before_the_marker_are_ignored_witness :
  parseDxfLines
    (Inputs.header
       ++ Inputs.sheetLines ++ "0" :: "LWPOLYLINE" :: Inputs.partLines)
  = [Sample.sheet; Sample.part].
Proof.
  rewrite (lines_before_the_marker_are_ignored Inputs.header) by reflexivity.
  vm_compute. reflexivity.
Defined.

(** ** One polyline after the other *)

Lemma pushCurrent_withEntities (es : list entity) (st : Scan.state) :
  pushCurrent (withEntities es st) = (es ++ pushCurrent st)%list.
Proof.
  unfold pushCurrent, withEntities. cbn.
  destruct (Scan.currentEntity st); [ | reflexivity ].
  destruct (allowedLayer (Scan.currentLayer st)); [ | reflexivity ].
  now rewrite app_assoc.
Qed.

(** The loop never reads the entities it has pushed. *)
Lemma step_withEntities (es : list entity) (st : Scan.state) (raw : string)
  (next : option string) :
  step (withEntities es st) raw next = withEntities es (step st raw next).
Proof.
  unfold step.
  destruct ((JS.trim raw =? "2") && nextIs next "ENTITIES"); [ reflexivity | ].
  change (Scan.inEntitiesSection (withEntities es st))
    with (Scan.inEntitiesSection st).
  destruct (negb (Scan.inEntitiesSection st)); [ reflexivity | ].
  unfold startEntity.
  destruct ((JS.trim raw =? "0") && nextIs next "LWPOLYLINE").
  - rewrite pushCurrent_withEntities. unfold groupCode. cbn.
    destruct next; [ | reflexivity ].
    repeat (destruct (JS.trim raw =? _); cbn [andb]; try reflexivity).
  - unfold groupCode. cbn.
    destruct (Scan.inEntity st), (Scan.currentEntity st), next;
      try reflexivity.
    repeat (destruct (JS.trim raw =? _); cbn [andb]; try reflexivity).
    destruct (Scan.expectingY st), (Scan.lastX st); reflexivity.
Qed.

Lemma scan_withEntities (es : list entity) (lines : list string) :
  forall st, scan (withEntities es st) lines = withEntities es (scan st lines).
Proof.
  induction lines as [ | raw rest IH ]; intros st; [ reflexivity | ].
  cbn [scan]. now rewrite step_withEntities, IH.
Qed.

(** A polyline marker in the section keeps of the state the entities that
    the test at the marker leaves, and nothing else. *)
Lemma step_polyline_marker (st : Scan.state) (raw0 : string)
  (next : option string) :
  Scan.inEntitiesSection st = true ->
  JS.trim raw0 = "0" -> nextIs next "LWPOLYLINE" = true ->
  step st raw0 next = withEntities (pushCurrent st) (step inSection raw0 next).
Proof.
  intros Hsec H0 Hn. destruct next as [n | ]; [ | discriminate Hn ].
  unfold step, startEntity, groupCode, withEntities.
  rewrite H0, Hn, Hsec. cbn. now rewrite app_nil_r.
Qed.

(** The scan of a text up to a line, that line being the last, is the scan
    before that line. *)
Lemma scan_snoc (lines : list string) (raw : string) (more : list string) :
  forall st,
    scan st (lines ++ raw :: more)
    = scan (scan st (lines ++ [raw])) (raw :: more).
Proof.
  induction lines as [ | a lines IH ]; intros st.
  - cbn [app scan hd_error]. now rewrite step_last_line.
  - assert (E : hd_error (lines ++ raw :: more) = hd_error (lines ++ [raw]))
      by (destruct lines; reflexivity).
    change (scan (step st a (hd_error (lines ++ raw :: more)))
                 (lines ++ raw :: more)
            = scan (scan (step st a (hd_error (lines ++ [raw])))
                         (lines ++ [raw])) (raw :: more)).
    rewrite E. apply IH.
Qed.

Lemma scan_finds_marker (lines : list string) :
  forall st, hasEntitiesMarker lines = true ->
  Scan.inEntitiesSection (scan st lines) = true.
Proof.
  induction lines as [ | raw rest IH ]; intros st H; [ discriminate H | ].
  cbn [hasEntitiesMarker] in H. cbn [scan].
  destruct ((JS.trim raw =? "2") && nextIs (hd_error rest) "ENTITIES") eqn:E.
  - apply scan_keeps_section. unfold step. now rewrite E.
  - apply IH. exact H.
Qed.

(** The polylines of a text are extracted one after the other. At a line
    [0] followed by [LWPOLYLINE], after the [ENTITIES] marker, the result
    splits in two: the entities of the text cut after that line [0], as if
    the file ended there, and the entities of the rest read on its own
    behind an [ENTITIES] marker. Nothing that stands before the marker of a
    polyline, be it a layer, a pending X or vertices, reaches the entities
    read after it. *)
Theorem polylines_are_extracted_one_by_one (before : list string)
  (raw0 rawT : string) (rest : list string) :
  hasEntitiesMarker (before ++ [raw0]) = true ->
  JS.trim raw0 = "0" -> JS.trim rawT = "LWPOLYLINE" ->
  parseDxfLines (before ++ raw0 :: rawT :: rest)
  = (parseDxfLines (before ++ [raw0])
     ++ parseDxfLines ("2" :: "ENTITIES" :: raw0 :: rawT :: rest))%list.
Proof.
  intros Hm H0 HT. unfold parseDxfLines.
  rewrite scan_snoc.
  set (st := scan Scan.init (before ++ [raw0])).
  assert (Hsec : Scan.inEntitiesSection st = true)
    by (apply scan_finds_marker; exact Hm).
  assert (Hn : nextIs (Some rawT) "LWPOLYLINE" = true)
    by (cbn [nextIs]; rewrite HT; reflexivity).
  cbn [scan hd_error].
  rewrite (step_polyline_marker st raw0 (Some rawT) Hsec H0 Hn).
  rewrite !step_withEntities, scan_withEntities, pushCurrent_withEntities.
  reflexivity.
Qed.

(** The drawing of the sheet and the part, cut at the marker of the part:
    the sheet from the first piece, the part from the second. *)
Lemma polylines_are_extracted_one_by_one_witness :
  parseDxfLines
    (Inputs.sheetLines ++ "0" :: "LWPOLYLINE" :: Inputs.partLines)
  = ([Sample.sheet] ++ [Sample.part])%list.
Proof.
  rewrite (polylines_are_extracted_one_by_one Inputs.sheetLines "0"
             "LWPOLYLINE" Inputs.partLines eq_refl eq_refl eq_refl).
  vm_compute. reflexivity.
Defined.

(** ** Markers and entities *)

Lemma pushCurrent_length (st : Scan.state) :
  List.length (pushCurrent st)
  <= List.length (Scan.entities st) + pendingCount st.
Proof.
  unfold pushCurrent, pendingCount.
  destruct (Scan.currentEntity st); [ | lia ].
  destruct (allowedLayer (Scan.currentLayer st));
    [ rewrite List.length_app; cbn; lia | lia ].
Qed.

Lemma step_count (st : Scan.state) (raw : string) (next : option string) :
  List.length (Scan.entities (step st raw next))
  + pendingCount (step st raw next)
  <= List.length (Scan.entities st) + pendingCount st
     + (if (JS.trim raw =? "0") && nextIs next "LWPOLYLINE" then 1 else 0).
Proof.
  pose proof (pushCurrent_length st) as Hp.
  unfold step.
  destruct ((JS.trim raw =? "2") && nextIs next "ENTITIES");
    [ unfold pendingCount in *; cbn [Scan.entities Scan.currentEntity]; lia | ].
  destruct (negb (Scan.inEntitiesSection st)); [ lia | ].
  unfold startEntity.
  destruct ((JS.trim raw =? "0") && nextIs next "LWPOLYLINE").
  - unfold groupCode. cbn [Scan.inEntity Scan.currentEntity].
    destruct next;
      [ | unfold pendingCount in *; cbn [Scan.entities Scan.currentEntity];
          lia ].
    repeat (destruct (JS.trim raw =? _);
            cbn [andb Scan.expectingY Scan.lastX];
            try (unfold pendingCount in *;
                 cbn [Scan.entities Scan.currentEntity]; lia)).
  - unfold groupCode.
    destruct (Scan.inEntity st); [ | lia ].
    destruct (Scan.currentEntity st) as [e | ] eqn:Ecur; [ | lia ].
    destruct next; [ | lia ].
    repeat (destruct (JS.trim raw =? _); cbn [andb];
            try (unfold pendingCount in *;
                 cbn [Scan.entities Scan.currentEntity];
                 rewrite ?Ecur in *; lia)).
    destruct (Scan.expectingY st), (Scan.lastX st);
      unfold pendingCount in *; cbn [Scan.entities Scan.currentEntity];
      rewrite ?Ecur in *; lia.
Qed.

Lemma scan_count (lines : list string) :
  forall st,
    List.length (pushCurrent (scan st lines))
    <= List.length (Scan.entities st) + pendingCount st
       + polylineMarkers lines.
Proof.
  induction lines as [ | raw rest IH ]; intros st.
  - cbn [scan polylineMarkers]. pose proof (pushCurrent_length st). lia.
  - cbn [scan polylineMarkers]. specialize (IH (step st raw (hd_error rest))).
    pose proof (step_count st raw (hd_error rest)). cbv zeta. lia.
Qed.

(** [parseDxfContent] returns at most one entity for each line [0] that is
    followed by a line [LWPOLYLINE]: no other line of the text makes an
    entity. *)
Theorem at_most_one_entity_per_marker (text : string) :
  List.length (parseDxfContent text) <= polylineMarkers (JS.split_lf text).
Proof.
  unfold parseDxfContent, parseDxfLines.
  exact (scan_count (JS.split_lf text) Scan.init).
Qed.

(** ** White space around a line *)

Lemma blank_inert (t : string) : blank t = true -> inert t = true.
Proof. destruct t; [ reflexivity | ]. cbn. now intros [H _]%andb_true_iff. Qed.

Lemma trimStart_blank (ws s : string) :
  blank ws = true -> JS.trimStart (ws ++ s) = JS.trimStart s.
Proof.
  induction ws as [ | c ws IH ]; [ reflexivity | ].
  cbn [blank append JS.trimStart]. intros [Hc Hws]%andb_true_iff.
  rewrite Hc. now apply IH.
Qed.

Lemma trimStart_all_blank (ws : string) :
  blank ws = true -> JS.trimStart ws = EmptyString.
Proof.
  induction ws as [ | c ws IH ]; [ reflexivity | ].
  cbn [blank JS.trimStart]. intros [Hc Hws]%andb_true_iff.
  rewrite Hc. now apply IH.
Qed.

Lemma trimEnd_blank (ws : string) :
  blank ws = true -> JS.trimEnd ws = EmptyString.
Proof.
  induction ws as [ | c ws IH ]; [ reflexivity | ].
  cbn [blank JS.trimEnd]. intros [Hc Hws]%andb_true_iff.
  now rewrite (IH Hws), Hc.
Qed.

Lemma trimEnd_app_blank (s ws : string) :
  blank ws = true -> JS.trimEnd (s ++ ws) = JS.trimEnd s.
Proof.
  intros H. induction s as [ | c s IH ]; cbn [append JS.trimEnd].
  - now apply trimEnd_blank.
  - now rewrite IH.
Qed.

Lemma trimStart_app_blank (s ws : string) :
  blank ws = true ->
  JS.trimStart (s ++ ws)
  = match JS.trimStart s with
    | EmptyString => EmptyString
    | r => r ++ ws
    end.
Proof.
  intros H. induction s as [ | c s IH ]; cbn [append JS.trimStart].
  - now apply trimStart_all_blank.
  - destruct (JS.isWhiteSpace c); [ exact IH | reflexivity ].
Qed.

Lemma trim_app_blank (s ws : string) :
  blank ws = true -> JS.trim (s ++ ws) = JS.trim s.
Proof.
  intros H. unfold JS.trim. rewrite trimStart_app_blank by exact H.
  destruct (JS.trimStart s) as [ | c r ]; [ reflexivity | ].
  now apply trimEnd_app_blank.
Qed.

(** White space is no digit, sign, point or exponent mark. *)
Lemma white_is_no_digit (c : ascii) :
  JS.isWhiteSpace c = true ->
  JS.digitValue c = None /\ JS.hexDigitValue c = None
  /\ c <> "e"%char /\ c <> "E"%char.
Proof.
  destruct c as [[] [] [] [] [] [] [] []]; intros H; try discriminate H;
    repeat split; discriminate.
Qed.

Lemma digitValue_white (c : ascii) :
  JS.isWhiteSpace c = true -> JS.digitValue c = None.
Proof. intros H. now apply white_is_no_digit. Qed.

Lemma hexDigitValue_white (c : ascii) :
  JS.isWhiteSpace c = true -> JS.hexDigitValue c = None.
Proof. intros H. now apply white_is_no_digit. Qed.

Lemma inert_digit (digit : ascii -> option Z) (t : string) :
  (forall c, JS.isWhiteSpace c = true -> digit c = None) ->
  inert t = true ->
  match t with String c _ => digit c = None | EmptyString => True end.
Proof. intros H Ht. destruct t; [ exact I | now apply H ]. Qed.

(** The readers of a number stop at white space: what they read of [s] they
    read of [s ++ t]. *)
Lemma readDigits_app (digit : ascii -> option Z) (radix : Z) (t : string) :
  match t with String c _ => digit c = None | EmptyString => True end ->
  forall s acc cnt,
    JS.readDigits digit radix acc cnt (s ++ t)
    = let '(a, n, r) := JS.readDigits digit radix acc cnt s in (a, n, r ++ t).
Proof.
  intros Ht. induction s as [ | c s IH ]; intros acc cnt.
  - cbn [append JS.readDigits]. destruct t as [ | c t ]; [ reflexivity | ].
    cbn [JS.readDigits]. now rewrite Ht.
  - cbn [append JS.readDigits]. destruct (digit c); [ apply IH | reflexivity ].
Qed.

Lemma readSign_app (s t : string) :
  inert t = true ->
  JS.readSign (s ++ t) = (fst (JS.readSign s), snd (JS.readSign s) ++ t).
Proof.
  intros Ht. destruct s as [ | c s ].
  - cbn [append]. destruct t as [ | w t ]; [ reflexivity | ].
    cbn [inert] in Ht.
    destruct w as [[] [] [] [] [] [] [] []]; try discriminate Ht; reflexivity.
  - cbn [append]. destruct c as [[] [] [] [] [] [] [] []]; reflexivity.
Qed.

Lemma prefix_app_inert (p : string) :
  (forall c, JS.isWhiteSpace c = true -> lacks c p = true) ->
  forall s t, inert t = true -> prefix p (s ++ t) = prefix p s.
Proof.
  induction p as [ | a p IH ]; intros Hp s t Ht.
  - now destruct s, t.
  - destruct s as [ | c s ].
    + cbn [append]. destruct t as [ | w t ]; [ reflexivity | ].
      cbn [inert] in Ht. specialize (Hp w Ht). cbn [lacks] in Hp.
      apply andb_true_iff in Hp as [Hw _]. apply negb_true_iff in Hw.
      rewrite prefix_head_neq; [ reflexivity | ].
      now rewrite Ascii.eqb_sym.
    + cbn [append prefix]. destruct (ascii_dec a c); [ | reflexivity ].
      apply IH; [ | exact Ht ].
      intros w Hw. specialize (Hp w Hw). cbn [lacks] in Hp.
      now apply andb_true_iff in Hp as [_ Hp].
Qed.

Lemma Infinity_has_no_white (c : ascii) :
  JS.isWhiteSpace c = true -> lacks c "Infinity" = true.
Proof.
  destruct c as [[] [] [] [] [] [] [] []]; intros H; try discriminate H;
    reflexivity.
Qed.

Lemma readExponent_app (s t : string) :
  inert t = true -> JS.readExponent (s ++ t) = JS.readExponent s.
Proof.
  intros Ht. destruct s as [ | c s ].
  - cbn [append]. destruct t as [ | w t ]; [ reflexivity | ].
    cbn [inert] in Ht. unfold JS.readExponent.
    destruct (white_is_no_digit w Ht) as (_ & _ & He & HE).
    apply Ascii.eqb_neq in He, HE. now rewrite He, HE.
  - cbn [append JS.readExponent].
    destruct ((c =? "e")%char || (c =? "E")%char); [ | reflexivity ].
    rewrite readSign_app by exact Ht.
    destruct (JS.readSign s) as [eneg r]. cbn [fst snd].
    rewrite readDigits_app
      by (apply inert_digit; [ exact digitValue_white | exact Ht ]).
    now destruct (JS.readDigits JS.digitValue 10 0 0 r) as [[ev ne] r'].
Qed.

(** [parseFloat] and [parseInt] do not read the white space after a
    number. *)
Lemma parseFloat_app_blank (s ws : string) :
  blank ws = true -> JS.parseFloat (s ++ ws) = JS.parseFloat s.
Proof.
  intros H. pose proof (blank_inert ws H) as Ht.
  unfold JS.parseFloat. rewrite trimStart_app_blank by exact H.
  destruct (JS.trimStart s) as [ | c0 r0 ]; [ reflexivity | ].
  rewrite readSign_app by exact Ht.
  destruct (JS.readSign (String c0 r0)) as [neg r]. cbn [fst snd].
  rewrite prefix_app_inert by (try exact Ht; exact Infinity_has_no_white).
  destruct (prefix "Infinity" r); [ reflexivity | ].
  rewrite readDigits_app
    by (apply inert_digit; [ exact digitValue_white | exact Ht ]).
  destruct (JS.readDigits JS.digitValue 10 0 0 r) as [[ip ni] s1].
  assert (E :
    match s1 ++ ws with
    | String "." r1 => JS.readDigits JS.digitValue 10 ip 0 r1
    | _ => (ip, 0%Z, s1 ++ ws)
    end
    = let '(m, nf, s2) :=
        match s1 with
        | String "." r1 => JS.readDigits JS.digitValue 10 ip 0 r1
        | _ => (ip, 0%Z, s1)
        end in (m, nf, s2 ++ ws)).
  { destruct s1 as [ | c1 r1 ].
    - cbn [append]. destruct ws as [ | w ws' ]; [ reflexivity | ].
      cbn [inert] in Ht.
      destruct w as [[] [] [] [] [] [] [] []]; try discriminate Ht;
        reflexivity.
    - cbn [append].
      pose proof (readDigits_app JS.digitValue 10 ws
                    (inert_digit _ _ digitValue_white Ht) r1 ip 0%Z) as Hr.
      destruct c1 as [[] [] [] [] [] [] [] []]; try reflexivity.
      exact Hr. }
  rewrite E.
  destruct (match s1 with
            | String "." r1 => JS.readDigits JS.digitValue 10 ip 0 r1
            | _ => (ip, 0%Z, s1)
            end) as [[m nf] s2].
  now rewrite readExponent_app by exact Ht.
Qed.

Lemma parseInt_app_blank (s ws : string) :
  blank ws = true -> JS.parseInt (s ++ ws) = JS.parseInt s.
Proof.
  intros H. pose proof (blank_inert ws H) as Ht.
  unfold JS.parseInt. rewrite trimStart_app_blank by exact H.
  destruct (JS.trimStart s) as [ | c0 r0 ]; [ reflexivity | ].
  rewrite readSign_app by exact Ht.
  destruct (JS.readSign (String c0 r0)) as [neg r]. cbn [fst snd].
  pose proof (readDigits_app JS.digitValue 10 ws
                (inert_digit _ _ digitValue_white Ht)) as Hdec.
  pose proof (readDigits_app JS.hexDigitValue 16 ws
                (inert_digit _ _ hexDigitValue_white Ht)) as Hhex.
  assert (E :
    match r ++ ws with
    | String "0" (String c r1) =>
        if (c =? "x")%char || (c =? "X")%char
        then JS.readDigits JS.hexDigitValue 16 0 0 r1
        else JS.readDigits JS.digitValue 10 0 0 (r ++ ws)
    | _ => JS.readDigits JS.digitValue 10 0 0 (r ++ ws)
    end
    = let '(v, n, rest) :=
        match r with
        | String "0" (String c r1) =>
            if (c =? "x")%char || (c =? "X")%char
            then JS.readDigits JS.hexDigitValue 16 0 0 r1
            else JS.readDigits JS.digitValue 10 0 0 r
        | _ => JS.readDigits JS.digitValue 10 0 0 r
        end in (v, n, rest ++ ws)).
  { destruct r as [ | c1 [ | c2 r2 ] ].
    - cbn [append]. rewrite (Hdec EmptyString).
      destruct ws as [ | w [ | w' ws' ] ]; try reflexivity;
        cbn [inert] in Ht;
        destruct w as [[] [] [] [] [] [] [] []]; try discriminate Ht;
        reflexivity.
    - rewrite Hdec. cbn [append].
      destruct ws as [ | w ws' ].
      + destruct c1 as [[] [] [] [] [] [] [] []]; reflexivity.
      + cbn [inert] in Ht.
        assert (Hx : (w =? "x")%char || (w =? "X")%char = false)
          by (destruct w as [[] [] [] [] [] [] [] []]; try discriminate Ht;
              reflexivity).
        destruct c1 as [[] [] [] [] [] [] [] []]; try reflexivity.
        now rewrite Hx.
    - rewrite Hdec. cbn [append].
      destruct c1 as [[] [] [] [] [] [] [] []]; try reflexivity.
      destruct ((c2 =? "x")%char || (c2 =? "X")%char); [ | reflexivity ].
      apply Hhex. }
  rewrite E.
  now destruct (match r with
                | String "0" (String c r1) =>
                    if (c =? "x")%char || (c =? "X")%char
                    then JS.readDigits JS.hexDigitValue 16 0 0 r1
                    else JS.readDigits JS.digitValue 10 0 0 r
                | _ => JS.readDigits JS.digitValue 10 0 0 r
                end) as [[v n] rest].
Qed.

Lemma padded_sameContent (l' l : string) : padded l' l -> sameContent l' l.
Proof.
  intros (ws1 & ws2 & H1 & H2 & ->). unfold sameContent.
  split; [ | split ].
  - unfold JS.trim. rewrite trimStart_blank by exact H1.
    now apply trim_app_blank.
  - transitivity (JS.parseFloat (l ++ ws2)).
    + unfold JS.parseFloat. now rewrite trimStart_blank.
    + now apply parseFloat_app_blank.
  - transitivity (JS.parseInt (l ++ ws2)).
    + unfold JS.parseInt. now rewrite trimStart_blank.
    + now apply parseInt_app_blank.
Qed.

(** A step reads of a line its trimmed text, and of the next line its
    trimmed text, its [parseFloat] and its [parseInt]. *)
Lemma step_sameContent (st : Scan.state) (raw' raw : string)
  (next' next : option string) :
  sameContent raw' raw -> sameNext next' next ->
  step st raw' next' = step st raw next.
Proof.
  intros (Ht & _ & _) Hn. unfold step, startEntity, groupCode, nextIs.
  rewrite Ht.
  destruct next' as [n' | ], next as [n | ]; try contradiction;
    [ | reflexivity ].
  destruct Hn as (Hnt & Hnf & Hni). now rewrite Hnt, Hnf, Hni.
Qed.

Lemma scan_sameContent (lines' lines : list string) :
  Forall2 sameContent lines' lines ->
  forall st, scan st lines' = scan st lines.
Proof.
  induction 1 as [ | l' l rest' rest Hl Hrest IH ]; intros st;
    [ reflexivity | ].
  cbn [scan]. rewrite IH. f_equal. apply step_sameContent; [ exact Hl | ].
  destruct Hrest; [ exact I | assumption ].
Qed.

(** White space around the content of a line is immaterial: two texts whose
    lines differ by white space before and after each line only (an
    indentation, trailing blanks, the carriage return of a file written with
    CR LF) give the same entities, with the same layers, counts and
    coordinates. *)
Theorem white_space_around_a_line_is_immaterial (lines' lines : list string) :
  Forall2 padded lines' lines -> parseDxfLines lines' = parseDxfLines lines.
Proof.
  intros H. unfold parseDxfLines. f_equal. apply scan_sameContent.
  induction H; constructor; auto using padded_sameContent.
Qed.

(** One polyline, with its lines indented and ended by a carriage return and
    without. *)
Lemma white_space_around_a_line_is_immaterial_witness :
  parseDxfLines Inputs.onePolylineCrLf = parseDxfLines Inputs.onePolyline.
Proof.
  apply white_space_around_a_line_is_immaterial.
  unfold Inputs.onePolylineCrLf, Inputs.onePolyline. cbn [map].
  repeat (apply Forall2_cons; [ exists "  ", Inputs.cr; repeat split | ]).
  apply Forall2_nil.
Defined.

(** * Further properties of the projector *)

(** ** The tags of the markup *)

Lemma prefix_empty (s : string) : prefix EmptyString s = true.
Proof. now destruct s. Qed.

Lemma tagCount_pathElement (e : entity) (rest : string) :
  tagCount (pathElement e ++ rest)
  = ((if drawable e then 1 else 0) + tagCount rest)%nat.
Proof.
  destruct (drawable e) eqn:Hd.
  - unfold drawable in Hd. apply andb_true_iff in Hd as [Ht Hv].
    apply String.eqb_eq in Ht.
    destruct (vertices e) as [ | v vs ] eqn:Ev; [ discriminate Hv | ].
    rewrite (pathElement_drawable e v vs Ht Ev). unfold tagCount.
    rewrite countOcc_element by (now apply lacks_pathTail).
    now rewrite prefix_empty.
  - now rewrite (pathElement_not_drawable e Hd).
Qed.

Lemma tagCount_pathElements (es : list entity) (rest : string) :
  tagCount (pathElements es ++ rest)
  = (List.length (filter drawable es) + tagCount rest)%nat.
Proof.
  induction es as [ | e es IH ]; [ reflexivity | ].
  cbn [pathElements filter]. rewrite append_assoc, tagCount_pathElement, IH.
  destruct (drawable e); reflexivity.
Qed.

(** The markup holds no tag but its own: whatever the entities, their
    layers and their coordinates, the number of [<] in the markup is four,
    for [<svg], [<g], [</g>] and [</svg>], plus the number of path elements.
    No text of an entity can open a tag. *)
Theorem markup_holds_no_other_tag (es : list entity) (width height : float) :
  tagCount (convertDxfToSvg es width height)
  = 4 + pathCount (convertDxfToSvg es width height).
Proof.
  rewrite pathCount_convertDxfToSvg. unfold convertDxfToSvg.
  destruct (svgOpen_tail width height) as (t1 & -> & Hl1 & _).
  destruct (groupOpen_tail (findBounds es) width height)
    as (t2 & -> & Hl2 & _).
  unfold tagCount at 1. rewrite (countOcc_element _ _ _ Hl1).
  rewrite (countOcc_element _ _ _ Hl2).
  fold (tagCount (pathElements es ++ "</g></svg>")).
  rewrite tagCount_pathElements, !prefix_empty.
  change (tagCount "</g></svg>") with 2. lia.
Qed.

(** ** The length of the markup *)

Lemma length_append (a b : string) :
  String.length (a ++ b) = String.length a + String.length b.
Proof. induction a as [ | c a IH ]; simpl; [ | rewrite IH ]; reflexivity. Qed.

(** The two opening tags and the closing tags alone are longer than 100
    characters. *)
Lemma markup_length (es : list entity) (width height : float) :
  100 <= String.length (convertDxfToSvg es width height).
Proof.
  unfold convertDxfToSvg, svgOpen, groupOpen.
  repeat rewrite length_append.
  change (String.length dq) with 1.
  cbn [String.length]. lia.
Qed.

(** ** The bounds, continued *)

(** The bounds as one fold over all vertices. *)
Lemma findBounds_flat (es : list entity) :
  forall b,
    fold_left (fun b e => fold_left addVertex (vertices e) b) es b
    = fold_left addVertex (allVertices es) b.
Proof.
  induction es as [ | e es IH ]; intros b; [ reflexivity | ].
  cbn [fold_left allVertices flat_map]. rewrite fold_left_app. apply IH.
Qed.

Lemma addVertex_attained (b : bounds) (seen : list point) (v : point) :
  attained b seen -> attained (addVertex b v) (seen ++ [v]).
Proof.
  intros (H1 & H2 & H3 & H4). unfold attained. rewrite !map_app.
  cbn [addVertex minX maxX minY maxY map].
  repeat split; apply in_or_app.
  - destruct (Math_min_either (minX b) (x v)) as [-> | ->];
      [ now left | right; now left ].
  - destruct (Math_max_either (maxX b) (x v)) as [-> | ->];
      [ now left | right; now left ].
  - destruct (Math_min_either (minY b) (y v)) as [-> | ->];
      [ now left | right; now left ].
  - destruct (Math_max_either (maxY b) (y v)) as [-> | ->];
      [ now left | right; now left ].
Qed.

Lemma fold_addVertex_attained (vs : list point) :
  forall b seen, attained b seen ->
  attained (fold_left addVertex vs b) (seen ++ vs).
Proof.
  induction vs as [ | v vs IH ]; intros b seen H.
  - now rewrite app_nil_r.
  - cbn [fold_left].
    replace (seen ++ v :: vs)%list with ((seen ++ [v]) ++ vs)%list
      by (now rewrite <- app_assoc).
    apply IH. now apply addVertex_attained.
Qed.

Lemma first_vertex_attained (v : point) : attained (addVertex noBounds v) [v].
Proof.
  unfold attained. cbn [addVertex noBounds minX maxX minY maxY map].
  rewrite !Math_min_infinity_l, !Math_max_neg_infinity_l.
  repeat split; now left.
Qed.

(** The bounds are attained: as soon as an entity has a vertex, [minX] and
    [maxX] are the X of a vertex and [minY] and [maxY] are the Y of a vertex,
    so the initial [Infinity] and [-Infinity] are gone and the box is no
    larger than the drawing. This holds with NaN coordinates too, a bound
    being then NaN. *)
Theorem bounds_are_attained (es : list entity) :
  allVertices es <> [] -> attained (findBounds es) (allVertices es).
Proof.
  intros H. unfold findBounds. rewrite findBounds_flat.
  destruct (allVertices es) as [ | v vs ]; [ congruence | ].
  cbn [fold_left].
  apply (fold_addVertex_attained vs _ [v]), first_vertex_attained.
Qed.

(** The sheet and the part: each bound is a coordinate of one of the seven
    vertices. *)
Lemma bounds_are_attained_witness :
  attained (findBounds [Sample.sheet; Sample.part])
    (allVertices [Sample.sheet; Sample.part]).
Proof.
  apply bounds_are_attained. cbn. discriminate.
Defined.

(** ** Coordinates that are NaN *)

Lemma addVertex_keeps_nan (b : bounds) (v : point) :
  (minX b = nan -> minX (addVertex b v) = nan)
  /\ (maxX b = nan -> maxX (addVertex b v) = nan)
  /\ (minY b = nan -> minY (addVertex b v) = nan)
  /\ (maxY b = nan -> maxY (addVertex b v) = nan).
Proof.
  cbn [addVertex minX maxX minY maxY].
  repeat split; intros ->; reflexivity.
Qed.

Lemma fold_addVertex_keeps_nan (vs : list point) :
  forall b,
    (minX b = nan -> minX (fold_left addVertex vs b) = nan)
    /\ (maxX b = nan -> maxX (fold_left addVertex vs b) = nan)
    /\ (minY b = nan -> minY (fold_left addVertex vs b) = nan)
    /\ (maxY b = nan -> maxY (fold_left addVertex vs b) = nan).
Proof.
  induction vs as [ | v vs IH ]; intros b; [ tauto | ].
  cbn [fold_left]. destruct (IH (addVertex b v)) as (H1 & H2 & H3 & H4).
  destruct (addVertex_keeps_nan b v) as (K1 & K2 & K3 & K4). tauto.
Qed.

Lemma fold_addVertex_nan (vs : list point) (v : point) :
  In v vs -> forall b,
  (is_nan (x v) = true ->
   minX (fold_left addVertex vs b) = nan
   /\ maxX (fold_left addVertex vs b) = nan)
  /\ (is_nan (y v) = true ->
      minY (fold_left addVertex vs b) = nan
      /\ maxY (fold_left addVertex vs b) = nan).
Proof.
  induction vs as [ | u vs IH ]; intros Hin b; [ destruct Hin | ].
  cbn [fold_left]. destruct Hin as [-> | Hin]; [ | now apply IH ].
  destruct (fold_addVertex_keeps_nan vs (addVertex b v)) as (H1 & H2 & H3 & H4).
  split; intros Hn; apply is_nan_eq in Hn.
  - split; [ apply H1 | apply H2 ]; cbn [addVertex minX maxX]; rewrite Hn;
      [ apply Math_min_nan_r | apply Math_max_nan_r ].
  - split; [ apply H3 | apply H4 ]; cbn [addVertex minY maxY]; rewrite Hn;
      [ apply Math_min_nan_r | apply Math_max_nan_r ].
Qed.

(** One coordinate that is NaN spoils the transform of the whole drawing.
    When some vertex of some entity has an X that is NaN, [minX] and [maxX]
    are NaN, so is the scale, written [scale(NaN)], and so is the X of the
    centre; the same with a Y that is NaN and the Y of the centre. The
    vertices that are numbers do not bring the bounds back. *)
Theorem nan_coordinate_spoils_the_transform (es : list entity) (v : point)
  (width height : float) :
  In v (allVertices es) ->
  (is_nan (x v) = true ->
   scaleOf (findBounds es) width height = nan
   /\ centerX (findBounds es) = nan)
  /\ (is_nan (y v) = true ->
      scaleOf (findBounds es) width height = nan
      /\ centerY (findBounds es) = nan).
Proof.
  intros Hin. unfold findBounds. rewrite findBounds_flat.
  destruct (fold_addVertex_nan (allVertices es) v Hin noBounds) as [Hx Hy].
  set (b := fold_left addVertex (allVertices es) noBounds) in *.
  split; intros Hn.
  - destruct (Hx Hn) as [Hmin Hmax].
    unfold scaleOf, centerX, dx. rewrite Hmin, Hmax.
    rewrite sub_nan_l, div_nan_r. split; reflexivity.
  - destruct (Hy Hn) as [Hmin Hmax].
    unfold scaleOf, centerY, dy. rewrite Hmin, Hmax.
    rewrite sub_nan_l, div_nan_r, Math_min_nan_r. split; reflexivity.
Qed.

(** The polyline whose first X value reads [abc]: its first vertex has the
    X NaN, and the scale and the X of the centre are NaN although its second
    vertex is (100, 50). *)
Lemma nan_coordinate_spoils_the_transform_witness :
  scaleOf (findBounds (parseDxfContent Sample.badX)) 800 600 = nan
  /\ centerX (findBounds (parseDxfContent Sample.badX)) = nan.
Proof.
  apply (nan_coordinate_spoils_the_transform (parseDxfContent Sample.badX)
           {| x := nan; y := 0 |} 800 600).
  - vm_compute. left. reflexivity.
  - reflexivity.
Defined.

(** ** The scale of a drawing with extent *)

(** When the drawing has an extent in both directions ([dx] and [dy] are
    positive) and the width and the height of the viewport are positive and
    finite, the scale is a Number and is not negative: never NaN, never
    below zero. It can be [Infinity] or zero, when a quotient overflows or
    underflows. *)
Theorem scale_of_a_drawing_with_extent_is_not_negative (es : list entity)
  (width height : float) :
  (0 <? dx (findBounds es))%float = true ->
  (0 <? dy (findBounds es))%float = true ->
  (0 <? width)%float = true -> (width <? infinity)%float = true ->
  (0 <? height)%float = true -> (height <? infinity)%float = true ->
  is_nan (scaleOf (findBounds es) width height) = false
  /\ (0 <=? scaleOf (findBounds es) width height)%float = true.
Proof.
  intros Hdx Hdy Hw Hw' Hh Hh'.
  pose proof (div_notNegative width _ Hw Hw' Hdx) as H1.
  pose proof (div_notNegative height _ Hh Hh' Hdy) as H2.
  apply notNegative_leb. unfold scaleOf. apply mul_0_8_notNegative.
  destruct (notNegative_leb _ H1) as [Hn1 _].
  destruct (notNegative_leb _ H2) as [Hn2 _].
  destruct (Math_min_spec _ _ Hn1 Hn2) as ([-> | ->] & _); assumption.
Qed.

(** The sheet and the part in a viewport of 800 by 600. *)
Lemma scale_of_a_drawing_with_extent_is_not_negative_witness :
  is_nan (scaleOf (findBounds [Sample.sheet; Sample.part]) 800 600) = false
  /\ (0 <=? scaleOf (findBounds [Sample.sheet; Sample.part]) 800 600)%float
     = true.
Proof.
  apply scale_of_a_drawing_with_extent_is_not_negative; reflexivity.
Defined.

(** ** The transform of a drawing with extent *)

Lemma numericBounds_noBounds : numericBounds noBounds.
Proof. repeat split. Qed.

(** With numbers for coordinates and a vertex at least, each bound is a
    coordinate of a vertex and the bounds hold every vertex. *)
Lemma findBounds_least_and_greatest (es : list entity) :
  Forall numeric (allVertices es) -> allVertices es <> [] ->
  attained (findBounds es) (allVertices es)
  /\ forall w, In w (allVertices es) -> holds (findBounds es) w.
Proof.
  intros Hnum Hne. unfold findBounds. rewrite findBounds_flat. split.
  - destruct (allVertices es) as [ | v vs ]; [ congruence | ].
    cbn [fold_left].
    apply (fold_addVertex_attained vs _ [v]), first_vertex_attained.
  - destruct (fold_addVertex_holds (allVertices es) noBounds
                numericBounds_noBounds Hnum) as (_ & Hin & _).
    exact Hin.
Qed.

(** C2. For every entity list whose vertices are numbers and span an
    extent in both directions (two vertices differ in X, two differ in Y),
    and every width and height of the viewport that are positive and
    finite: the bounds [minX], [maxX], [minY] and [maxY] that the two loops
    compute are the least and the greatest X and Y of the vertices (each is
    a coordinate of a vertex, and they hold every vertex); the extents
    [dx = maxX - minX] and [dy = maxY - minY] are positive; the scale
    [min(width / dx, height / dy) * 0.8] is a Number that is not negative;
    and the markup is the [<svg>] tag of width [width] and height [height],
    then the one [<g>] tag whose transform translates to
    [(width / 2, height / 2)], scales by this scale and translates by minus
    the centre [((minX + maxX) / 2, (minY + maxY) / 2)], then the path
    elements and the closing tags, with exactly one group element. *)
Theorem markup_has_one_scaled_centred_group (es : list entity)
  (width height : float) (u v u' v' : point) :
  Forall numeric (allVertices es) ->
  In u (allVertices es) -> In v (allVertices es) ->
  (x u <? x v)%float = true ->
  In u' (allVertices es) -> In v' (allVertices es) ->
  (y u' <? y v')%float = true ->
  (0 <? width)%float = true -> (width <? infinity)%float = true ->
  (0 <? height)%float = true -> (height <? infinity)%float = true ->
  let b := findBounds es in
  let scale :=
    (JS.Math_min (width / (maxX b - minX b)) (height / (maxY b - minY b))
     * lit_0_8)%float in
  let cx := ((minX b + maxX b) / 2)%float in
  let cy := ((minY b + maxY b) / 2)%float in
  (attained b (allVertices es)
   /\ forall w, In w (allVertices es) -> holds b w)
  /\ ((0 <? maxX b - minX b)%float = true
      /\ (0 <? maxY b - minY b)%float = true)
  /\ (is_nan scale = false /\ (0 <=? scale)%float = true)
  /\ convertDxfToSvg es width height
     = ("<svg width=" ++ dq ++ str width ++ dq
          ++ " height=" ++ dq ++ str height ++ dq
          ++ " xmlns=" ++ dq ++ "http://www.w3.org/2000/svg" ++ dq
          ++ " viewBox=" ++ dq ++ "0 0 " ++ str width ++ " " ++ str height
          ++ dq ++ ">")
       ++ ("<g transform=" ++ dq
             ++ "translate(" ++ str (width / 2) ++ ", " ++ str (height / 2)
             ++ ")"
             ++ " scale(" ++ str scale ++ ")"
             ++ " translate(" ++ str (- cx) ++ ", " ++ str (- cy) ++ ")"
             ++ dq ++ ">")
       ++ pathElements es ++ "</g></svg>"
  /\ groupCount (convertDxfToSvg es width height) = 1.
Proof.
  intros Hnum Hu Hv Hx Hu' Hv' Hy Hw Hw' Hh Hh' b scale cx cy.
  assert (Hne : allVertices es <> []) by (intros E; rewrite E in Hu; exact Hu).
  destruct (findBounds_least_and_greatest es Hnum Hne) as [Hatt Hholds].
  fold b in Hatt, Hholds.
  assert (Hdx : (0 <? maxX b - minX b)%float = true).
  { apply sub_positive.
    destruct (Hholds u Hu) as (H1 & _). destruct (Hholds v Hv) as (_ & H2 & _).
    exact (between_ltb _ _ _ _ H1 Hx H2). }
  assert (Hdy : (0 <? maxY b - minY b)%float = true).
  { apply sub_positive.
    destruct (Hholds u' Hu') as (_ & _ & H1 & _).
    destruct (Hholds v' Hv') as (_ & _ & _ & H2).
    exact (between_ltb _ _ _ _ H1 Hy H2). }
  split; [ split; assumption | ].
  split; [ split; assumption | ].
  split.
  - pose proof (div_notNegative width _ Hw Hw' Hdx) as H1.
    pose proof (div_notNegative height _ Hh Hh' Hdy) as H2.
    apply notNegative_leb. unfold scale. apply mul_0_8_notNegative.
    destruct (notNegative_leb _ H1) as [Hn1 _].
    destruct (notNegative_leb _ H2) as [Hn2 _].
    destruct (Math_min_spec _ _ Hn1 Hn2) as ([-> | ->] & _); assumption.
  - exact (markup_of_bounds es width height).
Qed.

(** The sheet and the part in a viewport of 800 by 600: the corners (0, 0)
    and (100, 0) differ in X, the corners (0, 0) and (100, 50) in Y. *)
Lemma markup_has_one_scaled_centred_group_witness :
  let es := [Sample.sheet; Sample.part] in
  (attained (findBounds es) (allVertices es)
   /\ forall w, In w (allVertices es) -> holds (findBounds es) w)
  /\ (0 <? maxX (findBounds es) - minX (findBounds es))%float = true
  /\ groupCount (convertDxfToSvg es 800 600) = 1.
Proof.
  intros es.
  assert (Hnum : Forall numeric (allVertices es))
    by (repeat constructor).
  pose proof (markup_has_one_scaled_centred_group es 800 600
                {| x := 0; y := 0 |} {| x := 100; y := 0 |}
                {| x := 0; y := 0 |} {| x := 100; y := 50 |} Hnum
                (or_introl eq_refl) (or_intror (or_introl eq_refl)) eq_refl
                (or_introl eq_refl)
                (or_intror (or_intror (or_introl eq_refl))) eq_refl
                eq_refl eq_refl eq_refl eq_refl) as H.
  cbv zeta in H. destruct H as (Hb & (Hdx & _) & _ & _ & Hg).
  split; [ exact Hb | split; [ exact Hdx | exact Hg ] ].
Defined.

(** ** The paths of the extracted entities *)

Lemma filter_drawable_allowedPolyline (es : list entity) :
  forallb allowedPolyline es = true ->
  filter drawable es = filter hasVertex es.
Proof.
  induction es as [ | e es IH ]; [ reflexivity | ].
  cbn [forallb filter]. intros [He Hes]%andb_true_iff.
  rewrite (IH Hes). unfold allowedPolyline in He.
  apply andb_true_iff in He as [Ht _].
  unfold drawable, hasVertex. now rewrite Ht.
Qed.

(** From the text to the markup: the markup of the entities extracted from
    any text holds one path element for each returned entity with at least
    one vertex, and each of these paths is stroked [#2E86AB] with the width
    2 or [#A23B72] with the width 1.5. The stroke [black] of width 1, which
    the projector keeps for other layers, is never used on what the
    extractor returns. *)
Theorem extracted_polylines_get_a_path_and_a_layer_stroke (text : string)
  (width height : float) :
  pathCount (convertDxfToSvg (parseDxfContent text) width height)
  = List.length (filter hasVertex (parseDxfContent text))
  /\ Forall (fun e => (strokeColor e, strokeWidth e) = ("#2E86AB", "2")
                      \/ (strokeColor e, strokeWidth e) = ("#A23B72", "1.5"))
            (parseDxfContent text).
Proof.
  pose proof (parseDxfContent_allowedPolyline text) as H. split.
  - rewrite pathCount_convertDxfToSvg.
    now rewrite (filter_drawable_allowedPolyline _ H).
  - apply Forall_forall. intros e He.
    rewrite forallb_forall in H. specialize (H e He).
    unfold allowedPolyline in H. apply andb_true_iff in H as [_ Hl].
    destruct (allowedLayer_names _ Hl) as (n & En & Hn).
    unfold strokeColor, strokeWidth. rewrite En.
    destruct Hn as [<- | [<- | [<- | []]]]; cbn; auto.
Qed.

(** * Properties of the viewer *)

(** ** Loading a drawing *)

(** The test on the markup never fires: the markup of a list of entities is
    never empty nor shorter than 100 characters. *)
Lemma loadDxfFile_received (dxfContent : string) (st : Viewer.state) :
  loadDxfFile (Received dxfContent) st
  = match parseDxfContent dxfContent with
    | [] =>
        Viewer.setLoading false
          (Viewer.setError (Some noDataMessage)
             (Viewer.setError None (Viewer.setLoading true st)))
    | _ :: _ =>
        Viewer.setLoading false
          (Viewer.setSvgContent
             (convertDxfToSvg (parseDxfContent dxfContent) 800 600)
             (Viewer.setError None (Viewer.setLoading true st)))
    end.
Proof.
  unfold loadDxfFile. cbv zeta.
  destruct (parseDxfContent dxfContent) as [ | e es ] eqn:E; [ reflexivity | ].
  cbn [List.length Nat.eqb].
  pose proof (markup_length (e :: es) 800 600) as Hlen.
  destruct (convertDxfToSvg (e :: es) 800 600) as [ | c s ] eqn:Es;
    [ cbn in Hlen; lia | ].
  replace (String c s =? EmptyString) with false by reflexivity.
  cbn [orb].
  destruct (Nat.ltb_spec (String.length (String c s)) 100) as [Hlt | _];
    [ lia | reflexivity ].
Qed.

(** A load ends in one of three states, and always with [loading] false.
    When the request fails, the error is the text of the load failure
    followed by the message, and the drawing shown before stays. When the
    file gives no entity, the error is that the file holds nothing to show,
    and the drawing shown before stays. When it gives an entity, the error
    is cleared and the drawing is the markup of the entities in a viewport
    of 800 by 600. The fourth outcome of the code, the error that no SVG
    could be generated, is never reached. Zoom and pan are not touched. *)
Theorem load_ends_in_one_of_three_states (r : response) (st : Viewer.state) :
  let st' := loadDxfFile r st in
  Viewer.loading st' = false
  /\ Viewer.zoom st' = Viewer.zoom st /\ Viewer.pan st' = Viewer.pan st
  /\ match r with
     | Failed message =>
         Viewer.error st' = Some (loadFailedMessage ++ message)
         /\ Viewer.svgContent st' = Viewer.svgContent st
     | Received dxfContent =>
         match parseDxfContent dxfContent with
         | [] =>
             Viewer.error st' = Some noDataMessage
             /\ Viewer.svgContent st' = Viewer.svgContent st
         | _ :: _ =>
             Viewer.error st' = None
             /\ Viewer.svgContent st'
                = convertDxfToSvg (parseDxfContent dxfContent) 800 600
         end
     end.
Proof.
  destruct r as [dxfContent | message]; cbv zeta.
  - rewrite loadDxfFile_received.
    destruct (parseDxfContent dxfContent); repeat split.
  - repeat split.
Qed.

(** ** The direction of the zoom *)

(** The buttons move the zoom factor their way. From a factor between 0.1
    and 5, zooming in never lowers the factor and raises it whenever it is
    below 5; zooming out never raises it and lowers it whenever it is above
    0.1. *)
Theorem zoom_buttons_move_the_factor (z : float) :
  inRange z = true ->
  (z <=? handleZoomIn z)%float = true
  /\ ((z <? 5)%float = true -> (z <? handleZoomIn z)%float = true)
  /\ (handleZoomOut z <=? z)%float = true
  /\ ((lit_0_1 <? z)%float = true -> (handleZoomOut z <? z)%float = true).
Proof.
  intros Hz. pose proof (mul_1_2_above z Hz) as Hup.
  pose proof (div_1_2_below z Hz) as Hdown.
  apply inRange_iff in Hz as [Hlo Hhi].
  destruct (ltb_not_nan _ _ Hup) as [_ Hn1].
  destruct (ltb_not_nan _ _ Hdown) as [Hn2 _].
  unfold handleZoomIn, handleZoomOut.
  destruct (Math_min_spec (z * lit_1_2) 5 Hn1 eq_refl) as ([-> | ->] & _);
    destruct (Math_max_spec (z / lit_1_2) lit_0_1 Hn2 eq_refl)
      as ([-> | ->] & _);
    repeat split; auto using ltb_leb.
Qed.

(** From the factor 1, zooming in gives more than 1 and zooming out less. *)
Lemma zoom_buttons_move_the_factor_witness :
  (1 <? handleZoomIn 1)%float = true /\ (handleZoomOut 1 <? 1)%float = true.
Proof.
  destruct (zoom_buttons_move_the_factor 1 eq_refl) as (_ & Hin & _ & Hout).
  split; [ apply Hin | apply Hout ]; reflexivity.
Defined.

(** The wheel moves the zoom factor by the sign of [deltaY]. From a factor
    between 0.1 and 5, a tick with a positive [deltaY] never raises the
    factor, and any other tick, [deltaY] zero included, never lowers it. *)
Theorem wheel_moves_the_factor_by_the_sign (deltaY z : float) :
  inRange z = true ->
  ((0 <? deltaY)%float = true -> (handleWheel deltaY z <=? z)%float = true)
  /\ ((0 <? deltaY)%float = false
      -> (z <=? handleWheel deltaY z)%float = true).
Proof.
  intros Hz. pose proof (mul_1_1_above z Hz) as Hup.
  pose proof (mul_0_9_below z Hz) as Hdown.
  apply inRange_iff in Hz as [Hlo Hhi].
  destruct (ltb_not_nan _ _ Hup) as [_ Hn1].
  destruct (ltb_not_nan _ _ Hdown) as [Hn2 _].
  unfold handleWheel. cbv zeta.
  split; intros ->.
  - destruct (Math_min_spec 5 (z * lit_0_9) eq_refl Hn2) as (Hor & _ & Hle).
    assert (Hn : is_nan (JS.Math_min 5 (z * lit_0_9)) = false)
      by (destruct Hor as [-> | ->]; [ reflexivity | exact Hn2 ]).
    destruct (Math_max_spec lit_0_1 (JS.Math_min 5 (z * lit_0_9)) eq_refl Hn)
      as ([-> | ->] & _); [ exact Hlo | ].
    eapply leb_trans; [ exact Hle | now apply ltb_leb ].
  - destruct (Math_min_spec 5 (z * lit_1_1) eq_refl Hn1) as (Hor & _).
    assert (Hn : is_nan (JS.Math_min 5 (z * lit_1_1)) = false)
      by (destruct Hor as [-> | ->]; [ reflexivity | exact Hn1 ]).
    destruct (Math_max_spec lit_0_1 (JS.Math_min 5 (z * lit_1_1)) eq_refl Hn)
      as (_ & _ & Hge).
    eapply leb_trans; [ | exact Hge ].
    destruct Hor as [-> | ->]; [ exact Hhi | now apply ltb_leb ].
Qed.

(** From the factor 2: a tick towards the user does not raise it, a tick
    with [deltaY] zero does not lower it. *)
Lemma wheel_moves_the_factor_by_the_sign_witness :
  (handleWheel 100 2 <=? 2)%float = true
  /\ (2 <=? handleWheel 0 2)%float = true.
Proof.
  split.
  - apply (wheel_moves_the_factor_by_the_sign 100 2 eq_refl). reflexivity.
  - apply (wheel_moves_the_factor_by_the_sign 0 2 eq_refl). reflexivity.
Defined.

(** ** Dragging *)

Lemma moveAlong_released (path : list mouseEvent) (st : Viewer.state) :
  Viewer.isDragging st = false -> moveAlong path st = st.
Proof.
  intros H. induction path as [ | e path IH ]; [ reflexivity | ].
  cbn [moveAlong fold_left]. unfold handleMouseMove at 2. rewrite H.
  exact IH.
Qed.

Lemma moveAlong_dragging (path : list mouseEvent) :
  forall st, Viewer.isDragging st = true ->
  Viewer.isDragging (moveAlong path st) = true
  /\ Viewer.dragStart (moveAlong path st) = Viewer.dragStart st.
Proof.
  induction path as [ | e path IH ]; intros st H; [ now split | ].
  cbn [moveAlong fold_left]. unfold handleMouseMove at 2 4. rewrite H.
  apply (IH (Viewer.setPan _ st)). exact H.
Qed.

Lemma moveAlong_zoom (path : list mouseEvent) :
  forall st, Viewer.zoom (moveAlong path st) = Viewer.zoom st.
Proof.
  induction path as [ | e path IH ]; intros st; [ reflexivity | ].
  cbn [moveAlong fold_left]. fold (moveAlong path (handleMouseMove e st)).
  rewrite IH. unfold handleMouseMove. now destruct (Viewer.isDragging st).
Qed.

Lemma moveAlong_snoc (path : list mouseEvent) (e : mouseEvent)
  (st : Viewer.state) :
  moveAlong (path ++ [e]) st = handleMouseMove e (moveAlong path st).
Proof. unfold moveAlong. now rewrite fold_left_app. Qed.

(** A drag moves the drawing with the pointer. With the pan at the integers
    [(p, q)], after the button goes down with the pointer at [(a, b)] and
    the pointer moves along any path that ends at [(a', b')], the pan is
    exactly [(p + (a' - a), q + (b' - b))]: the subtractions of the two
    handlers round nothing on the coordinates of a screen, and the
    positions between the two ends do not count. Once the button is up,
    moves leave the pan where it is. The zoom factor is not touched. *)
Theorem drag_moves_the_drawing_with_the_pointer (st : Viewer.state)
  (p q a b a' b' : Z) (path after : list mouseEvent) :
  pixel p -> pixel q -> pixel a -> pixel b -> pixel a' -> pixel b' ->
  Viewer.pan st = {| x := integer p; y := integer q |} ->
  let dragged :=
    moveAlong (path ++ [pointerAt a' b'])
      (handleMouseDown (pointerAt a b) st) in
  Viewer.pan dragged
  = {| x := integer (p + (a' - a)); y := integer (q + (b' - b)) |}
  /\ Viewer.pan (moveAlong after (handleMouseUp dragged)) = Viewer.pan dragged
  /\ Viewer.zoom dragged = Viewer.zoom st.
Proof.
  intros Hp Hq Ha Hb Ha' Hb' Hpan dragged. unfold pixel in *.
  change (2 ^ 50)%Z with 1125899906842624%Z in *.
  assert (H52 : (2 ^ 52 = 4503599627370496)%Z) by reflexivity.
  split; [ | split ].
  - unfold dragged. rewrite moveAlong_snoc.
    destruct (moveAlong_dragging path (handleMouseDown (pointerAt a b) st)
                eq_refl) as [Hdrag Hstart].
    unfold handleMouseMove. rewrite Hdrag. cbn [Viewer.pan Viewer.setPan].
    rewrite Hstart.
    cbn [handleMouseDown Viewer.dragStart Viewer.setDragStart
         Viewer.pan Viewer.setIsDragging pointerAt clientX clientY x y].
    rewrite Hpan. cbn [x y].
    rewrite !sub_integer by (rewrite ?H52; lia).
    f_equal; f_equal; lia.
  - now rewrite moveAlong_released.
  - unfold dragged. now rewrite moveAlong_zoom.
Qed.

(** On a fresh viewer: the button goes down at (10, 20), the pointer passes
    (400, 3) and stops at (15, 18), and the pan is (5, -2). *)
Lemma drag_moves_the_drawing_with_the_pointer_witness :
  Viewer.pan
    (moveAlong [pointerAt 400 3; pointerAt 15 18]
       (handleMouseDown (pointerAt 10 20) Viewer.init))
  = {| x := 5; y := -2 |}.
Proof.
  exact (proj1 (drag_moves_the_drawing_with_the_pointer Viewer.init
                  0 0 10 20 15 18 [pointerAt 400 3] []
                  eq_refl eq_refl eq_refl eq_refl eq_refl eq_refl eq_refl)).
Defined.

(** ** The name of the downloaded file *)

(** The download is always offered under a name that ends in [.dxf]: when
    the map has a name that is not empty, the name of the map followed by
    [.dxf]; when it has no name or an empty one, [cutting_map.dxf]. The name
    that [handleDownload] passes is never empty, so [downloadDxfFile] sets
    it as it is and its own fallback is not used. *)
Theorem download_name_ends_in_dxf (name : option string) :
  downloadAttribute (downloadName name)
  = match name with
    | Some (String c n) => String c n ++ ".dxf"
    | Some EmptyString | None => "cutting_map.dxf"
    end
  /\ downloadAttribute (downloadName name) = downloadName name
  /\ exists base,
       base <> EmptyString
       /\ downloadAttribute (downloadName name) = base ++ ".dxf".
Proof.
  destruct name as [ [ | c n ] | ]; repeat split;
    first [ now exists "cutting_map" | now exists (String c n) ].
Qed.
